(** * beacon4hcnv: access-policy response filter, access resolution,
      filter-token parsing and dataset reconciliation

    A shallow embedding of
    - [beacon_api/utils/polyvalent_functions.py]
      ([create_prepstmt_variables], [filter_exists], [datasetHandover],
       [parse_filters_request], the string building of
       [prepare_filter_parameter], [access_resolution], the classification
       loop of [fetch_datasets_access], [filter_response]),
    - [beacon_api/api/genomic_region.py]
      ([snp_resultsHandover], [transform_record], [transform_misses],
       [fetch_resulting_datasets], [get_datasets] and, of
       [region_request_handler], the string of dataset identifiers, the
       [exists] entry and the filtering of the answer),
    - [beacon_api/api/cnv.py] ([transform_record]; its other functions are
      those of genomic_region.py) and
    - [beacon_api/utils/models.py] (the [id] of the two service models),
    followed by the properties of these functions.

    Python values are a tree type [value]; a Python [dict] with string keys
    is an association list in insertion order, its keys unique
    ([well_formed]); exceptions are the [Raise] results of the monad
    [result]. *)

From Stdlib Require Import ZArith Ascii String List Bool Floats.SpecFloat Permutation.
From stdpp Require Import base list strings gmap pretty.

Open Scope string_scope.
Open Scope list_scope.

(* ===================================================================== *)
(** * Part I: the embedding                                               *)
(* ===================================================================== *)

(** ** Python values *)

Unset Elimination Schemes.
Inductive value : Type :=
| VNone
| VBool (b : bool)
| VInt (z : Z)
| VFloat (f : spec_float)
| VStr (s : string)
| VList (l : list value)
| VDict (d : list (string * value)).
Set Elimination Schemes.

(** A [dict] with [str] keys, in insertion order. *)
Abbreviation dict := (list (string * value)).

(** Truth value of an object ([if x], [not x]). *)
Definition truthy (v : value) : bool :=
  match v with
  | VNone => false
  | VBool b => b
  | VInt z => negb (z =? 0)%Z
  | VFloat (S754_zero _) => false
  | VFloat _ => true
  | VStr s => negb (s =? "")
  | VList [] => false
  | VList (_ :: _) => true
  | VDict [] => false
  | VDict (_ :: _) => true
  end.

(** [isinstance(val, dict) or isinstance(val, list)] *)
Definition is_container (v : value) : bool :=
  match v with
  | VList _ | VDict _ => true
  | _ => false
  end.

(** [v is None], [v is True], [v is False] *)
Definition is_None (v : value) : bool :=
  match v with VNone => true | _ => false end.
Definition is_True (v : value) : bool :=
  match v with VBool true => true | _ => false end.
Definition is_False (v : value) : bool :=
  match v with VBool false => true | _ => false end.

(** [x == v] for an [int] x: Python compares numbers of different types
    by their mathematical value, and [True], [False] are the integers 1
    and 0. *)
Definition int_eq (x : Z) (v : value) : bool :=
  match v with
  | VInt z => (x =? z)%Z
  | VBool b => (x =? (if b then 1 else 0))%Z
  | VFloat (S754_zero _) => (x =? 0)%Z
  | VFloat (S754_finite sign m e) =>
      let sm := (if sign then Z.neg m else Z.pos m) in
      if (0 <=? e)%Z then (x =? sm * 2 ^ e)%Z else (x * 2 ^ (- e) =? sm)%Z
  | _ => false
  end.

(** [v in l] for a list [l] of [str]: only a [str] equals a [str]. *)
Definition str_in (v : value) (l : list string) : bool :=
  match v with
  | VStr s => existsb (String.eqb s) l
  | _ => false
  end.

(** ** Exceptions *)

(** The exceptions that the code raises: five of Python and three of
    [api/exceptions.py], the two that [access_resolution] raises and the
    one that the queries on the database raise. The last two constructors
    are errors that only the specification names; no statement of the code
    raises them. *)

Inductive exn : Type :=
| KeyError
| TypeError
| AttributeError
| IndexError
| ValueError
| BeaconUnauthorised
| BeaconForbidden
| BeaconServerError
| MalformedFilterError
| PolicyConfigError.

Inductive result (A : Type) : Type :=
| Ok (a : A)
| Raise (e : exn).
Arguments Ok {A} a.
Arguments Raise {A} e.

Definition bind {A B : Type} (m : result A) (k : A -> result B) : result B :=
  match m with
  | Ok a => k a
  | Raise e => Raise e
  end.

Notation "x <- m ;; k" := (bind m (fun x => k))
  (at level 100, m at next level, right associativity).

(** ** Dictionaries *)

(** [k in d.keys()] *)
Definition dict_has (d : dict) (k : string) : bool :=
  existsb (fun kv => String.eqb k (fst kv)) d.

(** [d.get(k)], [None] when the key is missing. *)
Fixpoint dict_get (d : dict) (k : string) : option value :=
  match d with
  | [] => None
  | (k', v) :: rest => if String.eqb k k' then Some v else dict_get rest k
  end.

(** [d[k] = v]: an existing key keeps its place, a new key goes last. *)
Fixpoint dict_set (d : dict) (k : string) (v : value) : dict :=
  match d with
  | [] => [(k, v)]
  | (k', v') :: rest =>
      if String.eqb k k' then (k, v) :: rest else (k', v') :: dict_set rest k v
  end.

(** [del d[k]] *)
Fixpoint dict_del (d : dict) (k : string) : dict :=
  match d with
  | [] => []
  | (k', v') :: rest =>
      if String.eqb k k' then rest else (k', v') :: dict_del rest k
  end.

(** [d.pop(k)]: the value and the remaining dictionary. *)
Definition dict_pop (d : dict) (k : string) : result (value * dict) :=
  match dict_get d k with
  | Some v => Ok (v, dict_del d k)
  | None => Raise KeyError
  end.

(** [d.get(k)] as a value. *)
Definition py_get (d : dict) (k : string) : value :=
  match dict_get d k with
  | Some v => v
  | None => VNone
  end.

(** [v[k]] for a [str] key: only a [dict] can be indexed by a string. *)
Definition subscript (v : value) (k : string) : result value :=
  match v with
  | VDict d =>
      match dict_get d k with
      | Some x => Ok x
      | None => Raise KeyError
      end
  | _ => Raise TypeError
  end.

(** [v.keys()] *)
Definition keys (v : value) : result (list string) :=
  match v with
  | VDict d => Ok (map fst d)
  | _ => Raise AttributeError
  end.

(** [l[i]] *)
Definition index {A : Type} (l : list A) (i : nat) : result A :=
  match nth_error l i with
  | Some x => Ok x
  | None => Raise IndexError
  end.

(** The keys of a dictionary are unique, at every depth. *)
Fixpoint unique_keys (ks : list string) : bool :=
  match ks with
  | [] => true
  | k :: rest => negb (existsb (String.eqb k) rest) && unique_keys rest
  end.

Fixpoint well_formed (v : value) : bool :=
  match v with
  | VDict d => unique_keys (map fst d) && forallb (fun kv => well_formed (snd kv)) d
  | VList l => forallb well_formed l
  | _ => true
  end.

(** ** [filter_response] (polyvalent_functions.py, lines 246-288) *)

(** What the loop over [response.items()] does with one field:
    [final_dict[key] = val], [final_dict[key] = filter_response(val, ...,
    translated_key)], or nothing. *)
Inductive action : Type :=
| Pass
| Descend (translated_key : string)
| Omit.

Section ResponseFilter.

Variable access_levels_dict : dict.
Variable accessible_datasets : list string.
Variable user_levels : list string.
Variable field2access : list (string * string).

(** [field2access[key] if key in field2access.keys() else key] *)
Fixpoint lookup_field (table : list (string * string)) (key : string) : option string :=
  match table with
  | [] => None
  | (k, t) :: rest => if String.eqb key k then Some t else lookup_field rest key
  end.

Definition translate (key : string) : string :=
  match lookup_field field2access key with
  | Some t => t
  | None => key
  end.

(** [if parent_key]: [None] and the empty string are both false. *)
Definition parent_scope (parent_key : option string) : option string :=
  match parent_key with
  | Some p => if String.eqb p "" then None else Some p
  | None => None
  end.

(** Lines 261-277 for one [(key, val)]. *)
Definition field_action (parent_key : option string) (key : string) (val : value)
  : result action :=
  let translated_key := translate key in
  specific_access_levels_dict <-
    match parent_scope parent_key with
    | Some p => subscript (VDict access_levels_dict) p
    | None => Ok (VDict access_levels_dict)
    end ;;
  unmodelled <-
    (if dict_has access_levels_dict translated_key then Ok false
     else ks <- keys specific_access_levels_dict ;;
          Ok (negb (existsb (String.eqb translated_key) ks))) ;;
  if (unmodelled : bool) then Ok Pass
  else if is_container val && dict_has access_levels_dict translated_key then
    scope <- subscript (VDict access_levels_dict) translated_key ;;
    summary <- subscript scope "accessLevelSummary" ;;
    let self_permission := str_in summary user_levels in
    parent_permission <-
      match parent_scope parent_key with
      | Some p =>
          parent <- subscript (VDict access_levels_dict) p ;;
          level <- subscript parent key ;;
          Ok (str_in level user_levels)
      | None => Ok true
      end ;;
    if self_permission && parent_permission then Ok (Descend translated_key)
    else Ok Omit
  else
    valid_level <-
      match parent_scope parent_key with
      | Some p =>
          parent <- subscript (VDict access_levels_dict) p ;;
          subscript parent translated_key
      | None => subscript (VDict access_levels_dict) translated_key
      end ;;
    if str_in valid_level user_levels then Ok Pass else Ok Omit.

(** The loop of lines 260-277, [rec] being the recursive call. *)
Definition filter_fields (rec : value -> option string -> result value)
  (parent_key : option string) : dict -> dict -> result value :=
  fix each (items final_dict : dict) {struct items} : result value :=
    match items with
    | [] => Ok (VDict final_dict)
    | (key, val) :: rest =>
        act <- field_action parent_key key val ;;
        match act with
        | Pass => each rest (dict_set final_dict key val)
        | Descend translated_key =>
            sub <- rec val (Some translated_key) ;;
            each rest (dict_set final_dict key sub)
        | Omit => each rest final_dict
        end
    end.

(** [not datasetId or datasetId in accessible_datasets], line 284. *)
Definition dataset_shown (element : dict) : bool :=
  let datasetId := py_get element "datasetId" in
  negb (truthy datasetId) || str_in datasetId accessible_datasets.

(** The loop of lines 281-285. *)
Definition filter_elements (rec : value -> option string -> result value)
  (parent_key : option string) : list value -> list value -> result value :=
  fix each (elements filtered : list value) {struct elements} : result value :=
    match elements with
    | [] => Ok (VList filtered)
    | element :: rest =>
        match element with
        | VDict d =>
            if dataset_shown d then
              sub <- rec element parent_key ;;
              each rest (filtered ++ [sub])
            else each rest filtered
        | _ => each rest filtered
        end
    end.

Fixpoint filter_response (response : value) (parent_key : option string)
  {struct response} : result value :=
  match response with
  | VDict items => filter_fields filter_response parent_key items []
  | VList elements => filter_elements filter_response parent_key elements []
  | _ => Ok (VDict [])
  end.

(** *** The two loops without their accumulators *)

(** What one field adds to [final_dict]. *)
Definition field_result (rec : value -> option string -> result value)
  (parent_key : option string) (key : string) (val : value)
  : result (option (string * value)) :=
  act <- field_action parent_key key val ;;
  match act with
  | Pass => Ok (Some (key, val))
  | Descend translated_key =>
      sub <- rec val (Some translated_key) ;;
      Ok (Some (key, sub))
  | Omit => Ok None
  end.

Fixpoint fields_kept (rec : value -> option string -> result value)
  (parent_key : option string) (items : dict) : result dict :=
  match items with
  | [] => Ok []
  | (key, val) :: rest =>
      r <- field_result rec parent_key key val ;;
      kept <- fields_kept rec parent_key rest ;;
      Ok (match r with
          | Some kv => kv :: kept
          | None => kept
          end)
  end.

(** [final_dict[key] = val] for every pair of [kept], in order. *)
Definition set_all (final_dict kept : dict) : dict :=
  fold_left (fun d kv => dict_set d (fst kv) (snd kv)) kept final_dict.

(** The elements of a list that reach [filtered.append], lines 282-284. *)
Definition element_shown (element : value) : bool :=
  match element with
  | VDict d => dataset_shown d
  | _ => false
  end.

(** The two tests of lines 268-272: the tier the subtree asks for itself,
    and the tier the parent scope declares for the field, if there is a
    parent. *)
Definition summary_tier (key : string) : result value :=
  scope <- subscript (VDict access_levels_dict) (translate key) ;;
  subscript scope "accessLevelSummary".

Definition parent_tier (parent_key : option string) (key : string)
  : result (option value) :=
  match parent_scope parent_key with
  | Some p =>
      parent <- subscript (VDict access_levels_dict) p ;;
      level <- subscript parent key ;;
      Ok (Some level)
  | None => Ok None
  end.

(** A field that lines 261-264 let through: its translated key is neither
    a key of the policy nor a key of the parent's scope. *)
Definition unmodelled (parent_key : option string) (key : string) : bool :=
  negb (dict_has access_levels_dict (translate key)) &&
  match parent_scope parent_key with
  | Some p =>
      match dict_get access_levels_dict p with
      | Some (VDict scope) => negb (dict_has scope (translate key))
      | _ => false
      end
  | None => true
  end.

(** A response none of whose fields is modelled: a mapping with only
    unmodelled keys, or a list whose mappings have only unmodelled keys. *)
Definition unmodelled_fields (parent_key : option string) (d : dict) : bool :=
  forallb (fun kv => unmodelled parent_key (fst kv)) d.

Definition unmodelled_response (parent_key : option string) (response : value) : bool :=
  match response with
  | VDict d => unmodelled_fields parent_key d
  | VList l =>
      forallb (fun e => match e with
                        | VDict d => unmodelled_fields parent_key d
                        | _ => true
                        end) l
  | _ => true
  end.

End ResponseFilter.

(** [[f(x) for x in l]] where [f] can raise. *)
Fixpoint traverse {A B : Type} (f : A -> result B) (l : list A) : result (list B) :=
  match l with
  | [] => Ok []
  | x :: rest =>
      y <- f x ;;
      ys <- traverse f rest ;;
      Ok (y :: ys)
  end.

(** The exceptions of a failed look-up in the policy. *)
Definition lookup_error (e : exn) : Prop :=
  e = KeyError \/ e = TypeError \/ e = AttributeError.

(** A policy tree as the specification describes it: every scope is a
    mapping with an [accessLevelSummary], and every entry of a scope is one
    of the three tiers. *)
Definition recognised_tier (v : value) : bool :=
  str_in v ["PUBLIC"; "REGISTERED"; "CONTROLLED"].

Definition consistent_scope (v : value) : bool :=
  match v with
  | VDict scope =>
      dict_has scope "accessLevelSummary" &&
      unique_keys (map fst scope) &&
      forallb (fun kv => recognised_tier (snd kv)) scope
  | _ => false
  end.

Definition consistent_policy (access_levels_dict : dict) : bool :=
  unique_keys (map fst access_levels_dict) &&
  forallb (fun kv => consistent_scope (snd kv)) access_levels_dict.

(** ** Strings: [str.split(sep)] and [sub in s] *)

(** [sub in s]: [sub] starts at some position of [s]. *)
Fixpoint contains (sub s : string) : bool :=
  String.prefix sub s ||
  match s with
  | EmptyString => false
  | String _ rest => contains sub rest
  end.

(** [s.split(sep)] for a non-empty [sep], scanning from the left;
    [skip] counts the characters of a separator still to be consumed. *)
Fixpoint split_from (sep : string) (skip : nat) (s : string) : list string :=
  match s with
  | EmptyString => [""]
  | String c rest =>
      match skip with
      | S n => split_from sep n rest
      | O =>
          if String.prefix sep s
          then "" :: split_from sep (String.length sep - 1) rest
          else match split_from sep 0 rest with
               | piece :: pieces => String c piece :: pieces
               | [] => [String c ""]
               end
      end
  end.

Definition str_split (s sep : string) : list string := split_from sep 0 s.

(** [s[i:]] *)
Definition slice_from (s : string) (i : nat) : string :=
  String.substring i (String.length s - i) s.

(** ** [parse_filters_request] (polyvalent_functions.py, lines 86-111) *)

Definition operators : list string := [">="; "<="; "="; ">"; "<"].

(** The [for operator in ...] loop of lines 95-101 with its [break]:
    [Some (term, operator, value)] when [operator_switch] ends up true. *)
Fixpoint scan_operators (ops : list string) (filter_elements : list string)
  : result (option (string * string * string)) :=
  match ops with
  | [] => Ok None
  | operator :: rest =>
      remainder <- index filter_elements 1 ;;
      if contains operator remainder then
        term <- index (str_split remainder operator) 0 ;;
        val <- index (str_split remainder operator) 1 ;;
        Ok (Some (term, operator, val))
      else scan_operators rest filter_elements
  end.

(** The body of the loop over the tokens, lines 92-109. *)
Definition parse_filter (unprocessed_filter : string) : result (list string) :=
  let filter_elements := str_split unprocessed_filter ":" in
  ontology <- index filter_elements 0 ;;
  found <- scan_operators operators filter_elements ;;
  match found with
  | Some (term, operator, val) => Ok [ontology; term; operator; val]
  | None =>
      second <- index filter_elements 1 ;;
      Ok [ontology; second]
  end.

Fixpoint parse_filters_from (filters_request_list : list string)
  (list_filters : list (list string)) : result (list (list string)) :=
  match filters_request_list with
  | [] => Ok list_filters
  | unprocessed_filter :: rest =>
      final_elements <- parse_filter unprocessed_filter ;;
      parse_filters_from rest (list_filters ++ [final_elements])
  end.

Definition parse_filters_request (filters_request_list : list string)
  : result (list (list string)) :=
  parse_filters_from filters_request_list [].

(** ** [access_resolution] (polyvalent_functions.py, lines 168-212) *)

(** The claims of the token: [token["bona_fide_status"]],
    [token["authenticated"]], and [token["permissions"]] when the key is
    there. *)
Record token : Type := {
  bona_fide_status : value;
  authenticated : value;
  permissions : option (list Z)
}.

(** [if l] for a list. *)
Definition nonempty {A : Type} (l : list A) : bool :=
  match l with
  | [] => false
  | _ :: _ => true
  end.

(** ['permissions' in token and token['permissions']] *)
Definition token_permissions (t : token) : option (list Z) :=
  match permissions t with
  | Some (p :: ps) => Some (p :: ps)
  | _ => None
  end.

(** Lines 187-191 and 206-210. *)
Definition deny {A : Type} (t : token) : result A :=
  if is_False (authenticated t) then Raise BeaconUnauthorised
  else Raise BeaconForbidden.

(** The result is the pair [(permissions, list(access))]; [access] is a
    Python [set], here a [gset], and [list(access)] enumerates it in the
    order of the set. *)
Definition access_resolution (t : token)
  (public_data registered_data controlled_data : list Z)
  : result (list string * list Z) :=
  let permissions0 : list string :=
    if nonempty public_data then ["PUBLIC"] else [] in
  let access0 : gset Z := list_to_set public_data in
  registered_step <-
    (if nonempty registered_data && is_True (bona_fide_status t) then
       Ok (permissions0 ++ ["REGISTERED"], access0 ∪ list_to_set registered_data)
     else if nonempty registered_data && negb (nonempty public_data) then
       deny t
     else Ok (permissions0, access0)) ;;
  let '(permissions1, access1) := registered_step in
  controlled_step <-
    match (if nonempty controlled_data then token_permissions t else None) with
    | Some token_perms =>
        let controlled_access : gset Z :=
          list_to_set controlled_data ∩ list_to_set token_perms in
        let access := access1 ∪ controlled_access in
        if nonempty (elements controlled_access)
        then Ok (permissions1 ++ ["CONTROLLED"], access)
        else Ok (permissions1, access)
    | None =>
        if nonempty controlled_data
           && negb (nonempty public_data || nonempty registered_data)
        then deny t
        else Ok (permissions1, access1)
    end ;;
  let '(permissions2, access2) := controlled_step in
  Ok (permissions2, elements access2).

(** ** [filter_exists] and [datasetHandover]
       (polyvalent_functions.py, lines 35-58) *)

(** [[d for d in datasets if test(d)]] where the test can raise. *)
Fixpoint comprehension_if (test : value -> result bool) (datasets : list value)
  : result (list value) :=
  match datasets with
  | [] => Ok []
  | d :: rest =>
      keep <- test d ;;
      kept <- comprehension_if test rest ;;
      Ok (if (keep : bool) then d :: kept else kept)
  end.

(** A call that falls off the end of the function returns [None]. *)
Definition filter_exists (include_dataset : string) (datasets : list value)
  : result value :=
  if String.eqb include_dataset "ALL" then Ok (VList datasets)
  else if String.eqb include_dataset "NONE" then Ok (VList [])
  else if String.eqb include_dataset "HIT" then
    kept <- comprehension_if
              (fun d => e <- subscript d "exists" ;; Ok (is_True e)) datasets ;;
    Ok (VList kept)
  else if String.eqb include_dataset "MISS" then
    kept <- comprehension_if
              (fun d => e <- subscript d "exists" ;; Ok (is_False e)) datasets ;;
    Ok (VList kept)
  else Ok VNone.

Definition datasetHandover (dataset_name : string) : value :=
  VList [VDict [
    ("handoverType", VDict [("id", VStr "CUSTOM"); ("label", VStr "Dataset info")]);
    ("note", VStr "Dataset information and DAC contact details in EGA Website");
    ("url", VStr (String.append "https://ega-archive.org/datasets/" dataset_name))]].

(** ** Response assembly (genomic_region.py) *)

Definition snp_resultsHandover (variantId : string) : value :=
  VList [
    VDict [
      ("handoverType", VDict [("id", VStr "data:1106"); ("label", VStr "dbSNP ID")]);
      ("note", VStr "Link to dbSNP database");
      ("url", VStr (String.append "https://www.ncbi.nlm.nih.gov/snp/?term=" variantId))];
    VDict [
      ("handoverType", VDict [("id", VStr "data:1106"); ("label", VStr "dbSNP ID")]);
      ("note", VStr "Link to dbSNP API");
      ("url", VStr (String.append "https://api.ncbi.nlm.nih.gov/variation/v0/beta/refsnp/"
                                  (slice_from variantId 2)))]].

(** A row of the table [beacon_dataset]. *)
Record dataset_row : Type := {
  ds_id : Z;
  ds_stable_id : string;
  ds_access_type : string
}.

(** A row returned by the SQL function [query_data_response]: the columns
    the code reads. *)
Record hit_row : Type := {
  row_id : value;
  variant_id : value;
  variant_composite_id : string;
  chromosome : value;
  reference : value;
  alternate : value;
  start_pos : value;
  end_pos : value;
  variant_type : value;
  dataset_id : Z;
  variant_cnt : value;
  call_cnt : value;
  sample_cnt : value;
  frequency : value;
  num_variants : value;
  matching_sample_cnt : value
}.

(** [dict(record)] *)
Definition record_dict (record : hit_row) : dict :=
  [ ("id", row_id record);
    ("variant_id", variant_id record);
    ("variant_composite_id", VStr (variant_composite_id record));
    ("chromosome", chromosome record);
    ("reference", reference record);
    ("alternate", alternate record);
    ("start", start_pos record);
    ("end", end_pos record);
    ("variant_type", variant_type record);
    ("dataset_id", VInt (dataset_id record));
    ("variant_cnt", variant_cnt record);
    ("call_cnt", call_cnt record);
    ("sample_cnt", sample_cnt record);
    ("frequency", frequency record);
    ("num_variants", num_variants record);
    ("matching_sample_cnt", matching_sample_cnt record) ].

(** One entry of [variants_dict]. *)
Record variant_entry : Type := {
  variantDetails : dict;
  datasetAlleleResponses : list value
}.

(** [for dispensable in [...]: response.pop(dispensable)] *)
Fixpoint pop_each (response : dict) (dispensables : list string) : result dict :=
  match dispensables with
  | [] => Ok response
  | dispensable :: rest =>
      popped <- dict_pop response dispensable ;;
      pop_each (snd popped) rest
  end.

(** [response[new] = response.pop(old)] *)
Definition rename_key (response : dict) (new old : string) : result dict :=
  popped <- dict_pop response old ;;
  Ok (dict_set (snd popped) new (fst popped)).

(** [response[new] = 0 if response.get(old) is None else f(response.pop(old))],
    where [f] can raise. *)
Definition zero_if_none (response : dict) (new old : string)
  (f : value -> result value) : result dict :=
  if is_None (py_get response old) then Ok (dict_set response new (VInt 0))
  else popped <- dict_pop response old ;;
       converted <- f (fst popped) ;;
       Ok (dict_set (snd popped) new converted).

(** [try: ... except Exception as e: raise BeaconServerError(...)]: whatever
    the statements of the [try] raise is raised again as
    [BeaconServerError]. *)
Definition server_error {A : Type} (m : result A) : result A :=
  match m with
  | Ok a => Ok a
  | Raise _ => Raise BeaconServerError
  end.

Section Reconciliation.

(** The collaborators of the reconciliation: the database, a conversion
    of numbers and two web services. Each of them can raise, and answers
    [Raise] when it does.
    - [acquire] is [async with db_pool.acquire(timeout=180) as connection],
      which stands outside the [try] of the functions that query: what it
      raises is raised as it is.
    - [select_dataset id] is the query
      [SELECT stable_id, access_type FROM beacon_dataset WHERE id=...] of
      [transform_record] with its [fetchrow()]: a row, or [None].
    - [select_missing ids] is the query
      [SELECT ... FROM beacon_dataset WHERE id IN (...)] of
      [fetch_resulting_datasets] with its [fetch()]. The query has no
      [ORDER BY]: the order of the rows is the order of the answer.
    - [round4 x] is [float(round(x, 4))]; it raises [TypeError] on what is
      not a number.
    - [variantAnnotations details] is the coroutine of lines 53-86, which
      asks two web services and answers [(rsID, cellBase_dict, dnSNP_dict)].
      It raises [TypeError] when [details] has no number under [start] or
      no string under [referenceBases] ([start + 1], [":".join(...)]), and
      whatever [requests.get] and [r.json()] raise. *)
Variable acquire : result unit.
Variable select_dataset : Z -> result (option dataset_row).
Variable select_missing : list Z -> result (list dataset_row).
Variable round4 : value -> result value.
Variable variantAnnotations : dict -> result (option string * value * value).

(** Lines 94-127. The query comes first, and its failure is a
    [BeaconServerError] (lines 106-107); [dict(extra_record)] raises
    [TypeError] when no row was found; the frequency that is not [None] is
    rounded, which can raise. *)
Definition transform_record (record : hit_row) : result value :=
  connection <- acquire ;;
  extra_record <- server_error (select_dataset (dataset_id record)) ;;
  let response := record_dict record in
  response <- pop_each response
    ["id"; "variant_id"; "variant_composite_id"; "chromosome"; "reference";
     "alternate"; "start"; "end"; "variant_type"] ;;
  match extra_record with
  | None => Raise TypeError
  | Some extra =>
      let dataset_name := ds_stable_id extra in
      let response := dict_set response "datasetId" (VStr dataset_name) in
      response <- rename_key response "internalId" "dataset_id" ;;
      let response := dict_set response "exists" (VBool true) in
      response <- rename_key response "variantCount" "variant_cnt" ;;
      response <- rename_key response "callCount" "call_cnt" ;;
      response <- rename_key response "sampleCount" "sample_cnt" ;;
      response <- zero_if_none response "frequency" "frequency" round4 ;;
      response <- zero_if_none response "numVariants" "num_variants" Ok ;;
      matching <-
        (if is_None (py_get response "matching_sample_cnt") then Ok (VInt 0, response)
         else dict_pop response "matching_sample_cnt") ;;
      let response := dict_set (snd matching) "info"
        (VDict [("accessType", VStr (ds_access_type extra));
                ("matchingSampleCount", fst matching)]) in
      let response := dict_set response "datasetHandover"
        (datasetHandover dataset_name) in
      Ok (VDict response)
  end.

(** Lines 130-148, on a row
    [(id as "datasetId", access_type as "accessType", stable_id as "stableId")]. *)
Definition transform_misses (record : dataset_row) : value :=
  let dataset_name := ds_stable_id record in
  VDict [
    ("datasetId", VStr dataset_name);
    ("internalId", VInt (ds_id record));
    ("exists", VBool false);
    ("variantCount", VInt 0);
    ("callCount", VInt 0);
    ("sampleCount", VInt 0);
    ("frequency", VInt 0);
    ("numVariants", VInt 0);
    ("info", VDict [("accessType", VStr (ds_access_type record));
                    ("matchingSampleCount", VInt 0)]);
    ("datasetHandover", datasetHandover dataset_name) ].

(** [fetch_resulting_datasets(..., misses=True, accessible_missing=...)],
    lines 160-184: without identifiers no query is made; a failure of the
    query is a [BeaconServerError]; the rows are transformed in the order
    of the answer. *)
Definition fetch_missing_datasets (accessible_missing : list Z)
  : result (list value) :=
  connection <- acquire ;;
  if nonempty accessible_missing then
    db_response <- server_error (select_missing accessible_missing) ;;
    Ok (map transform_misses db_response)
  else Ok [].

(** Lines 205-213. *)
Definition variant_details (record : hit_row) : dict :=
  [ ("variantId", variant_id record);
    ("chromosome", chromosome record);
    ("referenceBases", reference record);
    ("alternateBases", alternate record);
    ("variantType", variant_type record);
    ("start", start_pos record);
    ("end", end_pos record) ].

(** Lines 203-217 for one record: a new variant is added last, a known one
    gets the response appended. *)
Fixpoint add_response (variants_dict : list (string * variant_entry))
  (variant_identifier : string) (record : hit_row) (response : value)
  : list (string * variant_entry) :=
  match variants_dict with
  | [] => [(variant_identifier,
            {| variantDetails := variant_details record;
               datasetAlleleResponses := [response] |})]
  | (k, entry) :: rest =>
      if String.eqb variant_identifier k then
        (k, {| variantDetails := variantDetails entry;
               datasetAlleleResponses := datasetAlleleResponses entry ++ [response] |})
        :: rest
      else (k, entry) :: add_response rest variant_identifier record response
  end.

(** The loop of lines 198-217. *)
Fixpoint group_records (all_datasets : list hit_row)
  (variants_dict : list (string * variant_entry))
  : result (list (string * variant_entry)) :=
  match all_datasets with
  | [] => Ok variants_dict
  | record :: rest =>
      let variant_identifier := variant_composite_id record in
      response <- transform_record record ;;
      group_records rest (add_response variants_dict variant_identifier record response)
  end.

(** [[record["internalId"] for record in responses]] *)
Fixpoint internal_ids (responses : list value) : result (list value) :=
  match responses with
  | [] => Ok []
  | record :: rest =>
      i <- subscript record "internalId" ;;
      others <- internal_ids rest ;;
      Ok (i :: others)
  end.

(** [list(map(int, dataset_ids.split(",")))], line 223. The string
    [dataset_ids] is [",".join([str(id) for id in ...])], built by the
    handler (line 316) from a list of identifiers; that list stands here
    for the string. Splitting and [int] give the list back, except for the
    empty list: its string is empty, and [int("")] raises [ValueError]. *)
Definition parse_dataset_ids (dataset_ids : list Z) : result (list Z) :=
  if nonempty dataset_ids then Ok dataset_ids else Raise ValueError.

(** Lines 222-226 for one variant. *)
Definition add_misses (dataset_ids : list Z) (entry : variant_entry)
  : result variant_entry :=
  list_hits <- internal_ids (datasetAlleleResponses entry) ;;
  list_all <- parse_dataset_ids dataset_ids ;;
  let accessible_missing :=
    List.filter (fun x => negb (existsb (int_eq x) list_hits)) list_all in
  miss_datasets <- fetch_missing_datasets accessible_missing ;;
  Ok {| variantDetails := variantDetails entry;
        datasetAlleleResponses := datasetAlleleResponses entry ++ miss_datasets |}.

(** The loop of lines 221-226. *)
Fixpoint add_misses_each (dataset_ids : list Z)
  (variants_dict : list (string * variant_entry))
  : result (list (string * variant_entry)) :=
  match variants_dict with
  | [] => Ok []
  | (variant, entry) :: rest =>
      entry' <- add_misses dataset_ids entry ;;
      rest' <- add_misses_each dataset_ids rest ;;
      Ok ((variant, entry') :: rest')
  end.

(** [if rsID], [rsID] being [None] or a string. *)
Definition rsID_given (rsID : option string) : option string :=
  match rsID with
  | Some s => if String.eqb s "" then None else Some s
  | None => None
  end.

(** Lines 231-243 for one variant. *)
Definition final_variantsFound_element (include_dataset : string)
  (entry : variant_entry) : result value :=
  annotations <- variantAnnotations (variantDetails entry) ;;
  let '(rsID, cellBase_dict, dbSNP_dict) := annotations in
  let details :=
    match rsID_given rsID with
    | Some s => dict_set (variantDetails entry) "variantId" (VStr s)
    | None => variantDetails entry
    end in
  responses <- filter_exists include_dataset (datasetAlleleResponses entry) ;;
  Ok (VDict [
    ("variantDetails", VDict details);
    ("datasetAlleleResponses", responses);
    ("variantAnnotations", VDict [("cellBase", cellBase_dict); ("dbSNP", dbSNP_dict)]);
    ("variantHandover",
       match rsID_given rsID with
       | Some s => snp_resultsHandover s
       | None => VStr ""
       end);
    ("info", VDict []) ]).

(** The loop of lines 229-245. *)
Fixpoint assemble_response (include_dataset : string)
  (variants_dict : list (string * variant_entry)) (response : list value)
  : result (list value) :=
  match variants_dict with
  | [] => Ok response
  | (_, entry) :: rest =>
      element <- final_variantsFound_element include_dataset entry ;;
      assemble_response include_dataset rest (response ++ [element])
  end.

(** Lines 187-247; [all_datasets] is the answer of the first
    [fetch_resulting_datasets], and [dataset_ids] the list of identifiers
    behind [query_parameters[-2]]. *)
Definition get_datasets (all_datasets : list hit_row) (dataset_ids : list Z)
  (include_dataset : string) : result (list value) :=
  variants_dict <- group_records all_datasets [] ;;
  variants_dict <-
    (if String.eqb include_dataset "ALL" || String.eqb include_dataset "MISS"
     then add_misses_each dataset_ids variants_dict
     else Ok variants_dict) ;;
  assemble_response include_dataset variants_dict [].

End Reconciliation.

(** ** The [exists] entry of the response
       ([region_request_handler], line 341) *)

(** [for x in v]: the elements of a list, the keys of a dictionary, the
    characters of a string; anything else is not iterable. *)
Fixpoint characters (s : string) : list value :=
  match s with
  | EmptyString => []
  | String c rest => VStr (String c "") :: characters rest
  end.

Definition iterate (v : value) : result (list value) :=
  match v with
  | VList l => Ok l
  | VDict d => Ok (map (fun kv => VStr (fst kv)) d)
  | VStr s => Ok (characters s)
  | _ => Raise TypeError
  end.

(** [[dataset['exists'] for dataset in datasets]] *)
Fixpoint exists_flags (datasets : list value) : result (list value) :=
  match datasets with
  | [] => Ok []
  | dataset :: rest =>
      e <- subscript dataset "exists" ;;
      es <- exists_flags rest ;;
      Ok (e :: es)
  end.

(** [[dataset['exists'] for variant in variantsFound
      for dataset in variant["datasetAlleleResponses"]]] *)
Fixpoint all_exists_flags (variantsFound : list value) : result (list value) :=
  match variantsFound with
  | [] => Ok []
  | variant :: rest =>
      responses <- subscript variant "datasetAlleleResponses" ;;
      datasets <- iterate responses ;;
      flags <- exists_flags datasets ;;
      others <- all_exists_flags rest ;;
      Ok (flags ++ others)
  end.

(** ['exists': any([...])] *)
Definition beacon_exists (variantsFound : list value) : result bool :=
  flags <- all_exists_flags variantsFound ;;
  Ok (existsb truthy flags).

(** ** Vocabulary of the properties of the reconciliation *)

(** The keys of [variants_dict] after the loop of lines 198-217: the
    variants in the order of their first hit record. *)
Definition variant_order_from (seen : list string) (all_datasets : list hit_row)
  : list string :=
  fold_left
    (fun seen record =>
       if existsb (String.eqb (variant_composite_id record)) seen then seen
       else seen ++ [variant_composite_id record])
    all_datasets seen.

Definition variant_order (all_datasets : list hit_row) : list string :=
  variant_order_from [] all_datasets.

(** The hit records of a variant. *)
Definition hits_of (variant : string) (all_datasets : list hit_row) : list hit_row :=
  List.filter (fun record => String.eqb (variant_composite_id record) variant)
    all_datasets.

(** The identifiers of [dataset_ids] that no hit record of the variant
    carries. *)
Definition missing_ids (dataset_ids : list Z) (hits : list hit_row) : list Z :=
  List.filter (fun x => negb (existsb (Z.eqb x) (map dataset_id hits))) dataset_ids.

(** The per-dataset entries of a variant under each mode, [hits] and
    [misses] being its transformed hit and miss records. *)
Definition mode_select (include_dataset : string) (hits misses : list value)
  : list value :=
  if String.eqb include_dataset "ALL" then hits ++ misses
  else if String.eqb include_dataset "HIT" then hits
  else if String.eqb include_dataset "MISS" then misses
  else [].

Definition known_mode (include_dataset : string) : Prop :=
  include_dataset = "ALL" \/ include_dataset = "NONE" \/
  include_dataset = "HIT" \/ include_dataset = "MISS".


(** The state of [variants_dict] once the records [rows] are grouped: its
    keys are the variants in order, each once; the entry of a variant
    holds the transformed hit records of that variant, in order, and the
    details of one of the records. *)
Definition grouped_by (acquire : result unit)
  (select_dataset : Z -> result (option dataset_row))
  (round4 : value -> result value)
  (rows : list hit_row) (variants_dict : list (string * variant_entry)) : Prop :=
  map fst variants_dict = variant_order rows /\
  List.NoDup (map fst variants_dict) /\
  (forall r, In r rows -> In (variant_composite_id r) (map fst variants_dict)) /\
  Forall (fun kv =>
            Forall2 (fun r response =>
                       transform_record acquire select_dataset round4 r = Ok response)
              (hits_of (fst kv) rows) (datasetAlleleResponses (snd kv)))
    variants_dict /\
  Forall (fun kv => exists r, In r rows /\ variantDetails (snd kv) = variant_details r)
    variants_dict.

(** The collaborators answer for a hit record: the row of its dataset is
    found, its frequency is [None] or is rounded, and the annotation of its
    variant details is answered. *)
Definition answered (select_dataset : Z -> result (option dataset_row))
  (round4 : value -> result value)
  (variantAnnotations : dict -> result (option string * value * value))
  (record : hit_row) : Prop :=
  (exists extra, select_dataset (dataset_id record) = Ok (Some extra)) /\
  (frequency record = VNone \/ exists f, round4 (frequency record) = Ok f) /\
  (exists a, variantAnnotations (variant_details record) = Ok a).

(** The look-up of the missing datasets answers: the query returns. *)
Definition missing_answered (select_missing : list Z -> result (list dataset_row))
  : Prop :=
  forall ids, ids <> [] -> exists answer, select_missing ids = Ok answer.

(** The look-up of the missing datasets answers from a table: it returns
    the rows of the table whose identifier is asked for, each once, in an
    order of its own. *)
Definition answers_from_table (select_missing : list Z -> result (list dataset_row))
  (beacon_dataset : list dataset_row) : Prop :=
  forall ids, ids <> [] ->
    exists answer,
      select_missing ids = Ok answer /\
      Permutation answer
        (List.filter (fun d => existsb (Z.eqb (ds_id d)) ids) beacon_dataset).

(** A per-dataset entry: a mapping whose [exists] is the Boolean [b]. *)
Definition flagged (b : bool) (entry : value) : Prop :=
  exists fields, entry = VDict fields /\ dict_get fields "exists" = Some (VBool b).

(** An element of [variantsFound] with the per-dataset entries
    [responses]: the dictionary of lines 234-243. *)
Definition variant_element (element : value) (responses : list value) : Prop :=
  exists details annotations handover,
    element = VDict [ ("variantDetails", VDict details);
                      ("datasetAlleleResponses", VList responses);
                      ("variantAnnotations", annotations);
                      ("variantHandover", handover);
                      ("info", VDict []) ].

(** ** Example data *)

Definition example_policy : dict :=
  [ ("beacon", VDict [("accessLevelSummary", VStr "PUBLIC");
                      ("id", VStr "PUBLIC");
                      ("datasets", VStr "PUBLIC")]);
    ("beaconDataset", VDict [("accessLevelSummary", VStr "PUBLIC");
                             ("id", VStr "PUBLIC");
                             ("name", VStr "REGISTERED")]) ].

Definition example_translation : list (string * string) :=
  [("datasets", "beaconDataset")].

Definition example_table : list dataset_row :=
  [ {| ds_id := 1; ds_stable_id := "EGAD00001000740"; ds_access_type := "PUBLIC" |};
    {| ds_id := 2; ds_stable_id := "EGAD00001000741"; ds_access_type := "PUBLIC" |} ].

Definition example_row : hit_row :=
  {| row_id := VInt 7; variant_id := VStr "rs1"; variant_composite_id := "1|100|A|T";
     chromosome := VStr "1"; reference := VStr "A"; alternate := VStr "T";
     start_pos := VInt 100; end_pos := VInt 101; variant_type := VStr "SNP";
     dataset_id := 1; variant_cnt := VInt 3; call_cnt := VInt 10;
     sample_cnt := VInt 5; frequency := VNone; num_variants := VInt 4;
     matching_sample_cnt := VNone |}.

(** A hit record of a dataset that [example_table] does not have. *)
Definition example_row_unknown_dataset : hit_row :=
  {| row_id := VInt 8; variant_id := VStr "rs1"; variant_composite_id := "1|100|A|T";
     chromosome := VStr "1"; reference := VStr "A"; alternate := VStr "T";
     start_pos := VInt 100; end_pos := VInt 101; variant_type := VStr "SNP";
     dataset_id := 7; variant_cnt := VInt 3; call_cnt := VInt 10;
     sample_cnt := VInt 5; frequency := VNone; num_variants := VInt 4;
     matching_sample_cnt := VNone |}.

(** Collaborators for the examples: connections that are acquired; a
    database that holds [example_table] and answers in the order of the
    table; a conversion that is given at zero only, where nothing is to be
    rounded (the example rows have no frequency, and the examples round
    nothing: at the other numbers this instance is not the conversion of
    Python); and annotation services that answer empty documents: the
    [rsID] is then the [variantId] of the details, unless it is ["."]. *)
Definition example_acquire : result unit := Ok tt.

Definition example_select_dataset (id : Z) : result (option dataset_row) :=
  Ok (List.find (fun d => (ds_id d =? id)%Z) example_table).

Definition example_select_missing (ids : list Z) : result (list dataset_row) :=
  Ok (List.filter (fun d => existsb (Z.eqb (ds_id d)) ids) example_table).

Definition example_round4 (x : value) : result value :=
  match x with
  | VInt 0 => Ok (VFloat (S754_zero false))
  | VFloat (S754_zero sign) => Ok (VFloat (S754_zero sign))
  | _ => Raise TypeError
  end.

Definition example_annotations (details : dict)
  : result (option string * value * value) :=
  match py_get details "start", py_get details "referenceBases" with
  | VInt _, VStr _ =>
      match py_get details "variantId" with
      | VStr s =>
          if String.eqb s "." then Ok (None, VDict [], VStr "")
          else if String.eqb s "" then Ok (Some "", VDict [], VStr "")
          else Ok (Some s, VDict [], VDict [])
      | VNone => Ok (None, VDict [], VStr "")
      | _ => Raise TypeError
      end
  | _, _ => Raise TypeError
  end.

(* ===================================================================== *)
(** * Part I, continued: further functions of the same files              *)
(* ===================================================================== *)

(** ** Strings *)
(** [c in s] for a character. *)
Fixpoint char_in (c : Ascii.ascii) (s : string) : bool :=
  match s with
  | EmptyString => false
  | String c' rest => Ascii.eqb c c' || char_in c rest
  end.

(** [s[n:]] *)
Fixpoint skip_chars (n : nat) (s : string) : string :=
  match n, s with
  | O, _ => s
  | S m, EmptyString => EmptyString
  | S m, String _ rest => skip_chars m rest
  end.

(** ['.'.join(reversed(host.split('.')))]: the [id] of [Beacon_v1] and
    [GA4GH_ServiceInfo_v01] (utils/models.py) and the [beaconId] of the
    handlers (genomic_region.py, line 339). [String.concat sep l] is
    [sep.join(l)]. *)
Definition beacon_id (host : string) : string :=
  String.concat "." (rev (str_split host ".")).

(** [create_prepstmt_variables] (polyvalent_functions.py, lines 22-31).
    [pretty] is [str] on integers: the decimal digits, after a minus sign
    for a negative number. *)
Definition create_prepstmt_variables (value : nat) : string :=
  String.concat ", "
    (map (fun element => String.append "$" (pretty (element + 1))) (seq 0 value)).

(** [",".join([str(id) for id in public_datasets])] (genomic_region.py,
    line 316): the string that [get_datasets] reads as [dataset_ids]. *)
Definition dataset_ids_string (ids : list Z) : string :=
  String.concat "," (map pretty ids).

(** ** Vocabulary of the further properties of [filter_response] *)

(** [sub] is [l] with some elements left out and each of the others
    replaced by a related one, in the same order. *)
Inductive sublist_rel {A : Type} (R : A -> A -> Prop) : list A -> list A -> Prop :=
| sublist_nil : sublist_rel R [] []
| sublist_drop (x : A) (sub l : list A) :
    sublist_rel R sub l -> sublist_rel R sub (x :: l)
| sublist_keep (y x : A) (sub l : list A) :
    R y x -> sublist_rel R sub l -> sublist_rel R (y :: sub) (x :: l).

(** [pruned out r]: [out] is [r] with fields and list elements left out, at
    any depth; what is left has its key, its place and its value. *)
Unset Elimination Schemes.
Inductive pruned : value -> value -> Prop :=
| pruned_same (v : value) : pruned v v
| pruned_dict (d' d : dict) :
    sublist_rel (fun kv' kv => fst kv' = fst kv /\ pruned (snd kv') (snd kv)) d' d ->
    pruned (VDict d') (VDict d)
| pruned_list (l' l : list value) :
    sublist_rel pruned l' l -> pruned (VList l') (VList l).
Set Elimination Schemes.

(** [isinstance(v, dict)] *)
Definition is_dict (v : value) : bool :=
  match v with
  | VDict _ => true
  | _ => false
  end.

(** ** [fetch_datasets_access] (polyvalent_functions.py, lines 215-240) *)

(** The loop of lines 231-237 over the rows
    [(access_type, id, stable_id)] that the query answers. *)
Fixpoint classify_datasets (db_response : list dataset_row)
  (public registered controlled : list Z) : list Z * list Z * list Z :=
  match db_response with
  | [] => (public, registered, controlled)
  | record :: rest =>
      let public :=
        if String.eqb (ds_access_type record) "PUBLIC"
        then public ++ [ds_id record] else public in
      let registered :=
        if String.eqb (ds_access_type record) "REGISTERED"
        then registered ++ [ds_id record] else registered in
      let controlled :=
        if String.eqb (ds_access_type record) "CONTROLLED"
        then controlled ++ [ds_id record] else controlled in
      classify_datasets rest public registered controlled
  end.

Definition fetch_datasets_access (db_response : list dataset_row)
  : list Z * list Z * list Z :=
  classify_datasets db_response [] [] [].

(** The identifiers of the rows of one access type, in the order of the
    rows. *)
Definition ids_of_type (access_type : string) (rows : list dataset_row) : list Z :=
  map ds_id (List.filter (fun record => String.eqb (ds_access_type record) access_type) rows).

(** ** Vocabulary of the further properties of [filter_exists] *)

(** [d.get('exists')] of a per-dataset entry; [None] for what is not a
    mapping. *)
Definition exists_flag (d : value) : value :=
  match d with
  | VDict fields => py_get fields "exists"
  | _ => VNone
  end.

(** A mapping with the key [exists]. *)
Definition has_exists (d : value) : bool :=
  match d with
  | VDict fields => dict_has fields "exists"
  | _ => false
  end.

(** ** Vocabulary of the further properties of [parse_filters_request] *)

(** A text without a colon and without a character of an operator. *)
Definition plain_text (s : string) : bool :=
  negb (char_in ":" s) && negb (char_in "<" s) && negb (char_in ">" s)
  && negb (char_in "=" s).

(** ** [transform_record] of cnv.py (lines 94-147) *)

(** A record of the CNV query: the column [dataset_id], the integer from
    which the query of line 101 is built, and the other columns. *)
Record cnv_row : Type := {
  cnv_dataset_id : Z;
  cnv_columns : dict
}.

(** [dict(record)] *)
Definition cnv_record_dict (record : cnv_row) : dict :=
  dict_set (cnv_columns record) "dataset_id" (VInt (cnv_dataset_id record)).

(** [default if response.get(old) is None else f(response.pop(old))]: the
    value, and what is left of [response]; [f] can raise. *)
Definition pop_unless_none (response : dict) (old : string) (default : value)
  (f : value -> result value) : result (value * dict) :=
  if is_None (py_get response old) then Ok (default, response)
  else popped <- dict_pop response old ;;
       converted <- f (fst popped) ;;
       Ok (converted, snd popped).

Section CnvRecord.

(** The collaborators, as in genomic_region.py: the connection, the query
    [SELECT stable_id, access_type FROM beacon_dataset WHERE id=...] with
    its [fetchrow()], and [float(round(x, 4))]. *)
Variable acquire : result unit.
Variable select_dataset : Z -> result (option dataset_row).
Variable round4 : value -> result value.

(** Lines 94-147. The query comes first, and its failure is a
    [BeaconServerError] (lines 106-107); [dict(extra_record)] raises
    [TypeError] when no row was found; the answer is a new dictionary
    [final_response]. *)
Definition cnv_transform_record (record : cnv_row) : result value :=
  connection <- acquire ;;
  extra_record <- server_error (select_dataset (cnv_dataset_id record)) ;;
  let response := cnv_record_dict record in
  match extra_record with
  | None => Raise TypeError
  | Some extra =>
      let dataset_name := ds_stable_id extra in
      internal <- dict_pop response "dataset_id" ;;
      variantCount <- pop_unless_none (snd internal) "variant_cnt" (VStr "") Ok ;;
      callCount <- pop_unless_none (snd variantCount) "call_cnt" (VStr "") Ok ;;
      sampleCount <- pop_unless_none (snd callCount) "sample_cnt" (VStr "") Ok ;;
      frequency <- pop_unless_none (snd sampleCount) "frequency" (VInt 0) round4 ;;
      numVariants <- pop_unless_none (snd frequency) "num_variants" (VInt 0) Ok ;;
      matching <- pop_unless_none (snd numVariants) "matching_sample_cnt" (VInt 0) Ok ;;
      let response := snd matching in
      Ok (VDict [
        ("datasetId", VStr dataset_name);
        ("internalId", fst internal);
        ("exists", VBool true);
        ("variantCount", fst variantCount);
        ("callCount", fst callCount);
        ("sampleCount", fst sampleCount);
        ("frequency", fst frequency);
        ("numVariants", fst numVariants);
        ("info", VDict [
           ("accessType", VStr (ds_access_type extra));
           ("matchingSampleCount", fst matching);
           ("cnvInfo", VDict [
              ("svLength", py_get response "sv_length");
              ("genotype", py_get response "genotype");
              ("copyNumberLevel", py_get response "copyNumberLevel");
              ("readDepth", py_get response "read_depth");
              ("genotypeLikelihood", py_get response "genotype_likelihood");
              ("extraInfo", py_get response "extra_info")]);
           ("sampleInfo", VDict [
              ("sampleID", py_get response "sample_id");
              ("tissue", py_get response "tissue");
              ("sex", py_get response "sex");
              ("age", py_get response "age");
              ("disease", py_get response "disease");
              ("sampleDescription", py_get response "sample_description")])]);
        ("datasetHandover", datasetHandover dataset_name)])
  end.

End CnvRecord.

(** The value of [default if d.get(k) is None else d.pop(k)] on the record
    itself. *)
Definition column_or (record : dict) (k : string) (default : value) : value :=
  if is_None (py_get record k) then default else py_get record k.

(** [v] is the value of [default if d.get(k) is None else f(d.pop(k))] on
    the record itself, [f] answering. *)
Definition column_converted (record : dict) (k : string) (default : value)
  (f : value -> result value) (v : value) : Prop :=
  if is_None (py_get record k) then v = default else f (py_get record k) = Ok v.

(** A record of the CNV query for the examples: a copy number variant in
    dataset 1, without counts and without frequency. *)
Definition example_cnv_row : cnv_row :=
  {| cnv_dataset_id := 1;
     cnv_columns := [("data_id", VInt 3); ("chromosome", VStr "1");
                     ("variant_cnt", VNone); ("call_cnt", VInt 10);
                     ("frequency", VNone); ("genotype", VStr "0/1")] |}.

(** ** [prepare_filter_parameter] (polyvalent_functions.py, lines 114-161) *)

(** [":".join([filter_elements[0], filter_elements[1]])] *)
Definition filter_combination (filter_elements : list string) : result string :=
  ontology <- index filter_elements 0 ;;
  term <- index filter_elements 1 ;;
  Ok (String.concat ":" [ontology; term]).

(** Lines 124-125. *)
Definition combinations_list (list_filters : list (list string)) : result string :=
  combinations <- traverse filter_combination list_filters ;;
  Ok (String.append "'" (String.append (String.concat "','" combinations) "'")).

(** Lines 122-125, from the list of tokens that [ast.literal_eval] reads
    in [filters_request]: the text between the brackets of
    [WHERE concat_ws(':', ontology, term) IN (...)]. *)
Definition filter_combinations (filters_request_list : list string) : result string :=
  list_filters <- parse_filters_request filters_request_list ;;
  combinations_list list_filters.

(** Lines 139-146 for one record [(column_name, column_value)]: a new
    column goes last with its first value, a known one gets the value
    appended. *)
Fixpoint add_column_value (column_name_dict : list (string * list string))
  (column_name column_value : string) : list (string * list string) :=
  match column_name_dict with
  | [] => [(column_name, [column_value])]
  | (k, values) :: rest =>
      if String.eqb column_name k then (k, values ++ [column_value]) :: rest
      else (k, values) :: add_column_value rest column_name column_value
  end.

(** The loop of lines 138-146. *)
Definition group_columns (db_response : list (string * string))
  : list (string * list string) :=
  fold_left (fun d record => add_column_value d (fst record) (snd record)) db_response [].

(** Lines 152-153. *)
Definition column_clause (column : string * list string) : string :=
  String.append "("
    (String.append (fst column)
       (String.append ")::jsonb ?& array["
          (String.append
             (String.concat ", "
                (map (fun value => String.append "'" (String.append value "'"))
                   (snd column)))
             "]"))).

(** Lines 149-158: the string passed to the SQL function. *)
Definition filter_string (db_response : list (string * string)) : string :=
  String.concat " AND " (map column_clause (group_columns db_response)).

(** ** The answer of the handlers
       ([region_request_handler], genomic_region.py lines 361-366;
        [cnv_request_handler], cnv.py lines 427-433) *)

(** [beacon_response] is wrapped under the key
    ["beconGenomicRegionRequest"], filtered with the tier ["PUBLIC"], and
    unwrapped; [ACCESS_LEVELS_DICT] and [region2access] are imported by the
    handlers, and each handler has its own list [accessible_datasets]. *)
Definition handler_response (ACCESS_LEVELS_DICT : dict)
  (region2access : list (string * string)) (accessible_datasets : list string)
  (beacon_response : dict) : result value :=
  let beacon_response := VDict [("beconGenomicRegionRequest", VDict beacon_response)] in
  let user_levels := ["PUBLIC"] in
  filtered_response <-
    filter_response ACCESS_LEVELS_DICT accessible_datasets user_levels region2access
      beacon_response None ;;
  subscript filtered_response "beconGenomicRegionRequest".


(* ===================================================================== *)
(** * Part II: properties                                                 *)
(* ===================================================================== *)

(** ** Induction on values *)

Lemma value_ind (P : value -> Prop)
  (HNone : P VNone)
  (HBool : forall b, P (VBool b))
  (HInt : forall z, P (VInt z))
  (HFloat : forall f, P (VFloat f))
  (HStr : forall s, P (VStr s))
  (HList : forall l, Forall P l -> P (VList l))
  (HDict : forall d, Forall (fun kv => P (snd kv)) d -> P (VDict d)) :
  forall v, P v.
Proof.
  fix self 1.
  intros [ | b | z | f | s | l | d ].
  - exact HNone.
  - apply HBool.
  - apply HInt.
  - apply HFloat.
  - apply HStr.
  - apply HList. induction l as [ | x l IHl ]; constructor; [ apply self | exact IHl ].
  - apply HDict. induction d as [ | [k x] d IHd ]; constructor; [ apply self | exact IHd ].
Qed.

(** ** The monad *)

Lemma bind_Ok {A B : Type} (m : result A) (k : A -> result B) (b : B) :
  bind m k = Ok b -> exists a, m = Ok a /\ k a = Ok b.
Proof. destruct m as [ a | e ]; simpl; [ eauto | discriminate ]. Qed.

Lemma bind_Raise {A B : Type} (m : result A) (k : A -> result B) (e : exn) :
  bind m k = Raise e -> m = Raise e \/ exists a, m = Ok a /\ k a = Raise e.
Proof. destruct m as [ a | e' ]; simpl; [ eauto | intros [= ->]; auto ]. Qed.

(** Splits a hypothesis [x <- m ;; k = Ok b] into its steps. *)
Ltac bind_inv H :=
  let a := fresh "a" in
  let Ha := fresh "Hstep" in
  apply bind_Ok in H; destruct H as (a & Ha & H).

(** ** Dictionaries *)

Lemma dict_has_get (d : dict) (k : string) :
  dict_has d k = true <-> dict_get d k <> None.
Proof.
  induction d as [ | [k' v] d IH ]; simpl.
  - split; [ discriminate | congruence ].
  - destruct (String.eqb k k'); simpl; [ split; [ discriminate | reflexivity ] | exact IH ].
Qed.

Lemma dict_has_false_get (d : dict) (k : string) :
  dict_has d k = false <-> dict_get d k = None.
Proof.
  pose proof (dict_has_get d k) as H.
  destruct (dict_has d k), (dict_get d k); split; try congruence; intros _.
  - exfalso. apply (proj1 H); reflexivity.
  - exfalso. assert (false = true) by (apply H; discriminate). discriminate.
Qed.

Lemma dict_has_keys (d : dict) (k : string) :
  dict_has d k = existsb (String.eqb k) (map fst d).
Proof. unfold dict_has. induction d as [ | [k' v] d IH ]; simpl; congruence. Qed.

Lemma existsb_eqb_In (k : string) (ks : list string) :
  existsb (String.eqb k) ks = true <-> In k ks.
Proof.
  rewrite existsb_exists. split.
  - intros (x & Hx & Heq). apply String.eqb_eq in Heq. subst; assumption.
  - intros Hin. exists k. split; [ assumption | apply String.eqb_refl ].
Qed.

Lemma unique_keys_NoDup (ks : list string) :
  unique_keys ks = true <-> List.NoDup ks.
Proof.
  induction ks as [ | k ks IH ]; simpl.
  - split; [ constructor | reflexivity ].
  - rewrite andb_true_iff, negb_true_iff, IH. split.
    + intros [Hk Hks]. constructor; [ | assumption ].
      intros Hin. apply existsb_eqb_In in Hin. congruence.
    + intros Hnd. inversion Hnd as [ | ? ? Hk Hks ]; subst. split; [ | assumption ].
      destruct (existsb (String.eqb k) ks) eqn:E; [ | reflexivity ].
      apply existsb_eqb_In in E. contradiction.
Qed.

Lemma dict_get_In (d : dict) (k : string) (v : value) :
  dict_get d k = Some v -> In (k, v) d.
Proof.
  induction d as [ | [k' v'] d IH ]; simpl; [ discriminate | ].
  destruct (String.eqb k k') eqn:E.
  - apply String.eqb_eq in E. intros [= ->]. subst. auto.
  - auto.
Qed.

Lemma In_dict_get (d : dict) (k : string) (v : value) :
  unique_keys (map fst d) = true -> In (k, v) d -> dict_get d k = Some v.
Proof.
  induction d as [ | [k' v'] d IH ]; simpl; [ contradiction | ].
  rewrite andb_true_iff, negb_true_iff. intros [Hk Hu] [Heq | Hin].
  - injection Heq as -> ->. rewrite String.eqb_refl. reflexivity.
  - destruct (String.eqb k k') eqn:E; [ | auto ].
    apply String.eqb_eq in E. subst k'.
    assert (existsb (String.eqb k) (map fst d) = true) as Hc; [ | congruence ].
    apply existsb_eqb_In. apply (in_map fst) in Hin. exact Hin.
Qed.

Lemma dict_set_fresh (d : dict) (k : string) (v : value) :
  dict_has d k = false -> dict_set d k v = d ++ [(k, v)].
Proof.
  unfold dict_has. induction d as [ | [k' v'] d IH ]; simpl; [ reflexivity | ].
  destruct (String.eqb k k'); simpl; [ discriminate | ].
  intros H. rewrite (IH H). reflexivity.
Qed.

(** On a list of pairs with unique keys, storing the pairs one by one
    appends them. *)
Lemma set_all_unique (acc kept : dict) :
  unique_keys (map fst (acc ++ kept)) = true -> set_all acc kept = acc ++ kept.
Proof.
  unfold set_all. revert acc.
  induction kept as [ | [k v] kept IH ]; intros acc Hu; simpl.
  - rewrite app_nil_r. reflexivity.
  - assert (dict_has acc k = false) as Hfresh.
    { rewrite dict_has_keys. destruct (existsb (String.eqb k) (map fst acc)) eqn:E; [ | reflexivity ].
      apply existsb_eqb_In in E. apply unique_keys_NoDup in Hu.
      rewrite map_app in Hu. simpl in Hu.
      apply List.NoDup_remove_2 in Hu. exfalso. apply Hu. apply in_or_app. auto. }
    rewrite (dict_set_fresh _ _ _ Hfresh).
    rewrite IH; rewrite <- app_assoc; simpl; [ reflexivity | exact Hu ].
Qed.

(** ** [filter_response]: the loops and their summaries *)

Section ResponseFilterProperties.

Variable access_levels_dict : dict.
Variable accessible_datasets : list string.
Variable user_levels : list string.
Variable field2access : list (string * string).

Local Abbreviation filter :=
  (filter_response access_levels_dict accessible_datasets user_levels field2access).
Local Abbreviation action_of := (field_action access_levels_dict user_levels field2access).
Local Abbreviation kept_of := (fields_kept access_levels_dict user_levels field2access).
Local Abbreviation shown := (element_shown accessible_datasets).
Local Abbreviation tr := (translate field2access).

Lemma filter_fields_summary (rec : value -> option string -> result value)
  (pk : option string) (items acc : dict) :
  filter_fields access_levels_dict user_levels field2access rec pk items acc
  = (kept <- kept_of rec pk items ;; Ok (VDict (set_all acc kept))).
Proof.
  revert acc. induction items as [ | [k v] items IH ]; intros acc; simpl; [ reflexivity | ].
  unfold field_result.
  destruct (action_of pk k v) as [ [ | tk | ] | e ]; simpl; try reflexivity.
  - rewrite IH. destruct (kept_of rec pk items); reflexivity.
  - destruct (rec v (Some tk)); simpl; [ | reflexivity ].
    rewrite IH. destruct (kept_of rec pk items); reflexivity.
  - rewrite IH. destruct (kept_of rec pk items); reflexivity.
Qed.

Lemma filter_elements_summary (rec : value -> option string -> result value)
  (pk : option string) (elements acc : list value) :
  filter_elements accessible_datasets rec pk elements acc
  = (subs <- traverse (fun e => rec e pk) (List.filter shown elements) ;;
     Ok (VList (acc ++ subs))).
Proof.
  revert acc. induction elements as [ | e elements IH ]; intros acc; simpl.
  - rewrite app_nil_r. reflexivity.
  - destruct e as [ | | | | | l | d ]; simpl; try apply IH.
    destruct (dataset_shown accessible_datasets d); simpl; [ | apply IH ].
    destruct (rec (VDict d) pk); simpl; [ | reflexivity ].
    rewrite IH. destruct (traverse _ _); simpl; [ | reflexivity ].
    rewrite <- app_assoc. reflexivity.
Qed.

Lemma filter_dict (pk : option string) (d : dict) :
  filter (VDict d) pk = (kept <- kept_of filter pk d ;; Ok (VDict (set_all [] kept))).
Proof. simpl. apply filter_fields_summary. Qed.

Lemma filter_list (pk : option string) (l : list value) :
  filter (VList l) pk
  = (subs <- traverse (fun e => filter e pk) (List.filter shown l) ;; Ok (VList subs)).
Proof. simpl. apply filter_elements_summary. Qed.

(** The kept fields are fields of the response, in its order. *)
Lemma kept_keys (rec : value -> option string -> result value)
  (pk : option string) (d kept : dict) :
  kept_of rec pk d = Ok kept ->
  (forall k, In k (map fst kept) -> In k (map fst d)) /\
  (unique_keys (map fst d) = true -> unique_keys (map fst kept) = true).
Proof.
  revert kept. induction d as [ | [k v] d IH ]; intros kept H; simpl in H.
  - injection H as <-. split; auto.
  - bind_inv H. bind_inv H. injection H as <-.
    destruct (IH _ Hstep0) as [Hin Hu]. clear IH.
    assert (forall kv, a = Some kv -> fst kv = k) as Hkey.
    { intros kv ->. unfold field_result in Hstep. bind_inv Hstep.
      destruct a as [ | tk | ]; [ | bind_inv Hstep | discriminate ];
        injection Hstep as <-; reflexivity. }
    destruct a as [ [k' v'] | ]; simpl.
    + specialize (Hkey _ eq_refl). simpl in Hkey. subst k'. split.
      * intros k' [ <- | Hk' ]; auto.
      * rewrite !andb_true_iff, !negb_true_iff. intros [Hk Hd]. split; [ | auto ].
        destruct (existsb (String.eqb k) (map fst a0)) eqn:E; [ | reflexivity ].
        apply existsb_eqb_In, Hin, existsb_eqb_In in E. congruence.
    + split; [ auto | ].
      rewrite andb_true_iff. intros [_ Hd]. auto.
Qed.

(** On a dictionary with unique keys, [filter_response] answers the kept
    fields themselves. *)
Lemma filter_dict_unique (pk : option string) (d : dict) (out : value) :
  unique_keys (map fst d) = true ->
  filter (VDict d) pk = Ok out ->
  exists kept, kept_of filter pk d = Ok kept /\ out = VDict kept /\
               unique_keys (map fst kept) = true.
Proof.
  intros Hu H. rewrite filter_dict in H. bind_inv H. injection H as <-.
  destruct (kept_keys _ _ _ _ Hstep) as [_ Hk]. specialize (Hk Hu).
  exists a. rewrite set_all_unique; auto.
Qed.

Lemma field_action_container (pk : option string) (k : string) (v v' : value) :
  is_container v = is_container v' -> action_of pk k v = action_of pk k v'.
Proof. intros H. unfold field_action. rewrite H. reflexivity. Qed.

Lemma field_action_Descend (pk : option string) (k : string) (v : value) (tk : string) :
  action_of pk k v = Ok (Descend tk) ->
  is_container v = true /\ tk = tr k /\ dict_has access_levels_dict (tr k) = true.
Proof.
  unfold field_action. intros H.
  bind_inv H. bind_inv H. destruct a0; [ discriminate | ].
  destruct (is_container v && dict_has access_levels_dict (tr k)) eqn:E.
  - apply andb_true_iff in E. destruct E as [Hc Hh].
    bind_inv H. bind_inv H. bind_inv H.
    destruct (_ && _) in H; [ | discriminate ]. injection H as <-. auto.
  - bind_inv H. destruct (str_in _ _) in H; discriminate.
Qed.

(** A field outside the policy is passed, whatever its value. *)
Lemma unmodelled_Pass (pk : option string) (k : string) (v : value) :
  unmodelled access_levels_dict field2access pk k = true -> action_of pk k v = Ok Pass.
Proof.
  unfold unmodelled, field_action. rewrite andb_true_iff, negb_true_iff.
  intros [Htop Hscope]. rewrite Htop.
  destruct (parent_scope pk) as [p | ]; simpl.
  - destruct (dict_get access_levels_dict p) as [ [ | | | | | | scope ] | ];
      try discriminate; simpl.
    rewrite <- dict_has_keys. rewrite Hscope. reflexivity.
  - rewrite <- dict_has_keys, Htop. reflexivity.
Qed.

Lemma subscript_Raise (v : value) (k : string) (e : exn) :
  subscript v k = Raise e -> lookup_error e.
Proof.
  unfold subscript, lookup_error.
  destruct v; try (intros [= <-]; auto).
  destruct (dict_get d k); [ discriminate | intros [= <-]; auto ].
Qed.

Lemma keys_Raise (v : value) (e : exn) : keys v = Raise e -> lookup_error e.
Proof. unfold keys, lookup_error. destruct v; try discriminate; intros [= <-]; auto. Qed.

Ltac raise_inv H :=
  first
    [ discriminate H
    | exact (subscript_Raise _ _ _ H)
    | exact (keys_Raise _ _ H)
    | match type of H with
      | bind ?m _ = Raise _ =>
          apply bind_Raise in H; destruct H as [H | (? & _ & H)]; raise_inv H
      | match ?x with _ => _ end = Raise _ => destruct x; raise_inv H
      end ].

Lemma field_action_Raise (pk : option string) (k : string) (v : value) (e : exn) :
  action_of pk k v = Raise e -> lookup_error e.
Proof. unfold field_action. intros H. raise_inv H. Qed.

Lemma dict_get_absent (d : dict) (k : string) :
  ~ In k (map fst d) -> dict_get d k = None.
Proof.
  intros H. apply dict_has_false_get. rewrite dict_has_keys.
  destruct (existsb (String.eqb k) (map fst d)) eqn:E; [ | reflexivity ].
  apply existsb_eqb_In in E. contradiction.
Qed.

(** What becomes of one field of a dictionary with unique keys. *)
Lemma kept_field (pk : option string) (d kept : dict) (k : string) (v : value) :
  unique_keys (map fst d) = true ->
  kept_of filter pk d = Ok kept ->
  In (k, v) d ->
  exists act, action_of pk k v = Ok act /\
    match act with
    | Pass => dict_get kept k = Some v
    | Descend tk => exists sub, filter v (Some tk) = Ok sub /\ dict_get kept k = Some sub
    | Omit => dict_get kept k = None
    end.
Proof.
  revert kept. induction d as [ | [k0 v0] d IH ]; intros kept Hu H Hin; [ contradiction | ].
  simpl in Hu. apply andb_true_iff in Hu. destruct Hu as [Hk0 Hu].
  apply negb_true_iff in Hk0.
  simpl in H. bind_inv H. bind_inv H. injection H as <-.
  destruct (kept_keys _ _ _ _ Hstep0) as [Hsub _].
  assert (dict_get a0 k0 = None) as Hfresh.
  { apply dict_get_absent. intros Hc. apply Hsub, existsb_eqb_In in Hc. congruence. }
  unfold field_result in Hstep. bind_inv Hstep.
  destruct Hin as [Heq | Hin].
  - injection Heq as -> ->. exists a1. split; [ assumption | ].
    destruct a1 as [ | tk | ].
    + injection Hstep as <-. simpl. rewrite String.eqb_refl. reflexivity.
    + bind_inv Hstep. injection Hstep as <-. exists a1. split; [ assumption | ].
      simpl. rewrite String.eqb_refl. reflexivity.
    + injection Hstep as <-. assumption.
  - destruct (IH _ Hu Hstep0 Hin) as (act & Hact & Hres). exists act. split; [ assumption | ].
    assert (String.eqb k k0 = false) as Hne.
    { apply String.eqb_neq. intros ->.
      apply (in_map fst), existsb_eqb_In in Hin. simpl in Hin. congruence. }
    assert (dict_get match a with Some kv => kv :: a0 | None => a0 end k = dict_get a0 k) as ->;
      [ | exact Hres ].
    destruct a1 as [ | tk | ].
    + injection Hstep as <-. simpl. rewrite Hne. reflexivity.
    + bind_inv Hstep. injection Hstep as <-. simpl. rewrite Hne. reflexivity.
    + injection Hstep as <-. reflexivity.
Qed.

(** A container stays a container of the same kind. *)
Lemma filter_dict_shape (pk : option string) (d : dict) (out : value) :
  filter (VDict d) pk = Ok out -> exists d', out = VDict d'.
Proof. rewrite filter_dict. intros H. bind_inv H. injection H as <-. eauto. Qed.

Lemma filter_list_shape (pk : option string) (l : list value) (out : value) :
  filter (VList l) pk = Ok out -> exists l', out = VList l'.
Proof. rewrite filter_list. intros H. bind_inv H. injection H as <-. eauto. Qed.

Lemma filter_container (pk : option string) (v out : value) :
  is_container v = true -> filter v pk = Ok out -> is_container out = true.
Proof.
  destruct v; try discriminate; intros _ H.
  - apply filter_list_shape in H. destruct H as [? ->]. reflexivity.
  - apply filter_dict_shape in H. destruct H as [? ->]. reflexivity.
Qed.

(** The tier a subtree asks for itself (line 269), and the tier its parent
    scope declares for the field (line 271), if there is a parent. *)
Lemma field_action_subtree (pk : option string) (k : string) (v : value) (act : action) :
  is_container v = true ->
  dict_has access_levels_dict (tr k) = true ->
  action_of pk k v = Ok act ->
  exists own parent,
    summary_tier access_levels_dict field2access k = Ok own /\
    parent_tier access_levels_dict pk k = Ok parent /\
    act = if str_in own user_levels &&
             match parent with Some t => str_in t user_levels | None => true end
          then Descend (tr k) else Omit.
Proof.
  intros Hc Hh. unfold field_action, summary_tier, parent_tier.
  rewrite Hc, Hh. simpl. intros H.
  bind_inv H. simpl in H. bind_inv H. bind_inv H. bind_inv H.
  rewrite Hstep0. simpl. rewrite Hstep1. exists a1.
  destruct (parent_scope pk) as [p | ].
  - bind_inv Hstep2. bind_inv Hstep2. injection Hstep2 as <-.
    rewrite Hstep3. simpl. rewrite Hstep4. simpl. exists (Some a4).
    repeat split. destruct (_ && _); congruence.
  - injection Hstep2 as <-. exists None. repeat split. destruct (_ && _); congruence.
Qed.

(** ** The fail-open branch *)

(** C1. A field of a mapping node whose translated key is a key neither of
    the policy nor of the scope of the current parent is passed: line 264
    is reached whatever the value, the granted tiers, the accessible
    datasets and the translation table are, and every filtered output of
    the node holds the field with its value unchanged. *)
Theorem fail_open_invariant (pk : option string) (d : dict) (k : string) (v : value) :
  unique_keys (map fst d) = true ->
  In (k, v) d ->
  unmodelled access_levels_dict field2access pk k = true ->
  action_of pk k v = Ok Pass /\
  forall out, filter (VDict d) pk = Ok out ->
    exists kept, out = VDict kept /\ dict_get kept k = Some v.
Proof.
  intros Hu Hin Hun. pose proof (unmodelled_Pass pk k v Hun) as Hpass.
  split; [ exact Hpass | ]. intros out H.
  destruct (filter_dict_unique _ _ _ Hu H) as (kept & Hkept & -> & _).
  exists kept. split; [ reflexivity | ].
  destruct (kept_field _ _ _ _ _ Hu Hkept Hin) as (act & Hact & Hres).
  rewrite Hpass in Hact. injection Hact as <-. exact Hres.
Qed.

(** ** Subtrees *)

(** C3. A mapping- or list-valued field whose translated key names a scope
    of the policy is in the filtered output exactly when the
    [accessLevelSummary] of that scope is a granted tier and, under a
    parent scope, the tier the parent declares for the field is granted
    too; it is then the filtered subtree, and is left out otherwise. *)
Theorem subtree_gating (pk : option string) (d : dict) (k : string) (v out : value) :
  unique_keys (map fst d) = true ->
  In (k, v) d ->
  is_container v = true ->
  dict_has access_levels_dict (tr k) = true ->
  filter (VDict d) pk = Ok out ->
  exists kept own parent,
    out = VDict kept /\
    summary_tier access_levels_dict field2access k = Ok own /\
    parent_tier access_levels_dict pk k = Ok parent /\
    (dict_has kept k = true <->
       str_in own user_levels = true /\
       match parent with Some t => str_in t user_levels = true | None => True end) /\
    (dict_has kept k = true ->
       exists sub, filter v (Some (tr k)) = Ok sub /\ dict_get kept k = Some sub).
Proof.
  intros Hu Hin Hc Hh H.
  destruct (filter_dict_unique _ _ _ Hu H) as (kept & Hkept & -> & _).
  destruct (kept_field _ _ _ _ _ Hu Hkept Hin) as (act & Hact & Hres).
  destruct (field_action_subtree _ _ _ _ Hc Hh Hact) as (own & parent & Hown & Hparent & ->).
  exists kept, own, parent.
  split; [ reflexivity | ]. split; [ exact Hown | ]. split; [ exact Hparent | ].
  assert (dict_has kept k = true <->
          str_in own user_levels &&
          match parent with Some t => str_in t user_levels | None => true end = true) as Hiff.
  { destruct (_ && _).
    - destruct Hres as (sub & _ & Hget). split; [ reflexivity | intros _ ].
      apply dict_has_get. congruence.
    - apply dict_has_false_get in Hres. rewrite Hres. split; discriminate. }
  split.
  - rewrite Hiff, andb_true_iff. destruct parent as [t | ]; [ reflexivity | ].
    split; [ intros [? _]; auto | intros [? _]; auto ].
  - intros Hk. apply Hiff in Hk. rewrite Hk in Hres. exact Hres.
Qed.

(** ** Lists *)

Lemma traverse_Forall2 {A B : Type} (f : A -> result B) (l : list A) (ys : list B) :
  traverse f l = Ok ys <-> Forall2 (fun x y => f x = Ok y) l ys.
Proof.
  revert ys. induction l as [ | x l IH ]; intros ys; simpl.
  - split; [ intros [= <-]; constructor | intros H; inversion H; reflexivity ].
  - split.
    + intros H. bind_inv H. bind_inv H. injection H as <-.
      constructor; [ assumption | apply IH; assumption ].
    + intros H. inversion H as [ | ? y ? ys' Hx Hl ]; subst.
      rewrite Hx. simpl. apply IH in Hl. rewrite Hl. reflexivity.
Qed.

Lemma str_in_In (v : value) (l : list string) :
  str_in v l = true <-> exists s, v = VStr s /\ In s l.
Proof.
  destruct v; simpl; try (split; [ discriminate | intros (? & [=] & _) ]).
  rewrite existsb_eqb_In. split; [ eauto | intros (? & [= ->] & ?); assumption ].
Qed.

(** C4, amended. Filtering a list filters, with the parent scope of the
    list, the elements that are mappings and are shown (line 284), and
    answers the results in order. A mapping whose [datasetId] is true (a
    non-empty identity) is shown exactly when the identity is one of the
    accessible datasets; a mapping whose [datasetId] is missing or false
    ([None], the empty string, zero) is always shown. *)
Theorem list_dataset_visibility (pk : option string) (l : list value) (out : value) :
  filter (VList l) pk = Ok out ->
  (exists subs, out = VList subs /\
     Forall2 (fun e sub => filter e pk = Ok sub) (List.filter shown l) subs) /\
  (forall d, truthy (py_get d "datasetId") = true ->
     (shown (VDict d) = true <->
      exists s, py_get d "datasetId" = VStr s /\ In s accessible_datasets)) /\
  (forall d, truthy (py_get d "datasetId") = false -> shown (VDict d) = true).
Proof.
  intros H. rewrite filter_list in H. bind_inv H. injection H as <-. split; [ | split ].
  - exists a. split; [ reflexivity | ]. apply traverse_Forall2. exact Hstep.
  - intros d Ht. simpl. unfold dataset_shown. rewrite Ht. simpl. apply str_in_In.
  - intros d Ht. simpl. unfold dataset_shown. rewrite Ht. reflexivity.
Qed.

(** ** Failures *)

Lemma traverse_Raise {A B : Type} (f : A -> result B) (l : list A) (e : exn) :
  traverse f l = Raise e -> exists x, In x l /\ f x = Raise e.
Proof.
  induction l as [ | x l IH ]; simpl; [ discriminate | ]. intros H.
  apply bind_Raise in H. destruct H as [H | (y & Hy & H)]; [ exists x; auto | ].
  apply bind_Raise in H. destruct H as [H | (ys & _ & H)]; [ | discriminate ].
  destruct (IH H) as (x' & Hin & Hx'). exists x'. auto.
Qed.

Lemma filter_raises_lookup_error (r : value) :
  forall pk e, filter r pk = Raise e -> lookup_error e.
Proof.
  induction r as [ | | | | | l IH | d IH ] using value_ind; intros pk e H;
    try discriminate.
  - rewrite filter_list in H.
    apply bind_Raise in H. destruct H as [H | (? & _ & H)]; [ | discriminate ].
    apply traverse_Raise in H. destruct H as (x & Hin & Hx).
    apply filter_In in Hin. destruct Hin as [Hin _].
    rewrite List.Forall_forall in IH. exact (IH x Hin pk e Hx).
  - rewrite filter_dict in H.
    apply bind_Raise in H. destruct H as [H | (? & _ & H)]; [ | discriminate ].
    induction d as [ | [k v] d IHd ]; simpl in H; [ discriminate | ].
    inversion IH as [ | ? ? Hv Hd ]; subst. simpl in Hv.
    apply bind_Raise in H. destruct H as [H | (r & _ & H)].
    + unfold field_result in H.
      apply bind_Raise in H. destruct H as [H | (act & _ & H)].
      * exact (field_action_Raise _ _ _ _ H).
      * destruct act as [ | tk | ]; try discriminate.
        apply bind_Raise in H. destruct H as [H | (? & _ & H)]; [ | discriminate ].
        exact (Hv _ _ H).
    + apply bind_Raise in H. destruct H as [H | (? & _ & H)]; [ | discriminate ].
      exact (IHd Hd H).
Qed.

Lemma unmodelled_fields_kept (pk : option string) (d : dict) :
  unmodelled_fields access_levels_dict field2access pk d = true ->
  kept_of filter pk d = Ok d.
Proof.
  unfold unmodelled_fields. induction d as [ | [k v] d IH ]; simpl; [ reflexivity | ].
  rewrite andb_true_iff. intros [Hk Hd].
  unfold field_result. rewrite (unmodelled_Pass pk k v Hk). simpl.
  rewrite (IH Hd). reflexivity.
Qed.

Lemma unmodelled_response_Ok (pk : option string) (r : value) :
  unmodelled_response access_levels_dict field2access pk r = true ->
  exists out, filter r pk = Ok out.
Proof.
  destruct r as [ | | | | | l | d ]; simpl unmodelled_response; intros H;
    try (eexists; reflexivity).
  - rewrite filter_list.
    assert (exists subs, traverse (fun e => filter e pk) (List.filter shown l) = Ok subs)
      as [subs ->]; [ | simpl; eauto ].
    induction l as [ | x l IH ]; simpl; [ eauto | ].
    simpl in H. apply andb_true_iff in H. destruct H as [Hx Hl].
    destruct (IH Hl) as [subs Hsubs].
    destruct x as [ | | | | | l' | d ]; simpl; eauto.
    destruct (dataset_shown accessible_datasets d); [ | eauto ].
    cbn [traverse]. rewrite filter_dict, (unmodelled_fields_kept pk d Hx). simpl.
    rewrite Hsubs. simpl. eauto.
  - rewrite filter_dict, (unmodelled_fields_kept pk d H). simpl. eauto.
Qed.

(** C8, amended. [filter_response] does not raise on a response none of
    whose fields is modelled in the policy; when it raises, the exception
    is that of a failed look-up in the policy ([KeyError], [TypeError] or
    [AttributeError]). *)
Theorem filter_failure_policy (pk : option string) (r : value) :
  (unmodelled_response access_levels_dict field2access pk r = true ->
   exists out, filter r pk = Ok out) /\
  (forall e, filter r pk = Raise e ->
   e = KeyError \/ e = TypeError \/ e = AttributeError).
Proof.
  split; [ apply unmodelled_response_Ok | ].
  intros e H. exact (filter_raises_lookup_error r pk e H).
Qed.

(** ** Idempotence *)

Lemma filter_empty_container (pk : option string) (v out : value) :
  is_container v = true -> truthy v = false -> filter v pk = Ok out -> truthy out = false.
Proof.
  destruct v as [ | | | | | [ | ? ? ] | [ | ? ? ] ]; try discriminate;
    intros _ _ [= <-]; reflexivity.
Qed.

(** An element that was shown is still shown once its fields are filtered. *)
Lemma dataset_shown_kept (pk : option string) (d kept : dict) :
  unique_keys (map fst d) = true ->
  kept_of filter pk d = Ok kept ->
  dataset_shown accessible_datasets d = true ->
  dataset_shown accessible_datasets kept = true.
Proof.
  intros Hu Hkept. unfold dataset_shown, py_get.
  destruct (dict_get kept "datasetId") as [x | ] eqn:Hx; [ | reflexivity ].
  destruct (dict_get d "datasetId") as [v | ] eqn:Hv.
  - destruct (kept_field _ _ _ _ _ Hu Hkept (dict_get_In _ _ _ Hv)) as (act & Hact & Hres).
    destruct act as [ | tk | ].
    + rewrite Hres in Hx. injection Hx as <-. auto.
    + destruct Hres as (sub & Hsub & Hget). rewrite Hget in Hx. injection Hx as <-.
      apply field_action_Descend in Hact. destruct Hact as (Hc & _ & _).
      intros Hshown.
      assert (str_in v accessible_datasets = false) as Hstr
        by (destruct v; try discriminate; reflexivity).
      rewrite Hstr, orb_false_r, negb_true_iff in Hshown.
      rewrite (filter_empty_container _ _ _ Hc Hshown Hsub). reflexivity.
    + congruence.
  - exfalso. destruct (kept_keys _ _ _ _ Hkept) as [Hsub _].
    apply dict_get_In, (in_map fst), Hsub, existsb_eqb_In in Hx.
    apply dict_has_false_get in Hv. rewrite dict_has_keys in Hv. cbn [fst] in Hx. congruence.
Qed.

Lemma kept_idempotent (pk : option string) (d : dict) :
  Forall (fun kv => well_formed (snd kv) = true ->
            forall pk out, filter (snd kv) pk = Ok out -> filter out pk = Ok out) d ->
  forallb (fun kv => well_formed (snd kv)) d = true ->
  forall kept, kept_of filter pk d = Ok kept -> kept_of filter pk kept = Ok kept.
Proof.
  induction 1 as [ | [k v] d Hv _ IH ]; intros Hwf kept H; simpl in H.
  - injection H as <-. reflexivity.
  - simpl in Hwf, Hv. apply andb_true_iff in Hwf. destruct Hwf as [Hwv Hwd].
    bind_inv H. bind_inv H. injection H as <-.
    specialize (IH Hwd _ Hstep0).
    unfold field_result in Hstep. bind_inv Hstep.
    destruct a1 as [ | tk | ].
    + injection Hstep as <-. simpl. unfold field_result. rewrite Hstep1. simpl.
      rewrite IH. reflexivity.
    + bind_inv Hstep. injection Hstep as <-. simpl. unfold field_result.
      pose proof (field_action_Descend _ _ _ _ Hstep1) as (Hc & _ & _).
      rewrite (field_action_container pk k a1 v), Hstep1; simpl.
      * rewrite (Hv Hwv _ _ Hstep2). simpl. rewrite IH. reflexivity.
      * rewrite Hc. exact (filter_container _ _ _ Hc Hstep2).
    + injection Hstep as <-. exact IH.
Qed.

(** C9. Filtering a filtered response again, with the same policy, tiers,
    datasets, translation table and parent scope, answers it unchanged. *)
Theorem filter_idempotent (r : value) :
  well_formed r = true ->
  forall pk out, filter r pk = Ok out -> filter out pk = Ok out.
Proof.
  induction r as [ | | | | | l IH | d IH ] using value_ind; intros Hwf pk out H;
    try (injection H as <-; reflexivity).
  - rewrite filter_list in H. bind_inv H. injection H as <-.
    rewrite filter_list.
    assert (List.filter shown a = a /\ traverse (fun e => filter e pk) a = Ok a)
      as [-> ->]; [ | reflexivity ].
    simpl in Hwf. revert a Hstep.
    induction IH as [ | x l Hx _ IHl ]; intros subs Hsubs; simpl in Hsubs.
    + injection Hsubs as <-. split; reflexivity.
    + simpl in Hwf. apply andb_true_iff in Hwf. destruct Hwf as [Hwx Hwl].
      destruct (shown x) eqn:Hshown; [ | exact (IHl Hwl _ Hsubs) ].
      simpl in Hsubs. bind_inv Hsubs. bind_inv Hsubs. injection Hsubs as <-.
      destruct (IHl Hwl _ Hstep0) as [Hf Ht].
      destruct x as [ | | | | | l' | d ]; try discriminate.
      simpl in Hwx. apply andb_true_iff in Hwx. destruct Hwx as [Hu Hwd].
      destruct (filter_dict_unique _ _ _ Hu Hstep) as (kept & Hkept & -> & _).
      cbn [element_shown] in Hshown. cbn [List.filter element_shown].
      rewrite (dataset_shown_kept _ _ _ Hu Hkept Hshown).
      assert (well_formed (VDict d) = true) as Hwx
        by (simpl; rewrite Hu, Hwd; reflexivity).
      split.
      * f_equal. exact Hf.
      * cbn [traverse]. rewrite (Hx Hwx _ _ Hstep). cbn [bind]. rewrite Ht. reflexivity.
  - simpl in Hwf. apply andb_true_iff in Hwf. destruct Hwf as [Hu Hwd].
    destruct (filter_dict_unique _ _ _ Hu H) as (kept & Hkept & -> & Huk).
    rewrite filter_dict.
    rewrite (kept_idempotent pk d IH Hwd kept Hkept). simpl.
    rewrite set_all_unique; [ reflexivity | exact Huk ].
Qed.

End ResponseFilterProperties.

(** ** [filter_response] on example data *)

Lemma fail_open_invariant_witness :
  field_action example_policy ["PUBLIC"] example_translation (Some "beacon")
    "apiVersion" (VStr "1.0") = Ok Pass /\
  forall out,
    filter_response example_policy ["EGAD00001000740"] ["PUBLIC"] example_translation
      (VDict [("id", VStr "org.example"); ("apiVersion", VStr "1.0")]) (Some "beacon")
    = Ok out ->
    exists kept, out = VDict kept /\ dict_get kept "apiVersion" = Some (VStr "1.0").
Proof.
  apply (fail_open_invariant example_policy ["EGAD00001000740"] ["PUBLIC"]
           example_translation (Some "beacon")
           [("id", VStr "org.example"); ("apiVersion", VStr "1.0")]
           "apiVersion" (VStr "1.0")).
  - reflexivity.
  - simpl. auto.
  - reflexivity.
Defined.

Lemma subtree_gating_witness :
  exists kept own parent,
    VDict [("id", VStr "org.example"); ("datasets", VList [VDict [("id", VInt 1)]])]
    = VDict kept /\
    summary_tier example_policy example_translation "datasets" = Ok own /\
    parent_tier example_policy (Some "beacon") "datasets" = Ok parent /\
    (dict_has kept "datasets" = true <->
       str_in own ["PUBLIC"] = true /\
       match parent with Some t => str_in t ["PUBLIC"] = true | None => True end) /\
    (dict_has kept "datasets" = true ->
       exists sub,
         filter_response example_policy ["EGAD00001000740"] ["PUBLIC"] example_translation
           (VList [VDict [("id", VInt 1); ("name", VStr "first")]])
           (Some (translate example_translation "datasets")) = Ok sub /\
         dict_get kept "datasets" = Some sub).
Proof.
  apply (subtree_gating example_policy ["EGAD00001000740"] ["PUBLIC"]
           example_translation (Some "beacon")
           [("id", VStr "org.example");
            ("datasets", VList [VDict [("id", VInt 1); ("name", VStr "first")]])]
           "datasets" (VList [VDict [("id", VInt 1); ("name", VStr "first")]])).
  - reflexivity.
  - simpl. auto.
  - reflexivity.
  - reflexivity.
  - reflexivity.
Defined.

(** C4, counterexample. Two elements carry the field [datasetId], their
    identities ([None] and the empty string) are not accessible datasets,
    and both survive. *)
Lemma dataset_identity_counterexample :
  let hidden := VDict [("datasetId", VNone); ("exists", VBool false)] in
  let blank := VDict [("datasetId", VStr ""); ("exists", VBool false)] in
  subscript hidden "datasetId" = Ok VNone /\
  subscript blank "datasetId" = Ok (VStr "") /\
  str_in VNone ["EGAD00001000740"] = false /\
  str_in (VStr "") ["EGAD00001000740"] = false /\
  filter_response example_policy ["EGAD00001000740"] ["PUBLIC"] example_translation
    (VList [hidden; blank]) None = Ok (VList [hidden; blank]).
Proof. repeat split. Qed.

Lemma list_dataset_visibility_witness :
  exists subs,
    VList [VDict [("datasetId", VStr "EGAD00001000740")]; VDict [("note", VStr "n")]]
    = VList subs /\
    Forall2
      (fun e sub =>
         filter_response example_policy ["EGAD00001000740"] ["PUBLIC"]
           example_translation e None = Ok sub)
      (List.filter (element_shown ["EGAD00001000740"])
         [VDict [("datasetId", VStr "EGAD00001000740")];
          VDict [("datasetId", VStr "EGAD00001000999")];
          VDict [("note", VStr "n")]])
      subs.
Proof.
  apply (list_dataset_visibility example_policy ["EGAD00001000740"] ["PUBLIC"]
           example_translation None
           [VDict [("datasetId", VStr "EGAD00001000740")];
            VDict [("datasetId", VStr "EGAD00001000999")];
            VDict [("note", VStr "n")]]).
  reflexivity.
Defined.

(** C8, counterexample. The policy is consistent and the response is a
    well-formed tree, yet filtering raises [KeyError]: the field
    [datasets] holds [None], its translated key [beaconDataset] names a
    scope, so line 275 looks [beaconDataset] up in the scope of [beacon],
    which declares the field under its own name [datasets]. *)
Lemma filter_failure_counterexample :
  consistent_policy example_policy = true /\
  well_formed (VDict [("beacon", VDict [("datasets", VNone)])]) = true /\
  filter_response example_policy ["EGAD00001000740"] ["PUBLIC"] example_translation
    (VDict [("beacon", VDict [("datasets", VNone)])]) None = Raise KeyError.
Proof. repeat split. Qed.

Lemma filter_failure_policy_witness :
  exists out,
    filter_response example_policy ["EGAD00001000740"] ["PUBLIC"] example_translation
      (VDict [("apiVersion", VStr "1.0"); ("extra", VList [VInt 1])]) None = Ok out.
Proof.
  apply (proj1 (filter_failure_policy example_policy ["EGAD00001000740"] ["PUBLIC"]
                  example_translation None
                  (VDict [("apiVersion", VStr "1.0"); ("extra", VList [VInt 1])]))).
  reflexivity.
Defined.

Lemma filter_idempotent_witness :
  filter_response example_policy ["EGAD00001000740"] ["PUBLIC"] example_translation
    (VDict [("beacon",
             VDict [("id", VStr "org.example");
                    ("datasets",
                     VList [VDict [("id", VInt 1); ("datasetId", VStr "EGAD00001000740")]])])])
    None
  = Ok (VDict [("beacon",
             VDict [("id", VStr "org.example");
                    ("datasets",
                     VList [VDict [("id", VInt 1); ("datasetId", VStr "EGAD00001000740")]])])]).
Proof.
  apply (filter_idempotent example_policy ["EGAD00001000740"] ["PUBLIC"]
           example_translation
           (VDict [("beacon",
             VDict [("id", VStr "org.example");
                    ("datasets",
                     VList [VDict [("id", VInt 1); ("name", VStr "first");
                                   ("datasetId", VStr "EGAD00001000740")];
                            VDict [("id", VInt 2); ("datasetId", VStr "EGAD00001000999")];
                            VStr "stray"])])])).
  - reflexivity.
  - reflexivity.
Defined.

(** ** [parse_filters_request] *)

Lemma split_from_nonempty (sep : string) (skip : nat) (s : string) :
  split_from sep skip s <> [].
Proof.
  revert skip. induction s as [ | c s IH ]; intros skip; cbn [split_from].
  - discriminate.
  - destruct skip as [ | n ]; [ | apply IH ].
    destruct (String.prefix sep (String c s)); [ discriminate | ].
    destruct (split_from sep 0 s); discriminate.
Qed.

(** Without the separator there is one piece, the string itself. *)
Lemma split_absent (sep s : string) :
  contains sep s = false -> str_split s sep = [s].
Proof.
  unfold str_split. induction s as [ | c s IH ]; intros H; [ reflexivity | ].
  cbn [contains] in H. apply orb_false_iff in H. destruct H as [Hp Hc].
  cbn [split_from]. rewrite Hp, (IH Hc). reflexivity.
Qed.

(** With the separator there are at least two pieces. *)
Lemma split_present (sep s : string) :
  sep <> "" -> contains sep s = true ->
  exists first second more, str_split s sep = first :: second :: more.
Proof.
  intros Hsep. unfold str_split. induction s as [ | c s IH ]; intros H.
  - destruct sep; [ contradiction | discriminate ].
  - cbn [contains] in H. cbn [split_from].
    destruct (String.prefix sep (String c s)) eqn:Hp.
    + pose proof (split_from_nonempty sep (String.length sep - 1) s) as Hne.
      destruct (split_from sep (String.length sep - 1) s) as [ | x xs ]; [ contradiction | ].
      eauto.
    + simpl in H. destruct (IH H) as (a & b & more & ->). eauto.
Qed.

Lemma prefix_char_head (a c : Ascii.ascii) (x y : string) :
  String.prefix (String a "") (String c x) = false ->
  String.prefix (String a "") (String c y) = false.
Proof.
  change (String.prefix (String a "") (String c x))
    with (if Ascii.ascii_dec a c then String.prefix "" x else false).
  change (String.prefix (String a "") (String c y))
    with (if Ascii.ascii_dec a c then String.prefix "" y else false).
  destruct (Ascii.ascii_dec a c); [ | reflexivity ].
  destruct x; discriminate.
Qed.

(** The first piece is the text before the first colon. *)
Lemma split_first_colon (ontology rest : string) :
  contains ":" ontology = false ->
  str_split (String.append ontology (String.append ":" rest)) ":"
  = ontology :: str_split rest ":".
Proof.
  unfold str_split. induction ontology as [ | c s IH ]; intros H.
  - destruct rest; reflexivity.
  - cbn [contains] in H. apply orb_false_iff in H. destruct H as [Hp Hc].
    change (String.append (String c s) (String.append ":" rest))
      with (String c (String.append s (String.append ":" rest))).
    cbn [split_from].
    rewrite (prefix_char_head _ c s _ Hp).
    rewrite (IH Hc). reflexivity.
Qed.

Lemma scan_operators_found (ops : list string) (ontology remainder : string)
  (more : list string) :
  Forall (fun op => op <> "") ops ->
  match List.find (fun op => contains op remainder) ops with
  | Some op =>
      exists term val rest,
        str_split remainder op = term :: val :: rest /\
        scan_operators ops (ontology :: remainder :: more) = Ok (Some (term, op, val))
  | None => scan_operators ops (ontology :: remainder :: more) = Ok None
  end.
Proof.
  induction 1 as [ | op ops Hop _ IH ]; simpl; [ reflexivity | ].
  destruct (contains op remainder) eqn:Hc; [ | exact IH ].
  destruct (split_present op remainder Hop Hc) as (term & val & rest & Hs).
  exists term, val, rest. rewrite Hs. split; reflexivity.
Qed.

Lemma operators_nonempty : Forall (fun op => op <> "") operators.
Proof. repeat constructor; discriminate. Qed.

(** The tokens are parsed one by one, in order, and the first failure is
    the failure of the whole request. *)
Lemma parse_filters_from_traverse (tokens : list string) (acc : list (list string)) :
  parse_filters_from tokens acc
  = (parsed <- traverse parse_filter tokens ;; Ok (acc ++ parsed)).
Proof.
  revert acc. induction tokens as [ | token tokens IH ]; intros acc; simpl.
  - rewrite app_nil_r. reflexivity.
  - destruct (parse_filter token) as [ final_elements | e ]; simpl; [ | reflexivity ].
    rewrite IH. destruct (traverse parse_filter tokens); simpl; [ | reflexivity ].
    rewrite <- app_assoc. reflexivity.
Qed.

(** C6, amended. The tokens are parsed one by one. A token without a colon
    fails, with the [IndexError] of [filter_elements[1]]. Otherwise the token is split on the colon, the
    first piece is the ontology (the text before the first colon), and the
    second piece is scanned for the first operator of the list
    [">="; "<="; "="; ">"; "<"] that occurs in it: the predicate is then
    the ontology, the text before the operator, the operator and the text
    after it, and without an operator it is the ontology and the second
    piece alone. *)
Theorem parse_filter_contract :
  (forall tokens, parse_filters_request tokens = traverse parse_filter tokens) /\
  (forall token, contains ":" token = false ->
     parse_filters_request [token] = Raise IndexError) /\
  (forall token, contains ":" token = true ->
     exists ontology remainder more,
       str_split token ":" = ontology :: remainder :: more /\
       match List.find (fun op => contains op remainder) operators with
       | Some op =>
           exists term val rest,
             str_split remainder op = term :: val :: rest /\
             parse_filters_request [token] = Ok [[ontology; term; op; val]]
       | None => parse_filters_request [token] = Ok [[ontology; remainder]]
       end) /\
  (forall ontology rest, contains ":" ontology = false ->
     str_split (String.append ontology (String.append ":" rest)) ":"
     = ontology :: str_split rest ":") /\
  parse_filters_request ["Insilico:coverage>=30"]
  = Ok [["Insilico"; "coverage"; ">="; "30"]] /\
  parse_filters_request ["Insilico:exists"] = Ok [["Insilico"; "exists"]] /\
  parse_filters_request ["Insilicoexists"] = Raise IndexError.
Proof.
  split; [ | split; [ | split; [ | split; [ | repeat split ] ] ] ].
  - intros tokens. unfold parse_filters_request.
    rewrite parse_filters_from_traverse. destruct (traverse parse_filter tokens); reflexivity.
  - intros token H. unfold parse_filters_request, parse_filters_from, parse_filter.
    rewrite (split_absent _ _ H). reflexivity.
  - intros token H.
    destruct (split_present ":" token ltac:(discriminate) H)
      as (ontology & remainder & more & Hs).
    exists ontology, remainder, more. split; [ exact Hs | ].
    pose proof (scan_operators_found operators ontology remainder more operators_nonempty)
      as Hscan.
    unfold parse_filters_request, parse_filters_from, parse_filter. rewrite Hs.
    cbn [index nth_error bind].
    destruct (List.find (fun op => contains op remainder) operators) as [op | ].
    + destruct Hscan as (term & val & rest & Hsplit & ->).
      exists term, val, rest. split; [ exact Hsplit | reflexivity ].
    + rewrite Hscan. reflexivity.
  - exact split_first_colon.
Qed.

(** C6, counterexample. The token without a colon fails with
    [IndexError], not with [MalformedFilterError]; and what is scanned for
    an operator is the second piece of the split, not all that follows the
    first colon. *)
Lemma parse_filter_counterexample :
  parse_filters_request ["Insilicoexists"] = Raise IndexError /\
  parse_filters_request ["Insilicoexists"] <> Raise MalformedFilterError /\
  parse_filters_request ["Insilico:coverage:depth>=30"] = Ok [["Insilico"; "coverage"]].
Proof. split; [ reflexivity | split; [ discriminate | reflexivity ] ]. Qed.

(** ** [filter_exists] *)

(** C10. For a mode that is none of ["ALL"], ["NONE"], ["HIT"], ["MISS"]
    the call falls off the end of the function: the caller gets [None],
    not a list. *)
Theorem filter_exists_unknown_mode (include_dataset : string) (datasets : list value) :
  include_dataset <> "ALL" -> include_dataset <> "NONE" ->
  include_dataset <> "HIT" -> include_dataset <> "MISS" ->
  filter_exists include_dataset datasets = Ok VNone /\
  forall l, filter_exists include_dataset datasets <> Ok (VList l).
Proof.
  intros HA HN HH HM. unfold filter_exists.
  apply String.eqb_neq in HA, HN, HH, HM. rewrite HA, HN, HH, HM.
  split; [ reflexivity | discriminate ].
Qed.

Lemma filter_exists_unknown_mode_witness :
  filter_exists "all" [VDict [("exists", VBool true)]] = Ok VNone /\
  forall l, filter_exists "all" [VDict [("exists", VBool true)]] <> Ok (VList l).
Proof.
  apply (filter_exists_unknown_mode "all" [VDict [("exists", VBool true)]]);
    discriminate.
Defined.

(** ** [access_resolution] *)

Lemma token_permissions_none (t : token) :
  permissions t = None \/ permissions t = Some [] -> token_permissions t = None.
Proof. unfold token_permissions. intros [-> | ->]; reflexivity. Qed.

(** C2. With no entitlement in the token (the key [permissions] missing,
    or its list empty) and controlled datasets requested: a request for
    controlled datasets alone raises [BeaconUnauthorised] when
    [token["authenticated"]] is [False] and [BeaconForbidden] otherwise, so
    for an authenticated identity; a request that also names public
    datasets succeeds with the permissions [["PUBLIC"]] and the public
    dataset identifiers, each once, as the accessible datasets. *)
Theorem access_resolution_error_fork (t : token) (public_data controlled_data : list Z) :
  permissions t = None \/ permissions t = Some [] ->
  controlled_data <> [] ->
  (authenticated t = VBool false ->
   access_resolution t [] [] controlled_data = Raise BeaconUnauthorised) /\
  (authenticated t = VBool true ->
   access_resolution t [] [] controlled_data = Raise BeaconForbidden) /\
  (public_data <> [] ->
   exists access,
     access_resolution t public_data [] controlled_data = Ok (["PUBLIC"], access) /\
     List.NoDup access /\
     forall x, In x access <-> In x public_data).
Proof.
  intros Hperm Hc. apply token_permissions_none in Hperm.
  unfold access_resolution, deny. rewrite Hperm.
  destruct controlled_data as [ | c cs ]; [ contradiction | ]. simpl.
  split; [ intros ->; reflexivity | ]. split; [ intros ->; reflexivity | ].
  intros Hp.
  assert (nonempty public_data = true) as ->
    by (destruct public_data; [ contradiction | reflexivity ]).
  simpl. eexists. split; [ reflexivity | ]. split.
  - apply NoDup_ListNoDup, NoDup_elements.
  - intros x. rewrite <- !list_elem_of_In, elem_of_elements, elem_of_list_to_set.
    reflexivity.
Qed.

(** Entitlements for other datasets than the requested ones are not "no
    entitlement": the request for controlled datasets alone then succeeds,
    with no permission and no accessible dataset. *)
Lemma access_resolution_other_entitlements :
  access_resolution
    {| bona_fide_status := VBool false; authenticated := VBool true;
       permissions := Some [7%Z] |} [] [] [3%Z] = Ok ([], []).
Proof. reflexivity. Qed.

Lemma access_resolution_error_fork_witness :
  (VBool false = VBool false ->
   access_resolution
     {| bona_fide_status := VBool false; authenticated := VBool false;
        permissions := Some [] |} [] [] [3%Z] = Raise BeaconUnauthorised) /\
  (VBool false = VBool true ->
   access_resolution
     {| bona_fide_status := VBool false; authenticated := VBool false;
        permissions := Some [] |} [] [] [3%Z] = Raise BeaconForbidden) /\
  ([1%Z; 2%Z] <> [] ->
   exists access,
     access_resolution
       {| bona_fide_status := VBool false; authenticated := VBool false;
          permissions := Some [] |} [1%Z; 2%Z] [] [3%Z] = Ok (["PUBLIC"], access) /\
     List.NoDup access /\
     forall x, In x access <-> In x [1%Z; 2%Z]).
Proof.
  apply (access_resolution_error_fork
           {| bona_fide_status := VBool false; authenticated := VBool false;
              permissions := Some [] |} [1%Z; 2%Z] [3%Z]).
  - right. reflexivity.
  - discriminate.
Defined.

(** ** Reconciliation *)

Section ReconciliationProperties.

Variable acquire : result unit.
Variable select_dataset : Z -> result (option dataset_row).
Variable select_missing : list Z -> result (list dataset_row).
Variable round4 : value -> result value.
Variable variantAnnotations : dict -> result (option string * value * value).

Local Abbreviation transform := (transform_record acquire select_dataset round4).
Local Abbreviation misses_of := (fetch_missing_datasets acquire select_missing).
Local Abbreviation group := (group_records acquire select_dataset round4).
Local Abbreviation element_of := (final_variantsFound_element variantAnnotations).

Lemma is_None_iff (v : value) : is_None v = true <-> v = VNone.
Proof. destruct v; simpl; split; congruence. Qed.

(** A transformed hit record is a mapping that carries the identifier of
    its dataset and [exists = True]. *)
Lemma transform_record_found (record : hit_row) (extra : dataset_row) :
  acquire = Ok tt ->
  select_dataset (dataset_id record) = Ok (Some extra) ->
  (frequency record = VNone \/ exists f, round4 (frequency record) = Ok f) ->
  exists fields,
    transform record = Ok (VDict fields) /\
    dict_get fields "internalId" = Some (VInt (dataset_id record)) /\
    dict_get fields "exists" = Some (VBool true).
Proof.
  intros Hacq Hrow Hfreq. unfold transform_record. rewrite Hacq, Hrow. cbn.
  unfold zero_if_none. cbn.
  destruct (is_None (frequency record)) eqn:Ef; cbn.
  - destruct (is_None (num_variants record)); cbn;
      destruct (is_None (matching_sample_cnt record)); cbn;
      eexists; repeat split; reflexivity.
  - destruct Hfreq as [ Hnone | (f & Hf) ].
    + rewrite Hnone in Ef. discriminate.
    + rewrite Hf. cbn.
      destruct (is_None (num_variants record)); cbn;
        destruct (is_None (matching_sample_cnt record)); cbn;
        eexists; repeat split; reflexivity.
Qed.

Lemma transform_record_Ok (record : hit_row) (response : value) :
  transform record = Ok response ->
  exists fields,
    response = VDict fields /\
    dict_get fields "internalId" = Some (VInt (dataset_id record)) /\
    dict_get fields "exists" = Some (VBool true).
Proof.
  intros H.
  assert (acquire = Ok tt) as Hacq.
  { unfold transform_record in H.
    destruct acquire as [ [] | e ]; [ reflexivity | discriminate ]. }
  destruct (select_dataset (dataset_id record)) as [ [ extra | ] | e ] eqn:Hrow;
    [ | unfold transform_record in H; rewrite Hacq, Hrow in H; cbn in H; discriminate .. ].
  assert (frequency record = VNone \/ exists f, round4 (frequency record) = Ok f) as Hfreq.
  { destruct (is_None (frequency record)) eqn:Ef; [ left; apply is_None_iff, Ef | right ].
    unfold transform_record in H. rewrite Hacq, Hrow in H. cbn in H.
    unfold zero_if_none in H. cbn in H. rewrite Ef in H. cbn in H.
    destruct (round4 (frequency record)) as [ f | e ]; [ eauto | discriminate ]. }
  destruct (transform_record_found record extra Hacq Hrow Hfreq)
    as (fields & Ht & Hi & He).
  rewrite Ht in H. injection H as <-. eauto.
Qed.

Lemma transform_misses_shape (record : dataset_row) :
  exists fields,
    transform_misses record = VDict fields /\
    dict_get fields "internalId" = Some (VInt (ds_id record)) /\
    dict_get fields "exists" = Some (VBool false).
Proof. eexists. repeat split. Qed.

(** *** The grouping loop *)

Lemma group_records_snoc (rows : list hit_row) (record : hit_row)
  (variants_dict : list (string * variant_entry)) :
  group (rows ++ [record]) variants_dict
  = (grouped <- group rows variants_dict ;;
     response <- transform record ;;
     Ok (add_response grouped (variant_composite_id record) record response)).
Proof.
  revert variants_dict. induction rows as [ | r rows IH ]; intros vd; simpl.
  - destruct (transform record); reflexivity.
  - destruct (transform r); simpl; [ apply IH | reflexivity ].
Qed.

Lemma add_response_keys (vd : list (string * variant_entry)) (v : string)
  (record : hit_row) (response : value) :
  map fst (add_response vd v record response)
  = if existsb (String.eqb v) (map fst vd) then map fst vd else map fst vd ++ [v].
Proof.
  induction vd as [ | [k e] vd IH ]; simpl; [ reflexivity | ].
  destruct (String.eqb v k); simpl; [ reflexivity | ].
  rewrite IH. destruct (existsb _ _); reflexivity.
Qed.

Lemma hits_of_snoc (v : string) (rows : list hit_row) (record : hit_row) :
  hits_of v (rows ++ [record])
  = hits_of v rows ++ (if String.eqb (variant_composite_id record) v then [record] else []).
Proof. unfold hits_of. rewrite List.filter_app. reflexivity. Qed.

Lemma hits_of_absent (v : string) (rows : list hit_row) :
  (forall r, In r rows -> variant_composite_id r <> v) -> hits_of v rows = [].
Proof.
  unfold hits_of. induction rows as [ | r rows IH ]; intros H; simpl; [ reflexivity | ].
  destruct (String.eqb (variant_composite_id r) v) eqn:E.
  - apply String.eqb_eq in E. exfalso. apply (H r); simpl; auto.
  - apply IH. intros r' Hin. apply H. simpl. auto.
Qed.

Lemma variant_order_snoc (rows : list hit_row) (record : hit_row) :
  variant_order (rows ++ [record])
  = if existsb (String.eqb (variant_composite_id record)) (variant_order rows)
    then variant_order rows
    else variant_order rows ++ [variant_composite_id record].
Proof. unfold variant_order, variant_order_from. rewrite List.fold_left_app. reflexivity. Qed.

(** Adding the response of one more record keeps every entry in step with
    the hit records of its variant. *)
Lemma add_response_entries (rows : list hit_row) (record : hit_row) (response : value)
  (vd : list (string * variant_entry)) :
  transform record = Ok response ->
  List.NoDup (map fst vd) ->
  (~ In (variant_composite_id record) (map fst vd) ->
   hits_of (variant_composite_id record) rows = []) ->
  Forall (fun kv =>
            Forall2 (fun r t => transform r = Ok t)
              (hits_of (fst kv) rows) (datasetAlleleResponses (snd kv))) vd ->
  Forall (fun kv =>
            Forall2 (fun r t => transform r = Ok t)
              (hits_of (fst kv) (rows ++ [record])) (datasetAlleleResponses (snd kv)))
    (add_response vd (variant_composite_id record) record response).
Proof.
  intros Ht. induction vd as [ | [k e] vd IH ]; intros Hnd Hnew Hall; simpl.
  - constructor; [ | constructor ]. simpl.
    rewrite hits_of_snoc, String.eqb_refl, Hnew; [ | simpl; tauto ].
    simpl. constructor; [ exact Ht | constructor ].
  - simpl in Hnd. inversion Hnd as [ | ? ? Hk Hnd' ]; subst.
    inversion Hall as [ | ? ? He Hall' ]; subst. simpl in He.
    destruct (String.eqb (variant_composite_id record) k) eqn:E.
    + apply String.eqb_eq in E. subst k. constructor; simpl.
      * rewrite hits_of_snoc, String.eqb_refl.
        apply List.Forall2_app; [ exact He | constructor; [ exact Ht | constructor ] ].
      * rewrite List.Forall_forall in Hall' |- *. intros [k' e'] Hin. simpl.
        rewrite hits_of_snoc.
        assert (String.eqb (variant_composite_id record) k' = false) as ->.
        { apply String.eqb_neq. intros <-. apply Hk. apply (in_map fst) in Hin. exact Hin. }
        rewrite app_nil_r. exact (Hall' _ Hin).
    + constructor; simpl.
      * rewrite hits_of_snoc, E, app_nil_r. exact He.
      * apply IH; [ exact Hnd' | | exact Hall' ].
        intros Hn. apply Hnew. simpl. intros [Heq | Hin]; [ | contradiction ].
        subst k. rewrite String.eqb_refl in E. discriminate.
Qed.

(** The details of an entry are those of a record of its variant: of the
    record that made the entry. *)
Lemma add_response_details (rows : list hit_row) (record : hit_row) (response : value)
  (vd : list (string * variant_entry)) :
  Forall (fun kv => exists r, In r rows /\ variantDetails (snd kv) = variant_details r) vd ->
  Forall (fun kv => exists r, In r (rows ++ [record]) /\
                              variantDetails (snd kv) = variant_details r)
    (add_response vd (variant_composite_id record) record response).
Proof.
  induction 1 as [ | [k e] vd (r & Hr & Hd) Hrest IH ]; simpl.
  - constructor; [ | constructor ]. exists record. split; [ | reflexivity ].
    apply in_or_app. right. left. reflexivity.
  - destruct (String.eqb (variant_composite_id record) k).
    + constructor.
      * exists r. split; [ apply in_or_app; left; exact Hr | exact Hd ].
      * eapply List.Forall_impl; [ | exact Hrest ].
        intros kv (r' & Hr' & Hd'). exists r'. split; [ apply in_or_app; left | ]; assumption.
    + constructor; [ | exact IH ].
      exists r. split; [ apply in_or_app; left; exact Hr | exact Hd ].
Qed.

Lemma grouped_by_step (rows : list hit_row) (record : hit_row) (response : value)
  (vd : list (string * variant_entry)) :
  grouped_by acquire select_dataset round4 rows vd ->
  transform record = Ok response ->
  grouped_by acquire select_dataset round4 (rows ++ [record])
    (add_response vd (variant_composite_id record) record response).
Proof.
  intros (Hkeys & Hnd & Hin & Hall & Hdet) Ht. unfold grouped_by.
  rewrite add_response_keys, variant_order_snoc, <- Hkeys.
  split; [ reflexivity | ]. split; [ | split; [ | split ] ].
  - destruct (existsb _ _) eqn:E; [ exact Hnd | ].
    apply List.NoDup_app; [ exact Hnd | repeat constructor; simpl; tauto | ].
    intros a Ha [<- | []]. apply existsb_eqb_In in Ha. congruence.
  - intros r Hr. apply in_app_or in Hr.
    destruct (existsb _ _) eqn:E.
    + destruct Hr as [Hr | [<- | []]]; [ auto | apply existsb_eqb_In; exact E ].
    + apply in_or_app. destruct Hr as [Hr | [<- | []]]; [ left; auto | right; simpl; auto ].
  - apply add_response_entries; try assumption.
    intros Hn. apply hits_of_absent. intros r Hr Heq. apply Hn. rewrite <- Heq. auto.
  - apply add_response_details. exact Hdet.
Qed.

(** The grouping loop returns exactly when every record is transformed,
    and then [variants_dict] is grouped by variant. *)
Lemma group_records_Ok (rows : list hit_row) (vd : list (string * variant_entry)) :
  group rows [] = Ok vd ->
  grouped_by acquire select_dataset round4 rows vd /\
  forall r, In r rows -> exists t, transform r = Ok t.
Proof.
  revert vd. induction rows as [ | record rows IH ] using rev_ind; intros vd H.
  - injection H as <-. split; [ | intros r [] ].
    repeat split; simpl; try constructor. contradiction.
  - rewrite group_records_snoc in H. bind_inv H. bind_inv H. injection H as <-.
    destruct (IH _ Hstep) as (Hg & Hall). split.
    + exact (grouped_by_step _ _ _ _ Hg Hstep0).
    + intros r Hr. apply in_app_or in Hr. destruct Hr as [ Hr | [ <- | [] ] ]; eauto.
Qed.

Lemma group_records_grouped (rows : list hit_row) :
  (forall r, In r rows -> exists t, transform r = Ok t) ->
  exists vd, group rows [] = Ok vd /\ grouped_by acquire select_dataset round4 rows vd.
Proof.
  induction rows as [ | record rows IH ] using rev_ind; intros Hrows.
  - exists []. split; [ reflexivity | ].
    repeat split; simpl; try constructor. contradiction.
  - destruct IH as (vd & Hvd & Hg).
    { intros r Hr. apply Hrows, in_or_app. auto. }
    destruct (Hrows record) as (t & Ht); [ apply in_or_app; simpl; auto | ].
    exists (add_response vd (variant_composite_id record) record t).
    split; [ | exact (grouped_by_step _ _ _ _ Hg Ht) ].
    rewrite group_records_snoc, Hvd. simpl. rewrite Ht. reflexivity.
Qed.

Lemma answered_transform (record : hit_row) :
  acquire = Ok tt ->
  answered select_dataset round4 variantAnnotations record ->
  exists t, transform record = Ok t.
Proof.
  intros Hacq ((extra & Hrow) & Hfreq & _).
  destruct (transform_record_found record extra Hacq Hrow Hfreq) as (fields & Ht & _). eauto.
Qed.

(** *** Misses *)

Lemma internal_ids_hits (hits : list hit_row) (responses : list value) :
  Forall2 (fun r t => transform r = Ok t) hits responses ->
  internal_ids responses = Ok (map (fun r => VInt (dataset_id r)) hits).
Proof.
  induction 1 as [ | r t hits responses Ht _ IH ]; simpl; [ reflexivity | ].
  destruct (transform_record_Ok _ _ Ht) as (fields & -> & Hid & _).
  simpl. rewrite Hid. simpl. rewrite IH. reflexivity.
Qed.

Lemma existsb_int_eq (x : Z) (hits : list hit_row) :
  existsb (int_eq x) (map (fun r => VInt (dataset_id r)) hits)
  = existsb (Z.eqb x) (map dataset_id hits).
Proof. induction hits as [ | r hits IH ]; simpl; [ reflexivity | rewrite IH; reflexivity ]. Qed.

Lemma add_misses_hits (dataset_ids : list Z) (hits : list hit_row) (entry : variant_entry) :
  dataset_ids <> [] ->
  Forall2 (fun r t => transform r = Ok t) hits (datasetAlleleResponses entry) ->
  add_misses acquire select_missing dataset_ids entry
  = (miss_datasets <- misses_of (missing_ids dataset_ids hits) ;;
     Ok {| variantDetails := variantDetails entry;
           datasetAlleleResponses := datasetAlleleResponses entry ++ miss_datasets |}).
Proof.
  intros Hids H. unfold add_misses, parse_dataset_ids.
  rewrite (internal_ids_hits _ _ H).
  destruct dataset_ids as [ | i dataset_ids ]; [ contradiction | ]. cbn [nonempty bind].
  unfold missing_ids. do 2 f_equal.
  apply List.filter_ext. intros x. rewrite existsb_int_eq. reflexivity.
Qed.

(** What the look-up of the missing datasets answers: nothing without
    identifiers, and otherwise the transformed rows of the query, in the
    order of its answer. *)
Lemma misses_of_Ok (ids : list Z) (misses : list value) :
  misses_of ids = Ok misses ->
  (ids = [] /\ misses = []) \/
  (ids <> [] /\ exists answer,
     select_missing ids = Ok answer /\ misses = map transform_misses answer).
Proof.
  unfold fetch_missing_datasets. destruct acquire as [ [] | e ]; [ | discriminate ].
  cbn [bind]. destruct ids as [ | i ids ]; cbn [nonempty].
  - intros [= <-]. left. auto.
  - intros H. right. split; [ discriminate | ].
    destruct (select_missing (i :: ids)) as [ answer | e ]; [ | discriminate ].
    cbn in H. injection H as <-. eauto.
Qed.

Lemma misses_of_answered (ids : list Z) :
  acquire = Ok tt ->
  missing_answered select_missing -> exists misses, misses_of ids = Ok misses.
Proof.
  intros Hacq Hq. unfold fetch_missing_datasets. rewrite Hacq. cbn [bind].
  destruct ids as [ | i ids ]; cbn [nonempty].
  - eauto.
  - destruct (Hq (i :: ids)) as (answer & ->); [ discriminate | ]. cbn. eauto.
Qed.

Lemma misses_flagged (ids : list Z) (misses : list value) :
  misses_of ids = Ok misses -> Forall (flagged false) misses.
Proof.
  intros H. apply misses_of_Ok in H.
  destruct H as [ [_ ->] | (_ & answer & _ & ->) ]; [ constructor | ].
  apply List.Forall_forall. intros x Hx. apply in_map_iff in Hx.
  destruct Hx as (record & <- & _).
  destruct (transform_misses_shape record) as (fields & Hf & _ & He).
  exists fields. auto.
Qed.

Lemma hits_flagged (hits : list hit_row) (responses : list value) :
  Forall2 (fun r t => transform r = Ok t) hits responses ->
  Forall (flagged true) responses.
Proof.
  induction 1 as [ | r t hits responses Ht _ IH ]; constructor; [ | exact IH ].
  destruct (transform_record_Ok _ _ Ht) as (fields & -> & _ & He). exists fields. auto.
Qed.

(** *** [filter_exists] on hits and misses *)

Lemma comprehension_if_app (test : value -> result bool) (l1 l2 : list value) :
  comprehension_if test (l1 ++ l2)
  = (k1 <- comprehension_if test l1 ;;
     k2 <- comprehension_if test l2 ;;
     Ok (k1 ++ k2)).
Proof.
  induction l1 as [ | d l1 IH ]; simpl.
  - destruct (comprehension_if test l2); reflexivity.
  - destruct (test d) as [ keep | ]; simpl; [ | reflexivity ]. rewrite IH.
    destruct (comprehension_if test l1); simpl; [ | reflexivity ].
    destruct (comprehension_if test l2); simpl; [ | reflexivity ].
    destruct keep; reflexivity.
Qed.

Lemma comprehension_if_flagged (b : bool) (select : value -> bool) (l : list value) :
  Forall (flagged b) l ->
  comprehension_if (fun d => e <- subscript d "exists" ;; Ok (select e)) l
  = Ok (if select (VBool b) then l else []).
Proof.
  induction 1 as [ | d l (fields & -> & He) _ IH ]; simpl.
  - destruct (select (VBool b)); reflexivity.
  - rewrite He. simpl. rewrite IH. simpl. destruct (select (VBool b)); reflexivity.
Qed.

Lemma filter_exists_hits_misses (mode : string) (hits misses : list value) :
  known_mode mode ->
  Forall (flagged true) hits ->
  Forall (flagged false) misses ->
  filter_exists mode
    (hits ++ if String.eqb mode "ALL" || String.eqb mode "MISS" then misses else [])
  = Ok (VList (mode_select mode hits misses)).
Proof.
  intros Hmode Hh Hm. unfold filter_exists, mode_select.
  destruct Hmode as [-> | [-> | [-> | ->]]]; simpl.
  - reflexivity.
  - reflexivity.
  - rewrite app_nil_r, (comprehension_if_flagged true is_True hits Hh). reflexivity.
  - rewrite comprehension_if_app,
      (comprehension_if_flagged true is_False hits Hh),
      (comprehension_if_flagged false is_False misses Hm). reflexivity.
Qed.

Lemma element_of_entry (mode : string) (details : dict) (hits misses : list value) :
  known_mode mode ->
  Forall (flagged true) hits ->
  Forall (flagged false) misses ->
  (exists a, variantAnnotations details = Ok a) ->
  exists element,
    element_of mode
      {| variantDetails := details;
         datasetAlleleResponses :=
           hits ++ if String.eqb mode "ALL" || String.eqb mode "MISS" then misses else [] |}
    = Ok element /\
    variant_element element (mode_select mode hits misses).
Proof.
  intros Hmode Hh Hm ([[rsID cellBase] dbSNP] & Ha).
  unfold final_variantsFound_element. simpl. rewrite Ha. cbn [bind].
  rewrite (filter_exists_hits_misses mode hits misses Hmode Hh Hm). simpl.
  eexists. split; [ reflexivity | ]. unfold variant_element. eauto.
Qed.

(** *** The two last loops *)

(** What the theorems say of the element of a variant: its per-dataset
    entries are the selection, by the mode, among the transformed hit
    records of the variant and the misses of the datasets they leave, which
    are looked up under ["ALL"] and ["MISS"] only. *)
Local Abbreviation element_for rows ids mode :=
  (fun (v : string) (element : value) =>
     exists hits misses,
       Forall2 (fun r t => transform r = Ok t) (hits_of v rows) hits /\
       (if String.eqb mode "ALL" || String.eqb mode "MISS"
        then misses_of (missing_ids ids (hits_of v rows)) = Ok misses
        else misses = []) /\
       variant_element element (mode_select mode hits misses)).

Lemma assemble_without_misses (rows : list hit_row) (ids : list Z) (mode : string)
  (vd : list (string * variant_entry)) (acc : list value) :
  known_mode mode ->
  String.eqb mode "ALL" || String.eqb mode "MISS" = false ->
  Forall (fun kv =>
            Forall2 (fun r t => transform r = Ok t)
              (hits_of (fst kv) rows) (datasetAlleleResponses (snd kv))) vd ->
  Forall (fun kv => exists a, variantAnnotations (variantDetails (snd kv)) = Ok a) vd ->
  exists elements,
    assemble_response variantAnnotations mode vd acc = Ok (acc ++ elements) /\
    Forall2 (element_for rows ids mode) (map fst vd) elements.
Proof.
  intros Hmode Hb Hall Hann. revert acc.
  induction Hall as [ | [v [details responses]] vd Hv _ IH ]; intros acc; simpl.
  - exists []. rewrite app_nil_r. split; [ reflexivity | constructor ].
  - simpl in Hv. apply List.Forall_cons_iff in Hann. destruct Hann as [Ha Hann']. simpl in Ha.
    destruct (element_of_entry mode details responses [] Hmode
                (hits_flagged _ _ Hv) (List.Forall_nil _) Ha) as (element & He & Hshape).
    rewrite Hb, app_nil_r in He. rewrite He. simpl.
    destruct (IH Hann' (acc ++ [element])) as (elements & -> & Hels).
    exists (element :: elements). rewrite <- app_assoc. split; [ reflexivity | ].
    constructor; [ | exact Hels ]. exists responses, []. rewrite Hb. auto.
Qed.

Lemma assemble_with_misses (rows : list hit_row) (ids : list Z) (mode : string)
  (vd : list (string * variant_entry)) :
  known_mode mode ->
  String.eqb mode "ALL" || String.eqb mode "MISS" = true ->
  (vd <> [] -> ids <> []) ->
  acquire = Ok tt ->
  missing_answered select_missing ->
  Forall (fun kv =>
            Forall2 (fun r t => transform r = Ok t)
              (hits_of (fst kv) rows) (datasetAlleleResponses (snd kv))) vd ->
  Forall (fun kv => exists a, variantAnnotations (variantDetails (snd kv)) = Ok a) vd ->
  exists vd',
    add_misses_each acquire select_missing ids vd = Ok vd' /\
    forall acc, exists elements,
      assemble_response variantAnnotations mode vd' acc = Ok (acc ++ elements) /\
      Forall2 (element_for rows ids mode) (map fst vd) elements.
Proof.
  intros Hmode Hb Hids Hacq Hq Hall Hann.
  induction Hall as [ | [v [details responses]] vd Hv _ IH ]; simpl.
  - exists []. split; [ reflexivity | ]. intros acc. exists [].
    rewrite app_nil_r. split; [ reflexivity | constructor ].
  - simpl in Hv. specialize (Hids ltac:(discriminate)).
    apply List.Forall_cons_iff in Hann. destruct Hann as [Ha Hann']. simpl in Ha.
    destruct (IH (fun _ => Hids) Hann') as (vd' & -> & Hrest).
    rewrite (add_misses_hits ids (hits_of v rows)
               {| variantDetails := details; datasetAlleleResponses := responses |}
               Hids Hv).
    destruct (misses_of_answered (missing_ids ids (hits_of v rows)) Hacq Hq) as (misses & Hmiss).
    rewrite Hmiss. simpl.
    eexists. split; [ reflexivity | ]. intros acc. simpl.
    destruct (element_of_entry mode details responses misses Hmode
                (hits_flagged _ _ Hv) (misses_flagged _ _ Hmiss) Ha)
      as (element & He & Hshape).
    rewrite Hb in He. rewrite He. simpl.
    destruct (Hrest (acc ++ [element])) as (elements & -> & Hels).
    exists (element :: elements). rewrite <- app_assoc. split; [ reflexivity | ].
    constructor; [ | exact Hels ]. exists responses, misses. rewrite Hb. auto.
Qed.

(** [get_datasets] answers one element per variant, in the order of the
    first hit records, when its collaborators answer. *)
Lemma get_datasets_elements (rows : list hit_row) (ids : list Z) (mode : string) :
  acquire = Ok tt ->
  (forall r, In r rows -> answered select_dataset round4 variantAnnotations r) ->
  (String.eqb mode "ALL" || String.eqb mode "MISS" = true ->
   missing_answered select_missing) ->
  (rows <> [] -> ids <> []) ->
  known_mode mode ->
  exists response,
    get_datasets acquire select_dataset select_missing round4 variantAnnotations rows ids mode
    = Ok response /\
    Forall2 (element_for rows ids mode) (variant_order rows) response.
Proof.
  intros Hacq Hrows Hq Hids Hmode.
  destruct (group_records_grouped rows) as (vd & Hvd & Hkeys & _ & Hin & Hall & Hdet).
  { intros r Hr. apply (answered_transform r Hacq), Hrows, Hr. }
  assert (vd <> [] -> ids <> []) as Hids'.
  { intros Hvd'. apply Hids. intros ->. apply Hvd'.
    apply (f_equal (@length string)) in Hkeys. rewrite List.length_map in Hkeys.
    destruct vd; [ reflexivity | discriminate ]. }
  assert (Forall (fun kv => exists a, variantAnnotations (variantDetails (snd kv)) = Ok a) vd)
    as Hann.
  { eapply List.Forall_impl; [ | exact Hdet ].
    intros kv (r & Hr & ->). apply (Hrows r Hr). }
  rewrite <- Hkeys.
  assert (String.eqb mode "ALL" || String.eqb mode "MISS" = true \/
          String.eqb mode "ALL" || String.eqb mode "MISS" = false) as [ Hb | Hb ]
    by (destruct (String.eqb mode "ALL" || String.eqb mode "MISS"); auto).
  - destruct (assemble_with_misses rows ids mode vd Hmode Hb Hids' Hacq (Hq Hb) Hall Hann)
      as (vd' & Hadd & Hrest).
    destruct (Hrest []) as (elements & Hassemble & Hels).
    exists elements. split; [ | exact Hels ].
    unfold get_datasets. rewrite Hvd. cbn [bind]. rewrite Hb, Hadd. exact Hassemble.
  - destruct (assemble_without_misses rows ids mode vd [] Hmode Hb Hall Hann)
      as (elements & Hassemble & Hels).
    exists elements. split; [ | exact Hels ].
    unfold get_datasets. rewrite Hvd. cbn [bind]. rewrite Hb. exact Hassemble.
Qed.

(** *** Counting *)

Lemma NoDup_map_filter {A : Type} (f : A -> Z) (p : A -> bool) (xs : list A) :
  List.NoDup (map f xs) -> List.NoDup (map f (List.filter p xs)).
Proof.
  induction xs as [ | x xs IH ]; simpl; intros H; [ constructor | ].
  inversion H as [ | ? ? Hx Hxs ]; subst.
  destruct (p x); simpl; [ constructor | ]; auto.
  intros Hin. apply Hx. apply in_map_iff in Hin. destruct Hin as (y & Hy & Hin).
  apply List.filter_In in Hin. apply in_map_iff. exists y. tauto.
Qed.





Lemma answers_from_table_answered (beacon_dataset : list dataset_row) :
  answers_from_table select_missing beacon_dataset -> missing_answered select_missing.
Proof. intros Hq ids Hne. destruct (Hq ids Hne) as (answer & Ha & _). eauto. Qed.


(** *** The [exists] entry of the response *)

Lemma exists_flags_flagged (entries : list value) :
  Forall (fun d => exists b, flagged b d) entries ->
  exists flags,
    exists_flags entries = Ok flags /\
    (existsb truthy flags = true <->
     exists d, In d entries /\ subscript d "exists" = Ok (VBool true)).
Proof.
  induction 1 as [ | d entries (b & fields & -> & He) _ (flags & Hflags & Hiff) ]; simpl.
  - exists []. split; [ reflexivity | ]. simpl. split; [ discriminate | intros (? & [] & _) ].
  - rewrite He. simpl. rewrite Hflags. simpl. eexists. split; [ reflexivity | ].
    simpl. rewrite orb_true_iff, Hiff. split.
    + intros [Hb | (d & Hd & Hex)].
      * exists (VDict fields). split; [ auto | ]. simpl. rewrite He. congruence.
      * exists d. auto.
    + intros (d & [<- | Hd] & Hex).
      * left. simpl in Hex. rewrite He in Hex. injection Hex as ->. reflexivity.
      * right. exists d. auto.
Qed.

Lemma all_exists_flags_elements (response : list value) :
  Forall (fun element =>
            exists entries, variant_element element entries /\
                            Forall (fun d => exists b, flagged b d) entries) response ->
  exists flags,
    all_exists_flags response = Ok flags /\
    (existsb truthy flags = true <->
     exists element entries d,
       In element response /\
       subscript element "datasetAlleleResponses" = Ok (VList entries) /\
       In d entries /\ subscript d "exists" = Ok (VBool true)).
Proof.
  induction 1 as [ | element response (entries & (dt & an & ho & ->) & Hentries) _
                     (flags & Hflags & Hiff) ]; simpl.
  - exists []. split; [ reflexivity | ]. simpl.
    split; [ discriminate | intros (? & ? & ? & [] & _) ].
  - destruct (exists_flags_flagged entries Hentries) as (fl & Hfl & Hfliff).
    rewrite Hfl. simpl. rewrite Hflags. simpl. eexists. split; [ reflexivity | ].
    rewrite List.existsb_app, orb_true_iff, Hfliff, Hiff. split.
    + intros [(d & Hd & Hex) | (element & l & d & Hin & Hsub & Hd & Hex)].
      * eexists _, entries, d. split; [ left; reflexivity | ]. auto.
      * exists element, l, d. auto.
    + intros (element & l & d & [<- | Hin] & Hsub & Hd & Hex).
      * left. simpl in Hsub. injection Hsub as <-. exists d. auto.
      * right. exists element, l, d. auto.
Qed.

Lemma mode_select_flagged (mode : string) (hits misses : list value) :
  Forall (flagged true) hits -> Forall (flagged false) misses ->
  Forall (fun d => exists b, flagged b d) (mode_select mode hits misses).
Proof.
  intros Hh Hm.
  assert (Forall (fun d => exists b, flagged b d) hits) as Hh'
    by (eapply List.Forall_impl; [ | exact Hh ]; eauto).
  assert (Forall (fun d => exists b, flagged b d) misses) as Hm'
    by (eapply List.Forall_impl; [ | exact Hm ]; eauto).
  unfold mode_select.
  destruct (String.eqb mode "ALL"); [ apply List.Forall_app; auto | ].
  destruct (String.eqb mode "HIT"); [ exact Hh' | ].
  destruct (String.eqb mode "MISS"); [ exact Hm' | constructor ].
Qed.

(** The misses of an element are entries with [exists = False], whatever
    the mode. *)
Lemma element_misses_flagged (ids : list Z) (hits : list hit_row) (mode : string)
  (misses : list value) :
  (if String.eqb mode "ALL" || String.eqb mode "MISS"
   then misses_of (missing_ids ids hits) = Ok misses
   else misses = []) ->
  Forall (flagged false) misses.
Proof.
  destruct (String.eqb mode "ALL" || String.eqb mode "MISS").
  - apply misses_flagged.
  - intros ->. constructor.
Qed.

(** C7, amended. When the connections to the database are acquired, the
    collaborators answer for every hit record (the row of its dataset is
    found, its frequency is [None] or is rounded, the annotation of its
    variant is answered), the look-up of the missing datasets answers under
    ["ALL"] and ["MISS"], and some dataset is visible, [get_datasets]
    answers one element per variant under each of the four modes, no
    element has an [exists] entry of its own, and the one [exists] entry
    of the response is true exactly when some per-dataset entry of some
    element has [exists = True]; under ["NONE"] the per-dataset lists are
    empty, the variants are still there, and the [exists] of the response
    is false. *)
Theorem response_exists_flag (rows : list hit_row) (ids : list Z) (mode : string) :
  acquire = Ok tt ->
  (forall r, In r rows -> answered select_dataset round4 variantAnnotations r) ->
  (mode = "ALL" \/ mode = "MISS" -> missing_answered select_missing) ->
  ids <> [] ->
  known_mode mode ->
  exists response b,
    get_datasets acquire select_dataset select_missing round4 variantAnnotations rows ids mode
    = Ok response /\
    length response = length (variant_order rows) /\
    Forall (fun element => subscript element "exists" = Raise KeyError) response /\
    beacon_exists response = Ok b /\
    (b = true <->
     exists element entries d,
       In element response /\
       subscript element "datasetAlleleResponses" = Ok (VList entries) /\
       In d entries /\ subscript d "exists" = Ok (VBool true)) /\
    (mode = "NONE" ->
     b = false /\
     Forall (fun element =>
               subscript element "datasetAlleleResponses" = Ok (VList [])) response).
Proof.
  intros Hacq Hrows Hq Hids Hmode.
  destruct (get_datasets_elements rows ids mode Hacq Hrows) as (response & Hget & Hels);
    [ | exact (fun _ => Hids) | exact Hmode | ].
  { intros Hb. apply Hq. apply orb_true_iff in Hb.
    destruct Hb as [ Hb | Hb ]; apply String.eqb_eq in Hb; auto. }
  assert (Forall (fun element =>
            exists entries, variant_element element entries /\
                            Forall (fun d => exists b, flagged b d) entries /\
                            (mode = "NONE" -> entries = [])) response) as Hshape.
  { clear Hget.
    induction Hels as [ | v element vs response (hits & misses & Hhits & Hmisses & Hel) _ IH ];
      constructor; [ | exact IH ].
    eexists. split; [ exact Hel | ]. split.
    - apply mode_select_flagged;
        [ exact (hits_flagged _ _ Hhits) | exact (element_misses_flagged _ _ _ _ Hmisses) ].
    - intros ->. reflexivity. }
  destruct (all_exists_flags_elements response) as (flags & Hflags & Hiff).
  { eapply List.Forall_impl; [ | exact Hshape ]. intros e (l & ? & ? & _). eauto. }
  exists response, (existsb truthy flags).
  split; [ exact Hget | ]. split; [ symmetry; exact (List.Forall2_length Hels) | ].
  split; [ | split; [ | split ] ].
  - eapply List.Forall_impl; [ | exact Hshape ].
    intros e (l & (dt & an & ho & ->) & _). reflexivity.
  - unfold beacon_exists. rewrite Hflags. reflexivity.
  - exact Hiff.
  - intros Hnone.
    assert (Forall (fun element =>
              subscript element "datasetAlleleResponses" = Ok (VList [])) response) as Hempty.
    { eapply List.Forall_impl; [ | exact Hshape ].
      intros e (l & (dt & an & ho & ->) & _ & Hl). rewrite (Hl Hnone). reflexivity. }
    split; [ | exact Hempty ].
    destruct (existsb truthy flags) eqn:E; [ | reflexivity ].
    destruct (proj1 Hiff eq_refl) as (element & l & d & Hin & Hsub & Hd & _).
    rewrite List.Forall_forall in Hempty. rewrite (Hempty _ Hin) in Hsub.
    injection Hsub as <-. contradiction.
Qed.

End ReconciliationProperties.

(** ** The reconciliation on example data *)

Lemma example_answered :
  forall r, In r [example_row] ->
            answered example_select_dataset example_round4 example_annotations r.
Proof.
  intros r [ <- | [] ]. unfold answered.
  split; [ eexists; reflexivity | ]. split; [ left; reflexivity | eexists; reflexivity ].
Qed.

Lemma example_answers_from_table : answers_from_table example_select_missing example_table.
Proof. intros ids _. eexists. split; [ reflexivity | apply Permutation_refl ]. Qed.


(** C7, counterexample. One hit record in dataset 1, datasets 1 and 2
    visible: under ["ALL"] and under ["NONE"] the variant is reported by
    an element that has no [exists] entry. *)
Lemma per_variant_exists_counterexample :
  (exists element,
     get_datasets example_acquire example_select_dataset example_select_missing example_round4
       example_annotations [example_row] [1%Z; 2%Z] "ALL" = Ok [element] /\
     subscript element "exists" = Raise KeyError) /\
  (exists element,
     get_datasets example_acquire example_select_dataset example_select_missing example_round4
       example_annotations [example_row] [1%Z; 2%Z] "NONE" = Ok [element] /\
     subscript element "datasetAlleleResponses" = Ok (VList []) /\
     subscript element "exists" = Raise KeyError).
Proof. split; eexists; repeat split. Qed.

(** Under a mode that [filter_exists] does not know, the per-dataset
    entries of the element are [None], and computing the [exists] of the
    response fails on iterating them. *)
Lemma unknown_mode_response :
  exists element,
    get_datasets example_acquire example_select_dataset example_select_missing example_round4
      example_annotations [example_row] [1%Z; 2%Z] "all" = Ok [element] /\
    subscript element "datasetAlleleResponses" = Ok VNone /\
    beacon_exists [element] = Raise TypeError.
Proof. eexists. repeat split. Qed.

Lemma response_exists_flag_witness :
  exists response b,
    get_datasets example_acquire example_select_dataset example_select_missing example_round4
      example_annotations [example_row] [1%Z; 2%Z] "NONE" = Ok response /\
    length response = length (variant_order [example_row]) /\
    Forall (fun element => subscript element "exists" = Raise KeyError) response /\
    beacon_exists response = Ok b /\
    (b = true <->
     exists element entries d,
       In element response /\
       subscript element "datasetAlleleResponses" = Ok (VList entries) /\
       In d entries /\ subscript d "exists" = Ok (VBool true)) /\
    ("NONE" = "NONE" ->
     b = false /\
     Forall (fun element =>
               subscript element "datasetAlleleResponses" = Ok (VList [])) response).
Proof.
  apply (response_exists_flag example_acquire example_select_dataset example_select_missing
           example_round4 example_annotations [example_row] [1%Z; 2%Z] "NONE").
  - reflexivity.
  - exact example_answered.
  - intros [ H | H ]; discriminate.
  - discriminate.
  - right. left. reflexivity.
Defined.

(* ===================================================================== *)
(** * Part III: further properties                                        *)
(* ===================================================================== *)

(** ** [str.split] and [str.join] *)

Lemma concat_cons_char (sep : string) (c : Ascii.ascii) (piece : string)
  (pieces : list string) :
  String.concat sep (String c piece :: pieces)
  = String c (String.concat sep (piece :: pieces)).
Proof. destruct pieces; reflexivity. Qed.

Lemma concat_two (sep x : string) (y : string) (l : list string) :
  String.concat sep (x :: y :: l)
  = String.append x (String.append sep (String.concat sep (y :: l))).
Proof. reflexivity. Qed.

Lemma append_cons (c : Ascii.ascii) (s t : string) :
  String.append (String c s) t = String c (String.append s t).
Proof. reflexivity. Qed.

Lemma prefix_skip (sep : string) (c : Ascii.ascii) (rest : string) :
  String.prefix sep (String c rest) = true -> sep <> "" ->
  String.append sep (skip_chars (String.length sep - 1) rest) = String c rest.
Proof.
  intros Hp Hsep. destruct sep as [ | a sep ]; [ contradiction | ].
  change (String.prefix (String a sep) (String c rest))
    with (if Ascii.ascii_dec a c then String.prefix sep rest else false) in Hp.
  destruct (Ascii.ascii_dec a c) as [ -> | ]; [ | discriminate ].
  rewrite append_cons. f_equal.
  cbn [String.length].
  replace (S (String.length sep) - 1) with (String.length sep) by lia.
  clear Hsep. revert rest Hp. induction sep as [ | b sep IH ]; intros rest Hp.
  - reflexivity.
  - destruct rest as [ | d rest ]; [ discriminate | ].
    change (String.prefix (String b sep) (String d rest))
      with (if Ascii.ascii_dec b d then String.prefix sep rest else false) in Hp.
    destruct (Ascii.ascii_dec b d) as [ -> | ]; [ | discriminate ].
    rewrite append_cons. cbn [String.length skip_chars]. f_equal. apply IH, Hp.
Qed.

Lemma concat_split_from (sep : string) (n : nat) (s : string) :
  sep <> "" -> String.concat sep (split_from sep n s) = skip_chars n s.
Proof.
  intros Hsep. revert n. induction s as [ | c s IH ]; intros n.
  - destruct n; reflexivity.
  - destruct n as [ | n ]; cbn [split_from skip_chars]; [ | apply IH ].
    destruct (String.prefix sep (String c s)) eqn:Hp.
    + pose proof (split_from_nonempty sep (String.length sep - 1) s) as Hne.
      specialize (IH (String.length sep - 1)).
      destruct (split_from sep (String.length sep - 1) s) as [ | x xs ]; [ contradiction | ].
      rewrite concat_two, IH. change (String.append "" ?x) with x.
      apply prefix_skip; assumption.
    + pose proof (split_from_nonempty sep 0 s) as Hne. specialize (IH 0).
      destruct (split_from sep 0 s) as [ | x xs ]; [ contradiction | ].
      rewrite concat_cons_char, IH. reflexivity.
Qed.

(** Joining the pieces of a split with the separator gives the string
    back. *)
Lemma concat_split (sep s : string) :
  sep <> "" -> String.concat sep (str_split s sep) = s.
Proof. intros Hsep. apply (concat_split_from sep 0 s Hsep). Qed.

Lemma split_from_skip (sep t x : string) :
  split_from sep (String.length t) (String.append t x) = split_from sep 0 x.
Proof.
  induction t as [ | c t IH ]; [ reflexivity | ].
  rewrite append_cons. cbn [String.length split_from].
  destruct t; exact IH.
Qed.

Lemma prefix_append (s x : string) : String.prefix s (String.append s x) = true.
Proof.
  induction s as [ | a s IH ]; [ destruct x; reflexivity | ].
  rewrite append_cons.
  change (String.prefix (String a s) (String a (String.append s x)))
    with (if Ascii.ascii_dec a a then String.prefix s (String.append s x) else false).
  destruct (Ascii.ascii_dec a a); [ exact IH | contradiction ].
Qed.

Lemma prefix_other_char (a c : Ascii.ascii) (sep s : string) :
  Ascii.eqb a c = false -> String.prefix (String a sep) (String c s) = false.
Proof.
  intros H.
  change (String.prefix (String a sep) (String c s))
    with (if Ascii.ascii_dec a c then String.prefix sep s else false).
  destruct (Ascii.ascii_dec a c) as [ -> | ]; [ | reflexivity ].
  rewrite Ascii.eqb_refl in H. discriminate.
Qed.

(** Splitting a joined list gives the list back, when the list is not
    empty and no piece holds the first character of the separator. *)
Lemma split_concat (a : Ascii.ascii) (sep : string) (pieces : list string) :
  pieces <> [] ->
  Forall (fun p => char_in a p = false) pieces ->
  str_split (String.concat (String a sep) pieces) (String a sep) = pieces.
Proof.
  unfold str_split. intros Hne Hall. revert Hne.
  induction Hall as [ | p ps Hp _ IH ]; intros Hne.
  - contradiction.
  - clear Hne. induction p as [ | c p IHp ].
    + destruct ps as [ | q qs ]; [ reflexivity | ].
      rewrite concat_two. change (String.append "" ?x) with x.
      rewrite append_cons. cbn [split_from].
      rewrite <- append_cons, prefix_append.
      cbn [String.length].
      replace (S (String.length sep) - 1) with (String.length sep) by lia.
      rewrite split_from_skip, IH; [ reflexivity | discriminate ].
    + cbn [char_in] in Hp. apply orb_false_iff in Hp. destruct Hp as [Hc Hp].
      rewrite concat_cons_char. cbn [split_from].
      rewrite (prefix_other_char _ _ _ _ Hc), (IHp Hp). reflexivity.
Qed.

(** The pieces of a split on one character do not hold that character. *)
Lemma split_pieces_char (a : Ascii.ascii) (s : string) :
  Forall (fun p => char_in a p = false) (str_split s (String a "")).
Proof.
  unfold str_split. induction s as [ | c s IH ]; [ repeat constructor | ].
  cbn [split_from].
  change (String.prefix (String a "") (String c s))
    with (if Ascii.ascii_dec a c then String.prefix "" s else false).
  destruct (Ascii.ascii_dec a c) as [ -> | Hne ].
  - assert (String.prefix "" s = true) as -> by (destruct s; reflexivity).
    constructor; [ reflexivity | exact IH ].
  - destruct (split_from (String a "") 0 s) as [ | piece pieces ];
      [ repeat constructor; cbn; rewrite orb_false_r; apply Ascii.eqb_neq; exact Hne | ].
    inversion IH as [ | ? ? Hpiece Hpieces ]; subst.
    constructor; [ | exact Hpieces ].
    cbn [char_in]. rewrite Hpiece, orb_false_r. apply Ascii.eqb_neq. exact Hne.
Qed.

(** X1. The identifier of the beacon is the host name with its labels in
    reverse order; reversing twice gives the host name back. *)
Theorem beacon_id_involutive (host : string) : beacon_id (beacon_id host) = host.
Proof.
  unfold beacon_id.
  rewrite (split_concat "."%char "" (rev (str_split host "."))).
  - rewrite rev_involutive. apply concat_split. discriminate.
  - intros H. apply (f_equal (@rev string)) in H. rewrite rev_involutive in H.
    exact (split_from_nonempty _ _ _ H).
  - apply List.Forall_rev. apply split_pieces_char.
Qed.

(** ** Decimal strings *)

Lemma pretty_N_char_not_comma (d : N) : Ascii.eqb "," (pretty_N_char d) = false.
Proof. unfold pretty_N_char. repeat case_match; reflexivity. Qed.

Lemma pretty_N_go_comma (x : N) (s : string) :
  char_in "," (pretty_N_go x s) = char_in "," s.
Proof.
  revert s. induction (N.lt_wf_0 x) as [x _ IH]; intros s.
  destruct (decide (x = 0)%N) as [ -> | Hx ]; [ reflexivity | ].
  rewrite pretty_N_go_step by lia.
  rewrite IH by (apply N.div_lt; lia).
  cbn [char_in]. rewrite pretty_N_char_not_comma. reflexivity.
Qed.

Lemma pretty_N_go_not_empty (x : N) (s : string) : s <> "" -> pretty_N_go x s <> "".
Proof.
  revert s. induction (N.lt_wf_0 x) as [x _ IH]; intros s Hs.
  destruct (decide (x = 0)%N) as [ -> | Hx ]; [ exact Hs | ].
  rewrite pretty_N_go_step by lia. apply IH; [ apply N.div_lt; lia | discriminate ].
Qed.

Lemma pretty_N_comma (x : N) : char_in "," (pretty x) = false.
Proof.
  unfold pretty, pretty_N. destruct (decide (x = 0)%N); [ reflexivity | ].
  apply pretty_N_go_comma.
Qed.

Lemma pretty_N_not_empty (x : N) : pretty x <> "".
Proof.
  unfold pretty, pretty_N. destruct (decide (x = 0)%N) as [ | Hx ]; [ discriminate | ].
  rewrite pretty_N_go_step by lia. apply pretty_N_go_not_empty. discriminate.
Qed.

Lemma pretty_Z_comma (z : Z) : char_in "," (pretty z) = false.
Proof.
  destruct z as [ | p | p ]; [ reflexivity | apply (pretty_N_comma (N.pos p)) | ].
  change (pretty (Z.neg p)) with (String "-" (pretty (N.pos p))).
  cbn [char_in]. apply (pretty_N_comma (N.pos p)).
Qed.

Lemma pretty_Z_not_empty (z : Z) : pretty z <> "".
Proof.
  destruct z as [ | p | p ]; [ discriminate | apply (pretty_N_not_empty (N.pos p)) | ].
  discriminate.
Qed.

(** X2. The string of dataset identifiers that the handler builds splits,
    on the comma, into the decimal strings of the identifiers, in order;
    the string of no identifier is empty and splits into one empty piece.
    So two lists with the same string are the same list. *)
Theorem dataset_ids_string_split (ids : list Z) :
  (ids <> [] -> str_split (dataset_ids_string ids) "," = map pretty ids) /\
  str_split (dataset_ids_string []) "," = [""] /\
  (forall ids', dataset_ids_string ids = dataset_ids_string ids' -> ids = ids').
Proof.
  assert (forall l : list Z, l <> [] ->
            str_split (dataset_ids_string l) "," = map pretty l) as Hsplit.
  { intros l Hl. unfold dataset_ids_string. apply split_concat.
    - destruct l; [ contradiction | discriminate ].
    - apply List.Forall_forall. intros p Hp. apply in_map_iff in Hp.
      destruct Hp as (z & <- & _). apply pretty_Z_comma. }
  split; [ apply Hsplit | ]. split; [ reflexivity | ].
  assert (forall l : list Z, l <> [] -> dataset_ids_string l <> "") as Hne.
  { intros [ | z l ] Hl; [ contradiction | ]. unfold dataset_ids_string. cbn [map].
    pose proof (pretty_Z_not_empty z) as Hz.
    destruct (map pretty l); cbn [String.concat]; [ exact Hz | ].
    destruct (pretty z); [ contradiction | discriminate ]. }
  intros ids' Heq.
  destruct ids as [ | z l ], ids' as [ | z' l' ]; try reflexivity.
  - exfalso. apply (Hne (z' :: l')); [ discriminate | symmetry; exact Heq ].
  - exfalso. apply (Hne (z :: l)); [ discriminate | exact Heq ].
  - apply (f_equal (fun s => str_split s ",")) in Heq.
    rewrite !Hsplit in Heq by discriminate.
    revert Heq. generalize (z :: l) (z' :: l'). clear.
    induction l as [ | x l IH ]; intros [ | y l' ] H; try discriminate; [ reflexivity | ].
    cbn [map] in H. injection H as Hx Hl. apply (inj pretty) in Hx. subst.
    f_equal. apply IH, Hl.
Qed.

Lemma dataset_ids_string_split_witness :
  str_split (dataset_ids_string [12%Z; 7%Z]) "," = map pretty [12%Z; 7%Z].
Proof.
  apply (proj1 (dataset_ids_string_split [12%Z; 7%Z])). discriminate.
Defined.

(** ** [create_prepstmt_variables] *)

Lemma placeholder_comma (i : nat) :
  char_in "," (String.append "$" (pretty (i + 1))) = false.
Proof. cbn. apply (pretty_N_comma (N.of_nat (i + 1))). Qed.

(** X3. For a positive count the answer splits, on [", "], into the
    placeholders [$1], [$2], ... up to the count, which are pairwise
    distinct; for the count zero the answer is the empty string. *)
Theorem create_prepstmt_variables_split (value : nat) :
  value <> 0 ->
  str_split (create_prepstmt_variables value) ", "
  = map (fun element => String.append "$" (pretty (element + 1))) (seq 0 value) /\
  length (str_split (create_prepstmt_variables value) ", ") = value /\
  List.NoDup (str_split (create_prepstmt_variables value) ", ").
Proof.
  intros Hv.
  assert (str_split (create_prepstmt_variables value) ", "
          = map (fun element => String.append "$" (pretty (element + 1))) (seq 0 value))
    as Hsplit.
  { unfold create_prepstmt_variables. apply split_concat.
    - destruct value; [ contradiction | discriminate ].
    - apply List.Forall_forall. intros p Hp. apply in_map_iff in Hp.
      destruct Hp as (i & <- & _). apply placeholder_comma. }
  rewrite Hsplit. split; [ reflexivity | ]. split.
  - rewrite List.length_map, List.length_seq. reflexivity.
  - generalize (List.seq_NoDup value 0). generalize (seq 0 value).
    induction l as [ | i l IH ]; intros Hnd; [ constructor | ].
    inversion Hnd as [ | ? ? Hi Hl ]; subst. cbn [map]. constructor; [ | auto ].
    intros Hin. apply in_map_iff in Hin. destruct Hin as (j & Hj & Hjl).
    injection Hj as Hj. change (pretty (j + 1) = pretty (i + 1)) in Hj.
    apply (inj (pretty (A:=nat))) in Hj.
    assert (j = i) as -> by lia. contradiction.
Qed.

Lemma create_prepstmt_variables_split_witness :
  str_split (create_prepstmt_variables 3) ", " = ["$1"; "$2"; "$3"] /\
  length (str_split (create_prepstmt_variables 3) ", ") = 3 /\
  List.NoDup (str_split (create_prepstmt_variables 3) ", ").
Proof. apply (create_prepstmt_variables_split 3). discriminate. Defined.

(** ** [filter_response]: what the output is made of *)

Section ResponseFilterPruning.

Variable access_levels_dict : dict.
Variable accessible_datasets : list string.
Variable user_levels : list string.
Variable field2access : list (string * string).

Local Abbreviation filter :=
  (filter_response access_levels_dict accessible_datasets user_levels field2access).
Local Abbreviation action_of := (field_action access_levels_dict user_levels field2access).
Local Abbreviation kept_of := (fields_kept access_levels_dict user_levels field2access).
Local Abbreviation shown := (element_shown accessible_datasets).
Local Abbreviation tr := (translate field2access).
Local Abbreviation same_field :=
  (fun kv' kv : string * value => fst kv' = fst kv /\ pruned (snd kv') (snd kv)).

Lemma kept_pruned (pk : option string) (d kept : dict) :
  Forall (fun kv => is_container (snd kv) = true ->
                    forall pk' out, filter (snd kv) pk' = Ok out -> pruned out (snd kv)) d ->
  kept_of filter pk d = Ok kept ->
  sublist_rel same_field kept d.
Proof.
  intros HP. revert kept. induction HP as [ | [k v] d Hv _ IH ]; intros kept H; simpl in H.
  - injection H as <-. constructor.
  - bind_inv H. bind_inv H. injection H as <-. specialize (IH _ Hstep0).
    unfold field_result in Hstep. bind_inv Hstep.
    destruct a1 as [ | tk | ].
    + injection Hstep as <-. apply sublist_keep; [ split; [ reflexivity | apply pruned_same ] | exact IH ].
    + bind_inv Hstep. injection Hstep as <-.
      apply field_action_Descend in Hstep1. destruct Hstep1 as (Hc & _ & _).
      apply sublist_keep; [ split; [ reflexivity | exact (Hv Hc _ _ Hstep2) ] | exact IH ].
    + injection Hstep as <-. apply sublist_drop, IH.
Qed.

Lemma shown_pruned (pk : option string) (l subs : list value) :
  Forall (fun e => is_container e = true ->
                   forall pk' out, filter e pk' = Ok out -> pruned out e) l ->
  traverse (fun e => filter e pk) (List.filter shown l) = Ok subs ->
  sublist_rel pruned subs l.
Proof.
  intros HP. revert subs. induction HP as [ | e l He _ IH ]; intros subs H; simpl in H.
  - injection H as <-. constructor.
  - destruct (shown e) eqn:Hs.
    + simpl in H. bind_inv H. bind_inv H. injection H as <-.
      apply sublist_keep; [ | apply IH; assumption ].
      apply (He (ltac:(destruct e; try discriminate; reflexivity)) _ _ Hstep).
    + apply sublist_drop, IH, H.
Qed.

(** X4. The answer for a mapping or a list is the response with fields
    and list elements left out: [filter_response] adds no field, renames
    none, changes no order and no value that it keeps. *)
Theorem filter_response_prunes (r : value) :
  well_formed r = true ->
  is_container r = true ->
  forall (pk : option string) (out : value), filter r pk = Ok out -> pruned out r.
Proof.
  induction r as [ | | | | | l IH | d IH ] using value_ind; intros Hwf Hc pk out H;
    try discriminate.
  - rewrite (filter_list _ _ _ _) in H. bind_inv H. injection H as <-.
    apply pruned_list. apply (shown_pruned pk); [ | assumption ].
    simpl in Hwf. rewrite forallb_forall in Hwf.
    rewrite List.Forall_forall in IH. apply List.Forall_forall.
    intros e He Hce pk' out' Hout. apply (IH e He (Hwf e He) Hce pk' out' Hout).
  - simpl in Hwf. apply andb_true_iff in Hwf. destruct Hwf as [Hu Hwf].
    destruct (filter_dict_unique _ _ _ _ _ _ _ Hu H) as (kept & Hk & -> & _).
    apply pruned_dict. apply (kept_pruned pk); [ | assumption ].
    rewrite forallb_forall in Hwf.
    rewrite List.Forall_forall in IH. apply List.Forall_forall.
    intros kv Hkv Hce pk' out' Hout. apply (IH kv Hkv (Hwf kv Hkv) Hce pk' out' Hout).
Qed.

(** The fields of the answer are fields of the response. *)
Lemma sublist_rel_In {A : Type} (R : A -> A -> Prop) (sub l : list A) (y : A) :
  sublist_rel R sub l -> In y sub -> exists x, In x l /\ R y x.
Proof.
  induction 1 as [ | x sub l _ IH | y' x sub l Hr _ IH ]; intros Hin.
  - contradiction.
  - destruct (IH Hin) as (x0 & ? & ?). exists x0. split; [ right | ]; assumption.
  - destruct Hin as [ <- | Hin ].
    + exists x. split; [ left; reflexivity | assumption ].
    + destruct (IH Hin) as (x0 & ? & ?). exists x0. split; [ right | ]; assumption.
Qed.

Lemma sublist_rel_length {A : Type} (R : A -> A -> Prop) (sub l : list A) :
  sublist_rel R sub l -> length sub <= length l.
Proof. induction 1; simpl; lia. Qed.

End ResponseFilterPruning.

Lemma filter_response_prunes_witness :
  pruned (VDict [("id", VStr "b"); ("datasets", VList [VDict [("id", VStr "d")]])])
         (VDict [("id", VStr "b");
                 ("datasets", VList [VDict [("id", VStr "d"); ("name", VStr "n")]])]).
Proof.
  apply (filter_response_prunes example_policy [] ["PUBLIC"] example_translation
           (VDict [("id", VStr "b");
                   ("datasets", VList [VDict [("id", VStr "d"); ("name", VStr "n")]])])
           eq_refl eq_refl None).
  vm_compute. reflexivity.
Defined.

(** ** [filter_response]: fewer tiers, fewer datasets *)

Section ResponseFilterMonotone.

Variable access_levels_dict : dict.
Variable field2access : list (string * string).
Variables accessible_datasets accessible_datasets' : list string.
Variables user_levels user_levels' : list string.
Hypothesis fewer_datasets : incl accessible_datasets accessible_datasets'.
Hypothesis fewer_levels : incl user_levels user_levels'.

Local Abbreviation filter :=
  (filter_response access_levels_dict accessible_datasets user_levels field2access).
Local Abbreviation filter' :=
  (filter_response access_levels_dict accessible_datasets' user_levels' field2access).
Local Abbreviation same_field :=
  (fun kv' kv : string * value => fst kv' = fst kv /\ pruned (snd kv') (snd kv)).

Lemma str_in_incl (v : value) (l l' : list string) :
  incl l l' -> str_in v l = true -> str_in v l' = true.
Proof.
  intros Hincl H. apply str_in_In in H. destruct H as (s & -> & Hs).
  apply str_in_In. exists s. split; [ reflexivity | apply Hincl, Hs ].
Qed.

Lemma field_action_fewer_levels (pk : option string) (k : string) (v : value)
  (act' : action) :
  field_action access_levels_dict user_levels' field2access pk k v = Ok act' ->
  exists act,
    field_action access_levels_dict user_levels field2access pk k v = Ok act /\
    (act = act' \/ act = Omit).
Proof.
  unfold field_action.
  destruct (match parent_scope pk with
            | Some p => subscript (VDict access_levels_dict) p
            | None => Ok (VDict access_levels_dict)
            end) as [ spec | e ]; [ | discriminate ].
  cbn [bind].
  destruct (if dict_has access_levels_dict (translate field2access k) then Ok false
            else ks <- keys spec ;;
                 Ok (negb (existsb (String.eqb (translate field2access k)) ks)))
    as [ [ | ] | e ]; [ | | discriminate ]; cbn [bind].
  - intros [= <-]. eauto.
  - destruct (is_container v && dict_has access_levels_dict (translate field2access k)).
    + destruct (subscript (VDict access_levels_dict) (translate field2access k))
        as [ scope | e ]; [ | discriminate ]; cbn [bind].
      destruct (subscript scope "accessLevelSummary") as [ summary | e ];
        [ | discriminate ]; cbn [bind].
      destruct (parent_scope pk) as [ p | ].
      * destruct (subscript (VDict access_levels_dict) p) as [ parent | e ];
          [ | discriminate ]; cbn [bind].
        destruct (subscript parent k) as [ level | e ]; [ | discriminate ]; cbn [bind].
        destruct (str_in summary user_levels) eqn:E1, (str_in level user_levels) eqn:E2;
          cbn [andb]; intros H; eauto.
        rewrite (str_in_incl _ _ _ fewer_levels E1), (str_in_incl _ _ _ fewer_levels E2) in H.
        eauto.
      * cbn [bind]. rewrite !andb_true_r.
        destruct (str_in summary user_levels) eqn:E1; intros H; eauto.
        rewrite (str_in_incl _ _ _ fewer_levels E1) in H. eauto.
    + destruct (match parent_scope pk with
                | Some p =>
                    parent <- subscript (VDict access_levels_dict) p ;;
                    subscript parent (translate field2access k)
                | None => subscript (VDict access_levels_dict) (translate field2access k)
                end) as [ level | e ]; [ | discriminate ]; cbn [bind].
      destruct (str_in level user_levels) eqn:E; intros H; eauto.
      rewrite (str_in_incl _ _ _ fewer_levels E) in H. eauto.
Qed.

Lemma shown_fewer_datasets (e : value) :
  element_shown accessible_datasets e = true -> element_shown accessible_datasets' e = true.
Proof.
  destruct e; try discriminate. unfold element_shown, dataset_shown.
  rewrite !orb_true_iff. intros [ H | H ]; [ left; exact H | right ].
  apply (str_in_incl _ _ _ fewer_datasets H).
Qed.

Lemma kept_fewer (pk : option string) (d kept' : dict) :
  Forall (fun kv => forall pk' out', filter' (snd kv) pk' = Ok out' ->
                    exists out, filter (snd kv) pk' = Ok out /\ pruned out out') d ->
  fields_kept access_levels_dict user_levels' field2access filter' pk d = Ok kept' ->
  exists kept,
    fields_kept access_levels_dict user_levels field2access filter pk d = Ok kept /\
    sublist_rel same_field kept kept'.
Proof.
  intros HP. revert kept'. induction HP as [ | [k v] d Hv _ IH ]; intros kept' H; simpl in H.
  - injection H as <-. exists []. split; [ reflexivity | constructor ].
  - bind_inv H. bind_inv H. injection H as <-.
    destruct (IH _ Hstep0) as (kept & Hkept & Hsub). clear IH.
    unfold field_result in Hstep. bind_inv Hstep.
    destruct (field_action_fewer_levels _ _ _ _ Hstep1) as (act & Hact & Hcase).
    simpl. unfold field_result. rewrite Hact. cbn [bind].
    destruct Hcase as [ -> | -> ].
    + destruct a1 as [ | tk | ].
      * injection Hstep as <-. cbn [bind]. rewrite Hkept. cbn [bind].
        eexists. split; [ reflexivity | ].
        apply sublist_keep; [ split; [ reflexivity | apply pruned_same ] | exact Hsub ].
      * bind_inv Hstep. injection Hstep as <-.
        destruct (Hv _ _ Hstep2) as (sub & Hsubv & Hp). simpl in Hsubv.
        rewrite Hsubv. cbn [bind]. rewrite Hkept. cbn [bind].
        eexists. split; [ reflexivity | ].
        apply sublist_keep; [ split; [ reflexivity | exact Hp ] | exact Hsub ].
      * injection Hstep as <-. cbn [bind]. rewrite Hkept. cbn [bind].
        eexists. split; [ reflexivity | exact Hsub ].
    + cbn [bind]. rewrite Hkept. cbn [bind]. eexists. split; [ reflexivity | ].
      destruct a; [ apply sublist_drop | ]; exact Hsub.
Qed.

Lemma shown_fewer (pk : option string) (l subs' : list value) :
  Forall (fun e => forall pk' out', filter' e pk' = Ok out' ->
                   exists out, filter e pk' = Ok out /\ pruned out out') l ->
  traverse (fun e => filter' e pk) (List.filter (element_shown accessible_datasets') l)
  = Ok subs' ->
  exists subs,
    traverse (fun e => filter e pk) (List.filter (element_shown accessible_datasets) l)
    = Ok subs /\
    sublist_rel pruned subs subs'.
Proof.
  intros HP. revert subs'. induction HP as [ | e l He _ IH ]; intros subs' H; simpl in H.
  - injection H as <-. exists []. split; [ reflexivity | constructor ].
  - cbn [List.filter].
    destruct (element_shown accessible_datasets e) eqn:Hs.
    + rewrite (shown_fewer_datasets _ Hs) in H. simpl in H.
      bind_inv H. bind_inv H. injection H as <-.
      destruct (IH _ Hstep0) as (subs & Hsubs & Hrel).
      destruct (He _ _ Hstep) as (sub & Hsub & Hp).
      simpl. rewrite Hsub. cbn [bind]. rewrite Hsubs. cbn [bind].
      eexists. split; [ reflexivity | apply sublist_keep; assumption ].
    + destruct (element_shown accessible_datasets' e).
      * simpl in H. bind_inv H. bind_inv H. injection H as <-.
        destruct (IH _ Hstep0) as (subs & Hsubs & Hrel).
        exists subs. split; [ assumption | apply sublist_drop; assumption ].
      * apply IH, H.
Qed.

(** X5. Filtering with fewer tiers and fewer accessible datasets: when
    the richer call answers, so does the poorer one, and its answer is the
    richer answer with fields and list elements left out. No field and no
    element is ever gained by losing a tier or a dataset. *)
Theorem filter_response_fewer_rights (r : value) :
  well_formed r = true ->
  forall (pk : option string) (out' : value),
    filter' r pk = Ok out' ->
    exists out, filter r pk = Ok out /\ pruned out out'.
Proof.
  induction r as [ | | | | | l IH | d IH ] using value_ind; intros Hwf pk out' H;
    try (injection H as <-; eexists; split; [ reflexivity | apply pruned_same ]).
  - rewrite (filter_list _ _ _ _) in H. bind_inv H. injection H as <-.
    simpl in Hwf. rewrite forallb_forall in Hwf. rewrite List.Forall_forall in IH.
    destruct (shown_fewer pk l a) as (subs & Hsubs & Hrel); [ | assumption | ].
    { apply List.Forall_forall. intros e He. apply (IH e He (Hwf e He)). }
    rewrite (filter_list _ _ _ _). simpl in Hsubs. rewrite Hsubs. cbn [bind].
    eexists. split; [ reflexivity | apply pruned_list, Hrel ].
  - simpl in Hwf. apply andb_true_iff in Hwf. destruct Hwf as [Hu Hwf].
    destruct (filter_dict_unique _ _ _ _ _ _ _ Hu H) as (kept' & Hk' & -> & _).
    rewrite forallb_forall in Hwf. rewrite List.Forall_forall in IH.
    destruct (kept_fewer pk d kept') as (kept & Hk & Hrel); [ | assumption | ].
    { apply List.Forall_forall. intros kv Hkv. apply (IH kv Hkv (Hwf kv Hkv)). }
    rewrite (filter_dict _ _ _ _). simpl in Hk. rewrite Hk. cbn [bind].
    destruct (kept_keys _ _ _ _ _ _ _ Hk) as [_ Hku].
    rewrite set_all_unique by (simpl; auto).
    eexists. split; [ reflexivity | apply pruned_dict, Hrel ].
Qed.

End ResponseFilterMonotone.

Lemma filter_response_fewer_rights_witness :
  exists out,
    filter_response example_policy ["ds1"] ["PUBLIC"] example_translation
      (VDict [("id", VStr "b");
              ("datasets",
               VList [VDict [("id", VStr "d"); ("name", VStr "n"); ("datasetId", VStr "ds2")];
                      VDict [("id", VStr "e"); ("name", VStr "m")]])])
      None = Ok out /\
    pruned out
      (VDict [("id", VStr "b");
              ("datasets",
               VList [VDict [("id", VStr "d"); ("name", VStr "n"); ("datasetId", VStr "ds2")];
                      VDict [("id", VStr "e"); ("name", VStr "m")]])]).
Proof.
  assert (incl ["ds1"] ["ds1"; "ds2"]) as Hd by (intros x [ <- | [] ]; simpl; auto).
  assert (incl ["PUBLIC"] ["PUBLIC"; "REGISTERED"]) as Hl
    by (intros x [ <- | [] ]; simpl; auto).
  apply (filter_response_fewer_rights example_policy example_translation
           ["ds1"] ["ds1"; "ds2"] ["PUBLIC"] ["PUBLIC"; "REGISTERED"] Hd Hl
           (VDict [("id", VStr "b");
                   ("datasets",
                    VList [VDict [("id", VStr "d"); ("name", VStr "n");
                                  ("datasetId", VStr "ds2")];
                           VDict [("id", VStr "e"); ("name", VStr "m")]])])
           eq_refl None).
  vm_compute. reflexivity.
Defined.

(** ** [filter_response]: no tier, and lists without mappings *)

Section ResponseFilterEdges.

Variable access_levels_dict : dict.
Variable accessible_datasets : list string.
Variable field2access : list (string * string).

Lemma str_in_nil (v : value) : str_in v [] = false.
Proof. destruct v; reflexivity. Qed.

Lemma field_action_no_tier (pk : option string) (k : string) (v : value) (act : action) :
  field_action access_levels_dict [] field2access pk k v = Ok act ->
  act = if unmodelled access_levels_dict field2access pk k then Pass else Omit.
Proof.
  unfold field_action, unmodelled. intros H. bind_inv H. bind_inv H.
  assert (a0 = negb (dict_has access_levels_dict (translate field2access k)) &&
               match parent_scope pk with
               | Some p =>
                   match dict_get access_levels_dict p with
                   | Some (VDict scope) => negb (dict_has scope (translate field2access k))
                   | _ => false
                   end
               | None => true
               end) as <-.
  { destruct (dict_has access_levels_dict (translate field2access k)) eqn:Hh.
    - injection Hstep0 as <-. reflexivity.
    - bind_inv Hstep0. injection Hstep0 as <-. cbn [negb andb].
      destruct (parent_scope pk) as [ p | ].
      + simpl in Hstep. destruct (dict_get access_levels_dict p) as [ x | ];
          [ | discriminate ]. injection Hstep as <-.
        destruct x; try discriminate. injection Hstep1 as <-.
        rewrite dict_has_keys. reflexivity.
      + injection Hstep as <-. injection Hstep1 as <-.
        rewrite <- dict_has_keys, Hh. reflexivity. }
  destruct a0; [ injection H as <-; reflexivity | ].
  destruct (is_container v && dict_has access_levels_dict (translate field2access k)).
  - bind_inv H. bind_inv H. bind_inv H. rewrite str_in_nil in H. injection H as <-.
    reflexivity.
  - bind_inv H. rewrite str_in_nil in H. injection H as <-. reflexivity.
Qed.

(** X6. A caller with no tier at all gets, of a mapping, exactly the
    fields that the policy does not model, each with its value: every
    modelled field is withheld, whatever its tier. *)
Theorem filter_response_no_tier (pk : option string) (d : dict) (out : value) :
  unique_keys (map fst d) = true ->
  filter_response access_levels_dict accessible_datasets [] field2access (VDict d) pk
  = Ok out ->
  out = VDict (List.filter
                 (fun kv => unmodelled access_levels_dict field2access pk (fst kv)) d).
Proof.
  intros Hu H.
  destruct (filter_dict_unique _ _ _ _ _ _ _ Hu H) as (kept & Hk & -> & _).
  f_equal. clear Hu H. revert kept Hk.
  induction d as [ | [k v] d IH ]; intros kept H; simpl in H.
  - injection H as <-. reflexivity.
  - bind_inv H. bind_inv H. injection H as <-.
    rewrite (IH _ Hstep0). unfold field_result in Hstep. bind_inv Hstep.
    apply field_action_no_tier in Hstep1. subst a1. cbn [List.filter fst].
    destruct (unmodelled access_levels_dict field2access pk k);
      injection Hstep as <-; reflexivity.
Qed.

Variable user_levels : list string.

Local Abbreviation filter :=
  (filter_response access_levels_dict accessible_datasets user_levels field2access).

Lemma filter_list_no_mapping (pk : option string) (l : list value) :
  forallb (fun e => negb (is_dict e)) l = true -> filter (VList l) pk = Ok (VList []).
Proof.
  intros Hl. rewrite (filter_list _ _ _ _).
  assert (List.filter (element_shown accessible_datasets) l = []) as ->; [ | reflexivity ].
  induction l as [ | e l IH ]; [ reflexivity | ].
  simpl in Hl. apply andb_true_iff in Hl. destruct Hl as [He Hl].
  cbn [List.filter]. destruct e; try discriminate; simpl; auto.
Qed.

(** X7. The elements of a list that are not mappings are lost: a field
    whose translated key names a scope of the policy and whose value is a
    list of strings, numbers or lists is, in the answer, the empty list or
    absent, never the list itself. *)
Theorem filter_response_list_of_scalars (pk : option string) (d : dict) (k : string)
  (l : list value) (out : value) :
  unique_keys (map fst d) = true ->
  In (k, VList l) d ->
  forallb (fun e => negb (is_dict e)) l = true ->
  dict_has access_levels_dict (translate field2access k) = true ->
  filter (VDict d) pk = Ok out ->
  exists kept, out = VDict kept /\
    (dict_get kept k = Some (VList []) \/ dict_get kept k = None).
Proof.
  intros Hu Hin Hl Hh H.
  destruct (filter_dict_unique _ _ _ _ _ _ _ Hu H) as (kept & Hk & -> & _).
  exists kept. split; [ reflexivity | ].
  destruct (kept_field _ _ _ _ _ _ _ _ _ Hu Hk Hin) as (act & Hact & Hres).
  destruct (field_action_subtree _ _ _ _ k (VList l) _ eq_refl Hh Hact)
    as (own & parent & _ & _ & ->).
  destruct (_ && _).
  - destruct Hres as (sub & Hsub & Hget). left.
    rewrite filter_list_no_mapping in Hsub by assumption. injection Hsub as <-. exact Hget.
  - right. exact Hres.
Qed.

End ResponseFilterEdges.

Lemma filter_response_no_tier_witness :
  VDict [("id", VStr "b")]
  = VDict (List.filter
             (fun kv => unmodelled example_policy example_translation None (fst kv))
             [("id", VStr "b"); ("datasets", VList [])]).
Proof.
  apply (filter_response_no_tier example_policy [] example_translation None
           [("id", VStr "b"); ("datasets", VList [])] (VDict [("id", VStr "b")])
           eq_refl).
  vm_compute. reflexivity.
Defined.

Lemma filter_response_list_of_scalars_witness :
  exists kept,
    VDict [("id", VStr "b"); ("datasets", VList [])] = VDict kept /\
    (dict_get kept "datasets" = Some (VList []) \/ dict_get kept "datasets" = None).
Proof.
  apply (filter_response_list_of_scalars example_policy [] example_translation ["PUBLIC"]
           None [("id", VStr "b"); ("datasets", VList [VStr "EGAD1"; VStr "EGAD2"])]
           "datasets" [VStr "EGAD1"; VStr "EGAD2"]
           (VDict [("id", VStr "b"); ("datasets", VList [])])
           eq_refl).
  - simpl. auto.
  - reflexivity.
  - reflexivity.
  - vm_compute. reflexivity.
Defined.

(** ** [access_resolution]: when it fails, what it grants *)

Lemma is_True_iff (v : value) : is_True v = true <-> v = VBool true.
Proof. destruct v as [ | [ | ] | | | | | ]; simpl; split; congruence. Qed.

Lemma nonempty_iff {A : Type} (l : list A) : nonempty l = true <-> l <> [].
Proof. destruct l; simpl; split; congruence. Qed.

Lemma nonempty_false {A : Type} (l : list A) : nonempty l = false <-> l = [].
Proof. destruct l; simpl; split; congruence. Qed.

Lemma token_permissions_Some (t : token) (tp : list Z) :
  token_permissions t = Some tp <-> permissions t = Some tp /\ tp <> [].
Proof.
  unfold token_permissions. destruct (permissions t) as [ [ | p ps ] | ].
  - split; [ discriminate | intros [[= <-] H]; contradiction ].
  - split; [ intros [= <-]; split; [ reflexivity | discriminate ] | intros [[= <-] _]; reflexivity ].
  - split; [ discriminate | intros [[=] _] ].
Qed.

Lemma token_permissions_member (t : token) (x : Z) :
  (exists ps, permissions t = Some ps /\ In x ps) <->
  (exists tp, token_permissions t = Some tp /\ In x tp).
Proof.
  split.
  - intros (ps & Hps & Hin). exists ps. split; [ | assumption ].
    apply token_permissions_Some. split; [ assumption | ].
    destruct ps; [ contradiction | discriminate ].
  - intros (tp & Htp & Hin). apply token_permissions_Some in Htp.
    exists tp. split; [ apply Htp | assumption ].
Qed.

(** The sets and labels of a call that returns. *)
Lemma access_resolution_Ok (t : token) (public_data registered_data controlled_data : list Z)
  (labels : list string) (access : list Z) :
  access_resolution t public_data registered_data controlled_data = Ok (labels, access) ->
  exists (registered controlled : gset Z),
    access = elements (list_to_set public_data ∪ registered ∪ controlled) /\
    labels = (if nonempty public_data then ["PUBLIC"] else [])
             ++ (if nonempty registered_data && is_True (bona_fide_status t)
                 then ["REGISTERED"] else [])
             ++ (if nonempty (elements controlled) then ["CONTROLLED"] else []) /\
    registered = (if nonempty registered_data && is_True (bona_fide_status t)
                  then list_to_set registered_data else ∅) /\
    controlled = match (if nonempty controlled_data then token_permissions t else None) with
                 | Some tp => list_to_set controlled_data ∩ list_to_set tp
                 | None => ∅
                 end.
Proof.
  unfold access_resolution. intros H.
  exists (if nonempty registered_data && is_True (bona_fide_status t)
          then list_to_set registered_data else ∅).
  exists (match (if nonempty controlled_data then token_permissions t else None) with
          | Some tp => list_to_set controlled_data ∩ list_to_set tp
          | None => ∅
          end).
  destruct (nonempty registered_data && is_True (bona_fide_status t)).
  - cbn [bind] in H.
    destruct (if nonempty controlled_data then token_permissions t else None) as [ tp | ].
    + destruct (nonempty (elements (list_to_set controlled_data ∩ list_to_set tp)));
        injection H as <- <-; rewrite <- ?app_assoc, ?app_nil_r; auto.
    + destruct (nonempty controlled_data && _); [ unfold deny in H; destruct (is_False _); discriminate | ].
      injection H as <- <-. rewrite elements_empty. cbn [nonempty].
      rewrite (right_id_L ∅ (∪)), app_nil_r. auto.
  - destruct (nonempty registered_data && negb (nonempty public_data));
      [ unfold deny in H; destruct (is_False _); discriminate | ].
    cbn [bind] in H.
    destruct (if nonempty controlled_data then token_permissions t else None) as [ tp | ].
    + destruct (nonempty (elements (list_to_set controlled_data ∩ list_to_set tp)));
        injection H as <- <-; rewrite (right_id_L ∅ (∪)), ?app_nil_r; auto.
    + destruct (nonempty controlled_data && _); [ unfold deny in H; destruct (is_False _); discriminate | ].
      injection H as <- <-. rewrite elements_empty. cbn [nonempty].
      rewrite !(right_id_L ∅ (∪)), !app_nil_r. auto.
Qed.

Lemma token_permissions_None (t : token) :
  token_permissions t = None <-> permissions t = None \/ permissions t = Some [].
Proof.
  unfold token_permissions. destruct (permissions t) as [ [ | p ps ] | ].
  - split; auto.
  - split; [ discriminate | intros [ H | H ]; discriminate ].
  - split; auto.
Qed.

(** The two tests that end in [raise]. *)
Lemma access_resolution_cases (t : token)
  (public_data registered_data controlled_data : list Z) :
  if negb (nonempty public_data) &&
     ((nonempty registered_data && negb (is_True (bona_fide_status t))) ||
      (negb (nonempty registered_data) && nonempty controlled_data &&
       match token_permissions t with Some _ => false | None => true end))
  then access_resolution t public_data registered_data controlled_data = deny t
  else exists r, access_resolution t public_data registered_data controlled_data = Ok r.
Proof.
  unfold access_resolution.
  destruct (nonempty public_data), (nonempty registered_data), (nonempty controlled_data),
    (is_True (bona_fide_status t)), (token_permissions t) as [ tp | ];
    cbn [nonempty andb orb negb bind];
    repeat match goal with
           | |- context [ if nonempty (elements ?s) then _ else _ ] =>
               destruct (nonempty (elements s))
           end;
    first [ reflexivity | eexists; reflexivity | unfold deny; destruct (is_False _); reflexivity ].
Qed.

(** X8. [access_resolution] fails in two cases only, both without any
    public dataset in the request: registered datasets are requested and
    [token["bona_fide_status"]] is not [True]; or controlled datasets are
    requested alone and the token has no permissions. The error is
    [BeaconUnauthorised] when [token["authenticated"]] is [False] and
    [BeaconForbidden] otherwise. A request with a public dataset never
    fails. *)
Theorem access_resolution_failure (t : token)
  (public_data registered_data controlled_data : list Z) :
  ((exists e, access_resolution t public_data registered_data controlled_data = Raise e) <->
   public_data = [] /\
   ((registered_data <> [] /\ bona_fide_status t <> VBool true) \/
    (registered_data = [] /\ controlled_data <> [] /\
     (permissions t = None \/ permissions t = Some [])))) /\
  (forall e, access_resolution t public_data registered_data controlled_data = Raise e ->
             e = if is_False (authenticated t) then BeaconUnauthorised else BeaconForbidden).
Proof.
  rewrite <- token_permissions_None, <- is_True_iff.
  rewrite <- (nonempty_false public_data), <- (nonempty_false registered_data).
  rewrite <- (nonempty_false controlled_data).
  pose proof (access_resolution_cases t public_data registered_data controlled_data) as H.
  destruct (nonempty public_data), (nonempty registered_data), (nonempty controlled_data),
    (is_True (bona_fide_status t)), (token_permissions t) as [ tp | ];
    cbn [andb orb negb] in H;
    try (destruct H as (r & H)); rewrite H; unfold deny;
    (split;
     [ split;
       [ intros (e & He); try discriminate He; intuition congruence
       | intros Hc; try (exfalso; intuition congruence);
         destruct (is_False (authenticated t)); eauto ]
     | intros e He; try discriminate He; destruct (is_False (authenticated t)); congruence ]).
Qed.

(** X9. The accessible datasets of a call that returns are, each once:
    the public datasets of the request; its registered datasets, when
    [token["bona_fide_status"]] is [True]; and those of its controlled
    datasets that the permissions of the token name. Nothing else. *)
Theorem access_resolution_grant (t : token)
  (public_data registered_data controlled_data : list Z)
  (labels : list string) (access : list Z) :
  access_resolution t public_data registered_data controlled_data = Ok (labels, access) ->
  List.NoDup access /\
  forall x, In x access <->
            In x public_data \/
            (In x registered_data /\ bona_fide_status t = VBool true) \/
            (In x controlled_data /\ exists ps, permissions t = Some ps /\ In x ps).
Proof.
  intros H. apply access_resolution_Ok in H.
  destruct H as (registered & controlled & -> & _ & -> & ->). split.
  - apply NoDup_ListNoDup, NoDup_elements.
  - intros x. rewrite <- list_elem_of_In, elem_of_elements, !elem_of_union.
    rewrite elem_of_list_to_set, list_elem_of_In, token_permissions_member.
    assert (forall P Q R P' Q' R' : Prop,
              (P <-> P') -> (Q <-> Q') -> (R <-> R') -> ((P \/ Q) \/ R <-> P' \/ Q' \/ R'))
      as Hor by tauto.
    apply Hor; [ reflexivity | | ].
    + rewrite <- is_True_iff.
      destruct registered_data as [ | r rs ]; cbn [nonempty andb].
      * rewrite elem_of_empty. simpl. tauto.
      * destruct (is_True (bona_fide_status t)).
        -- rewrite elem_of_list_to_set, list_elem_of_In. tauto.
        -- rewrite elem_of_empty. split; [ contradiction | intros [_ ?]; discriminate ].
    + destruct controlled_data as [ | c cs ]; cbn [nonempty].
      * rewrite elem_of_empty. simpl. tauto.
      * destruct (token_permissions t) as [ tp | ].
        -- rewrite elem_of_intersection, !elem_of_list_to_set, !list_elem_of_In.
           split.
           ++ intros [Hc Htp]. split; [ assumption | ]. exists tp. auto.
           ++ intros [Hc (tp' & [= <-] & Htp)]. auto.
        -- rewrite elem_of_empty. split; [ contradiction | ].
           intros [_ (tp & Htp & _)]. discriminate.
Qed.

(** X10. The labels of a call that returns are, in this order,
    ["PUBLIC"] when public datasets are requested, ["REGISTERED"] when
    registered datasets are requested and [token["bona_fide_status"]] is
    [True], and ["CONTROLLED"] when the permissions of the token name one
    of the requested controlled datasets. *)
Theorem access_resolution_labels (t : token)
  (public_data registered_data controlled_data : list Z)
  (labels : list string) (access : list Z) :
  access_resolution t public_data registered_data controlled_data = Ok (labels, access) ->
  exists (pub reg ctl : bool),
    labels = (if pub then ["PUBLIC"] else [])
             ++ (if reg then ["REGISTERED"] else [])
             ++ (if ctl then ["CONTROLLED"] else []) /\
    (pub = true <-> public_data <> []) /\
    (reg = true <-> registered_data <> [] /\ bona_fide_status t = VBool true) /\
    (ctl = true <->
     exists x, In x controlled_data /\ exists ps, permissions t = Some ps /\ In x ps).
Proof.
  intros H. apply access_resolution_Ok in H.
  destruct H as (registered & controlled & _ & -> & _ & ->).
  eexists _, _, _. split; [ reflexivity | ].
  split; [ apply nonempty_iff | ]. split.
  - rewrite andb_true_iff, nonempty_iff, is_True_iff. reflexivity.
  - setoid_rewrite token_permissions_member.
    rewrite nonempty_iff. split.
    + intros Hne.
      destruct (elements _) as [ | x xs ] eqn:E; [ contradiction | ].
      assert (x ∈ x :: xs) as Hx by constructor.
      rewrite <- E in Hx. apply elem_of_elements in Hx.
      destruct controlled_data as [ | c cs ]; cbn [nonempty] in Hx;
        [ apply elem_of_empty in Hx; contradiction | ].
      destruct (token_permissions t) as [ tp | ];
        [ | apply elem_of_empty in Hx; contradiction ].
      apply elem_of_intersection in Hx. destruct Hx as [Hc Htp].
      apply elem_of_list_to_set, list_elem_of_In in Hc.
      apply elem_of_list_to_set, list_elem_of_In in Htp.
      exists x. split; [ assumption | ]. exists tp. auto.
    + intros (x & Hc & tp & Htp & Hin) E.
      assert (x ∈ elements (match (if nonempty controlled_data then token_permissions t
                                   else None) with
                            | Some tp => list_to_set controlled_data ∩ list_to_set tp
                            | None => (∅ : gset Z)
                            end)) as Hx; [ | rewrite E in Hx; inversion Hx ].
      apply elem_of_elements.
      destruct controlled_data as [ | c cs ]; [ contradiction | ]. cbn [nonempty].
      rewrite Htp. apply elem_of_intersection.
      split; apply elem_of_list_to_set, list_elem_of_In; assumption.
Qed.

Lemma access_resolution_grant_witness :
  List.NoDup [3%Z; 2%Z; 1%Z] /\
  forall x, In x [3%Z; 2%Z; 1%Z] <->
            In x [1%Z] \/
            (In x [2%Z] /\ VBool true = VBool true) \/
            (In x [3%Z; 4%Z] /\ exists ps, Some [3%Z; 9%Z] = Some ps /\ In x ps).
Proof.
  apply (access_resolution_grant
           {| bona_fide_status := VBool true; authenticated := VBool true;
              permissions := Some [3%Z; 9%Z] |} [1%Z] [2%Z] [3%Z; 4%Z]
           ["PUBLIC"; "REGISTERED"; "CONTROLLED"] [3%Z; 2%Z; 1%Z]).
  vm_compute. reflexivity.
Defined.

Lemma access_resolution_labels_witness :
  exists (pub reg ctl : bool),
    ["PUBLIC"; "CONTROLLED"]
    = (if pub then ["PUBLIC"] else [])
      ++ (if reg then ["REGISTERED"] else [])
      ++ (if ctl then ["CONTROLLED"] else []) /\
    (pub = true <-> [1%Z] <> []) /\
    (reg = true <-> [2%Z] <> [] /\ VBool false = VBool true) /\
    (ctl = true <->
     exists x, In x [3%Z; 4%Z] /\ exists ps, Some [3%Z; 9%Z] = Some ps /\ In x ps).
Proof.
  apply (access_resolution_labels
           {| bona_fide_status := VBool false; authenticated := VBool true;
              permissions := Some [3%Z; 9%Z] |} [1%Z] [2%Z] [3%Z; 4%Z]
           ["PUBLIC"; "CONTROLLED"] [3%Z; 1%Z]).
  vm_compute. reflexivity.
Defined.

(** ** [fetch_datasets_access] *)

Lemma classify_datasets_summary (rows : list dataset_row) (p r c : list Z) :
  classify_datasets rows p r c
  = (p ++ ids_of_type "PUBLIC" rows, r ++ ids_of_type "REGISTERED" rows,
     c ++ ids_of_type "CONTROLLED" rows).
Proof.
  revert p r c. unfold ids_of_type.
  induction rows as [ | row rows IH ]; intros p r c; cbn [classify_datasets List.filter map].
  - rewrite !app_nil_r. reflexivity.
  - rewrite IH.
    destruct (String.eqb (ds_access_type row) "PUBLIC"),
      (String.eqb (ds_access_type row) "REGISTERED"),
      (String.eqb (ds_access_type row) "CONTROLLED");
      cbn [map]; rewrite <- ?app_assoc; reflexivity.
Qed.

Lemma NoDup_map_eq {A : Type} (f : A -> Z) (xs : list A) (a b : A) :
  List.NoDup (map f xs) -> In a xs -> In b xs -> f a = f b -> a = b.
Proof.
  induction xs as [ | x xs IH ]; simpl; intros Hnd Ha Hb Hf; [ contradiction | ].
  inversion Hnd as [ | ? ? Hx Hxs ]; subst.
  destruct Ha as [ -> | Ha ], Hb as [ -> | Hb ]; auto.
  - exfalso. apply Hx. rewrite Hf. apply in_map, Hb.
  - exfalso. apply Hx. rewrite <- Hf. apply in_map, Ha.
Qed.

Lemma ids_of_type_In (ty : string) (rows : list dataset_row) (x : Z) :
  In x (ids_of_type ty rows) <->
  exists row, In row rows /\ ds_id row = x /\ ds_access_type row = ty.
Proof.
  unfold ids_of_type. rewrite in_map_iff. split.
  - intros (row & Hid & Hin). apply List.filter_In in Hin. destruct Hin as [Hin Hty].
    apply String.eqb_eq in Hty. eauto.
  - intros (row & Hin & Hid & Hty). exists row. split; [ assumption | ].
    apply List.filter_In. split; [ assumption | apply String.eqb_eq, Hty ].
Qed.

Lemma ids_of_type_disjoint (ty ty' : string) (rows : list dataset_row) (x : Z) :
  List.NoDup (map ds_id rows) -> ty <> ty' ->
  In x (ids_of_type ty rows) -> In x (ids_of_type ty' rows) -> False.
Proof.
  intros Hnd Hne H H'. apply ids_of_type_In in H, H'.
  destruct H as (row & Hin & Hid & Hty), H' as (row' & Hin' & Hid' & Hty').
  assert (row = row') as <- by (apply (NoDup_map_eq ds_id rows); congruence).
  congruence.
Qed.

(** X11. [fetch_datasets_access] sorts the identifiers of the rows by
    access type, in the order of the rows: a row whose access type is
    none of ["PUBLIC"], ["REGISTERED"], ["CONTROLLED"] is in no list, and
    when the rows have distinct identifiers no identifier is in two lists
    or twice in one. *)
Theorem fetch_datasets_access_partition (db_response : list dataset_row) :
  fetch_datasets_access db_response
  = (ids_of_type "PUBLIC" db_response, ids_of_type "REGISTERED" db_response,
     ids_of_type "CONTROLLED" db_response) /\
  (forall row,
     In row db_response ->
     ds_access_type row <> "PUBLIC" -> ds_access_type row <> "REGISTERED" ->
     ds_access_type row <> "CONTROLLED" ->
     List.NoDup (map ds_id db_response) ->
     ~ In (ds_id row)
         (ids_of_type "PUBLIC" db_response ++ ids_of_type "REGISTERED" db_response
          ++ ids_of_type "CONTROLLED" db_response)) /\
  (List.NoDup (map ds_id db_response) ->
   List.NoDup (ids_of_type "PUBLIC" db_response ++ ids_of_type "REGISTERED" db_response
               ++ ids_of_type "CONTROLLED" db_response)).
Proof.
  split; [ apply classify_datasets_summary | ]. split.
  - intros row Hin Hp Hr Hc Hnd Hx.
    rewrite !in_app_iff, !ids_of_type_In in Hx.
    destruct Hx as [ H | [ H | H ] ]; destruct H as (row' & Hin' & Hid & Hty);
      assert (row' = row) as -> by (apply (NoDup_map_eq ds_id db_response); assumption);
      contradiction.
  - intros Hnd. unfold ids_of_type at 1 2 3.
    apply List.NoDup_app; [ apply NoDup_map_filter, Hnd | | ].
    + apply List.NoDup_app; [ apply NoDup_map_filter, Hnd | apply NoDup_map_filter, Hnd | ].
      intros x H H'. apply (ids_of_type_disjoint "REGISTERED" "CONTROLLED" db_response x);
        [ assumption | discriminate | assumption | assumption ].
    + intros x H H'. apply in_app_iff in H'. destruct H' as [ H' | H' ].
      * apply (ids_of_type_disjoint "PUBLIC" "REGISTERED" db_response x);
          [ assumption | discriminate | assumption | assumption ].
      * apply (ids_of_type_disjoint "PUBLIC" "CONTROLLED" db_response x);
          [ assumption | discriminate | assumption | assumption ].
Qed.

Lemma fetch_datasets_access_partition_witness :
  fetch_datasets_access
    [ {| ds_id := 1; ds_stable_id := "EGAD1"; ds_access_type := "PUBLIC" |};
      {| ds_id := 2; ds_stable_id := "EGAD2"; ds_access_type := "CONTROLLED" |};
      {| ds_id := 3; ds_stable_id := "EGAD3"; ds_access_type := "public" |};
      {| ds_id := 4; ds_stable_id := "EGAD4"; ds_access_type := "PUBLIC" |} ]
  = ([1%Z; 4%Z], [], [2%Z]).
Proof.
  apply (proj1 (fetch_datasets_access_partition
                  [ {| ds_id := 1; ds_stable_id := "EGAD1"; ds_access_type := "PUBLIC" |};
                    {| ds_id := 2; ds_stable_id := "EGAD2"; ds_access_type := "CONTROLLED" |};
                    {| ds_id := 3; ds_stable_id := "EGAD3"; ds_access_type := "public" |};
                    {| ds_id := 4; ds_stable_id := "EGAD4"; ds_access_type := "PUBLIC" |} ])).
Defined.

(** ** [filter_exists]: the modes ["HIT"] and ["MISS"] *)

Lemma is_False_iff (v : value) : is_False v = true <-> v = VBool false.
Proof. destruct v as [ | [ | ] | | | | | ]; simpl; split; congruence. Qed.

Lemma subscript_exists (d : value) :
  has_exists d = true -> subscript d "exists" = Ok (exists_flag d).
Proof.
  destruct d; try discriminate. simpl. unfold py_get. intros H.
  apply dict_has_get in H. destruct (dict_get d "exists"); [ reflexivity | contradiction ].
Qed.

Lemma comprehension_if_filter (select : value -> bool) (datasets : list value) :
  forallb has_exists datasets = true ->
  comprehension_if (fun d => e <- subscript d "exists" ;; Ok (select e)) datasets
  = Ok (List.filter (fun d => select (exists_flag d)) datasets).
Proof.
  induction datasets as [ | d l IH ]; simpl; [ reflexivity | ].
  rewrite andb_true_iff. intros [Hd Hl].
  rewrite (subscript_exists d Hd). simpl. rewrite (IH Hl). reflexivity.
Qed.

Lemma filter_exclusive_length {A : Type} (p q : A -> bool) (l : list A) :
  (forall x, p x = true -> q x = false) ->
  length (List.filter p l) + length (List.filter q l) <= length l.
Proof.
  intros Hpq. induction l as [ | x l IH ]; simpl; [ lia | ].
  destruct (p x) eqn:Hp; [ rewrite (Hpq x Hp) | destruct (q x) ]; simpl; lia.
Qed.

(** X12. When every per-dataset entry is a mapping with the key
    [exists], the mode ["HIT"] answers the entries whose flag is [True] and
    the mode ["MISS"] those whose flag is [False], in the order of the
    entries. An entry whose flag is neither (the number 1, [None]) is in
    neither answer, so the two answers can hold fewer entries than
    ["ALL"]. *)
Theorem filter_exists_hit_miss (datasets : list value) :
  forallb has_exists datasets = true ->
  exists hits misses,
    filter_exists "HIT" datasets = Ok (VList hits) /\
    filter_exists "MISS" datasets = Ok (VList misses) /\
    hits = List.filter (fun d => is_True (exists_flag d)) datasets /\
    misses = List.filter (fun d => is_False (exists_flag d)) datasets /\
    (forall d, In d hits <-> In d datasets /\ exists_flag d = VBool true) /\
    (forall d, In d misses <-> In d datasets /\ exists_flag d = VBool false) /\
    length hits + length misses <= length datasets.
Proof.
  intros H. eexists _, _. unfold filter_exists. cbn [String.eqb Ascii.eqb Bool.eqb].
  rewrite !comprehension_if_filter by assumption. cbn [bind].
  split; [ reflexivity | ]. split; [ reflexivity | ].
  split; [ reflexivity | ]. split; [ reflexivity | ].
  split; [ | split ].
  - intros d. rewrite List.filter_In, is_True_iff. reflexivity.
  - intros d. rewrite List.filter_In, is_False_iff. reflexivity.
  - apply filter_exclusive_length. intros d Hd. apply is_True_iff in Hd. rewrite Hd. reflexivity.
Qed.

Lemma filter_exists_hit_miss_witness :
  exists hits misses,
    filter_exists "HIT" [VDict [("exists", VBool true)]; VDict [("exists", VInt 1)]]
    = Ok (VList hits) /\
    filter_exists "MISS" [VDict [("exists", VBool true)]; VDict [("exists", VInt 1)]]
    = Ok (VList misses) /\
    hits = List.filter (fun d => is_True (exists_flag d))
             [VDict [("exists", VBool true)]; VDict [("exists", VInt 1)]] /\
    misses = List.filter (fun d => is_False (exists_flag d))
               [VDict [("exists", VBool true)]; VDict [("exists", VInt 1)]] /\
    (forall d, In d hits <->
               In d [VDict [("exists", VBool true)]; VDict [("exists", VInt 1)]] /\
               exists_flag d = VBool true) /\
    (forall d, In d misses <->
               In d [VDict [("exists", VBool true)]; VDict [("exists", VInt 1)]] /\
               exists_flag d = VBool false) /\
    length hits + length misses
    <= length [VDict [("exists", VBool true)]; VDict [("exists", VInt 1)]].
Proof.
  apply (filter_exists_hit_miss [VDict [("exists", VBool true)]; VDict [("exists", VInt 1)]]).
  reflexivity.
Defined.

(** X13. Under the modes ["HIT"] and ["MISS"], a list of mappings one
    of which has no key [exists] raises [KeyError]: the entries are not
    filtered, the call fails. *)
Theorem filter_exists_missing_flag (include_dataset : string) (datasets : list value) :
  include_dataset = "HIT" \/ include_dataset = "MISS" ->
  forallb is_dict datasets = true ->
  forallb has_exists datasets = false ->
  filter_exists include_dataset datasets = Raise KeyError.
Proof.
  intros Hmode Hd Hl.
  assert (forall select,
            comprehension_if (fun d => e <- subscript d "exists" ;; Ok (select e)) datasets
            = Raise KeyError) as Hraise.
  { intros select. induction datasets as [ | d l IH ]; [ discriminate | ].
    simpl in Hd, Hl. apply andb_true_iff in Hd. destruct Hd as [Hd Hds].
    destruct d as [ | | | | | | fields ]; try discriminate. simpl in Hl. simpl.
    destruct (dict_has fields "exists") eqn:Hh.
    - apply dict_has_get in Hh. destruct (dict_get fields "exists"); [ | contradiction ].
      simpl. rewrite (IH Hds Hl). reflexivity.
    - apply dict_has_false_get in Hh. rewrite Hh. reflexivity. }
  unfold filter_exists. destruct Hmode as [ -> | -> ]; cbn [String.eqb Ascii.eqb Bool.eqb];
    rewrite Hraise; reflexivity.
Qed.

Lemma filter_exists_missing_flag_witness :
  filter_exists "MISS" [VDict [("exists", VBool false)]; VDict [("datasetId", VStr "EGAD1")]]
  = Raise KeyError.
Proof.
  apply (filter_exists_missing_flag "MISS"
           [VDict [("exists", VBool false)]; VDict [("datasetId", VStr "EGAD1")]]).
  - right. reflexivity.
  - reflexivity.
  - reflexivity.
Defined.

(** ** [parse_filters_request]: tokens written with one colon and one operator *)

Lemma char_in_append (c : Ascii.ascii) (s t : string) :
  char_in c (String.append s t) = char_in c s || char_in c t.
Proof.
  induction s as [ | c' s IH ]; [ reflexivity | ].
  rewrite append_cons. cbn [char_in]. rewrite IH, orb_assoc. reflexivity.
Qed.

Lemma prefix_chars (c : Ascii.ascii) (sub s : string) :
  String.prefix sub s = true -> char_in c sub = true -> char_in c s = true.
Proof.
  revert s. induction sub as [ | a sub IH ]; intros s Hp Hc; [ discriminate | ].
  destruct s as [ | b s ]; [ discriminate | ].
  change (String.prefix (String a sub) (String b s))
    with (if Ascii.ascii_dec a b then String.prefix sub s else false) in Hp.
  destruct (Ascii.ascii_dec a b) as [ <- | ]; [ | discriminate ].
  cbn [char_in] in *. apply orb_true_iff in Hc. apply orb_true_iff.
  destruct Hc as [ Hc | Hc ]; [ left; exact Hc | right; apply IH; assumption ].
Qed.

(** A text that lacks a character of [sub] does not hold [sub]. *)
Lemma contains_chars (c : Ascii.ascii) (sub s : string) :
  char_in c sub = true -> char_in c s = false -> contains sub s = false.
Proof.
  intros Hc. induction s as [ | b s IH ]; intros Hs.
  - destruct sub; [ discriminate | reflexivity ].
  - cbn [contains]. apply orb_false_iff. split.
    + destruct (String.prefix sub (String b s)) eqn:Hp; [ | reflexivity ].
      rewrite (prefix_chars c _ _ Hp Hc) in Hs. discriminate.
    + apply IH. cbn [char_in] in Hs. apply orb_false_iff in Hs. apply Hs.
Qed.

Lemma contains_middle (sub s t : string) :
  contains sub (String.append s (String.append sub t)) = true.
Proof.
  induction s as [ | c s IH ].
  - change (String.append "" (String.append sub t)) with (String.append sub t).
    destruct (String.append sub t) eqn:E; cbn [contains]; rewrite <- E, prefix_append;
      reflexivity.
  - rewrite append_cons. cbn [contains]. rewrite IH. apply orb_true_r.
Qed.

Lemma plain_text_chars (s : string) :
  plain_text s = true ->
  char_in ":" s = false /\ char_in "<" s = false /\ char_in ">" s = false /\
  char_in "=" s = false.
Proof.
  unfold plain_text. rewrite !andb_true_iff, !negb_true_iff. tauto.
Qed.

(** Splitting [term operator value] on the operator. *)
Lemma split_on_operator (a : Ascii.ascii) (sep term val : string) :
  char_in a term = false -> char_in a val = false ->
  str_split (String.append term (String.append (String a sep) val)) (String a sep)
  = [term; val].
Proof.
  intros Ht Hv.
  rewrite <- (split_concat a sep [term; val]); [ reflexivity | discriminate | ].
  repeat constructor; assumption.
Qed.

Lemma parse_filter_plain (ontology term : string) :
  char_in ":" ontology = false ->
  plain_text term = true ->
  parse_filter (String.append ontology (String.append ":" term)) = Ok [ontology; term].
Proof.
  intros Ho Ht. apply plain_text_chars in Ht. destruct Ht as (Ht0 & Ht1 & Ht2 & Ht3).
  unfold parse_filter. rewrite (split_on_operator ":" "" ontology term Ho Ht0).
  cbn [index nth_error bind operators scan_operators].
  rewrite (contains_chars ">" ">=" term eq_refl Ht2).
  rewrite (contains_chars "<" "<=" term eq_refl Ht1).
  rewrite (contains_chars "=" "=" term eq_refl Ht3).
  rewrite (contains_chars ">" ">" term eq_refl Ht2).
  rewrite (contains_chars "<" "<" term eq_refl Ht1).
  reflexivity.
Qed.

Lemma parse_filter_operator (ontology term operator val : string) :
  char_in ":" ontology = false ->
  plain_text term = true ->
  plain_text val = true ->
  In operator operators ->
  parse_filter
    (String.append ontology
       (String.append ":" (String.append term (String.append operator val))))
  = Ok [ontology; term; operator; val].
Proof.
  intros Ho Ht Hv Hop.
  apply plain_text_chars in Ht, Hv.
  destruct Ht as (Ht0 & Ht1 & Ht2 & Ht3), Hv as (Hv0 & Hv1 & Hv2 & Hv3).
  unfold parse_filter.
  assert (forall c, char_in c operator = false ->
                    char_in c term = false -> char_in c val = false ->
                    char_in c (String.append term (String.append operator val)) = false)
    as Hfree.
  { intros c Hc1 Hc2 Hc3. rewrite !char_in_append, Hc1, Hc2, Hc3. reflexivity. }
  assert (char_in ":" operator = false) as Hcolon.
  { simpl in Hop. destruct Hop as [ <- | [ <- | [ <- | [ <- | [ <- | [] ] ] ] ] ];
      reflexivity. }
  rewrite (split_on_operator ":" "" ontology _ Ho (Hfree _ Hcolon Ht0 Hv0)).
  cbn [index nth_error bind operators scan_operators].
  simpl in Hop. destruct Hop as [ <- | [ <- | [ <- | [ <- | [ <- | [] ] ] ] ] ].
  - rewrite contains_middle, (split_on_operator ">" "=" term val Ht2 Hv2). reflexivity.
  - rewrite (contains_chars ">" ">=" _ eq_refl (Hfree ">"%char eq_refl Ht2 Hv2)).
    rewrite contains_middle, (split_on_operator "<" "=" term val Ht1 Hv1). reflexivity.
  - rewrite (contains_chars ">" ">=" _ eq_refl (Hfree ">"%char eq_refl Ht2 Hv2)).
    rewrite (contains_chars "<" "<=" _ eq_refl (Hfree "<"%char eq_refl Ht1 Hv1)).
    rewrite contains_middle, (split_on_operator "=" "" term val Ht3 Hv3). reflexivity.
  - rewrite (contains_chars "=" ">=" _ eq_refl (Hfree "="%char eq_refl Ht3 Hv3)).
    rewrite (contains_chars "=" "<=" _ eq_refl (Hfree "="%char eq_refl Ht3 Hv3)).
    rewrite (contains_chars "=" "=" _ eq_refl (Hfree "="%char eq_refl Ht3 Hv3)).
    rewrite contains_middle, (split_on_operator ">" "" term val Ht2 Hv2). reflexivity.
  - rewrite (contains_chars "=" ">=" _ eq_refl (Hfree "="%char eq_refl Ht3 Hv3)).
    rewrite (contains_chars "=" "<=" _ eq_refl (Hfree "="%char eq_refl Ht3 Hv3)).
    rewrite (contains_chars "=" "=" _ eq_refl (Hfree "="%char eq_refl Ht3 Hv3)).
    rewrite (contains_chars ">" ">" _ eq_refl (Hfree ">"%char eq_refl Ht2 Hv2)).
    rewrite contains_middle, (split_on_operator "<" "" term val Ht1 Hv1). reflexivity.
Qed.

(** X14. A token written as [ontology:term], or as
    [ontology:term operator value] with one of the five operators, from
    texts without a colon and (for the term and the value) without [<],
    [>], [=], is parsed back into its parts. *)
Theorem parse_filter_round_trip (ontology term operator val : string) :
  char_in ":" ontology = false ->
  plain_text term = true ->
  plain_text val = true ->
  In operator operators ->
  parse_filters_request
    [String.append ontology (String.append ":" term);
     String.append ontology
       (String.append ":" (String.append term (String.append operator val)))]
  = Ok [[ontology; term]; [ontology; term; operator; val]].
Proof.
  intros Ho Ht Hv Hop.
  unfold parse_filters_request. cbn [parse_filters_from].
  rewrite (parse_filter_plain _ _ Ho Ht). cbn [bind].
  rewrite (parse_filter_operator _ _ _ _ Ho Ht Hv Hop). reflexivity.
Qed.

Lemma parse_filter_round_trip_witness :
  parse_filters_request ["Insilico:coverage"; "Insilico:coverage<=30"]
  = Ok [["Insilico"; "coverage"]; ["Insilico"; "coverage"; "<="; "30"]].
Proof.
  apply (parse_filter_round_trip "Insilico" "coverage" "<=" "30").
  - reflexivity.
  - reflexivity.
  - reflexivity.
  - simpl. auto.
Defined.

(** ** [parse_filters_request]: the parts of a token *)

Lemma append_assoc (s t u : string) :
  String.append (String.append s t) u = String.append s (String.append t u).
Proof.
  induction s as [ | c s IH ]; [ reflexivity | ].
  rewrite !append_cons, IH. reflexivity.
Qed.

Lemma append_empty (s : string) : String.append s "" = s.
Proof. induction s as [ | c s IH ]; [ reflexivity | rewrite append_cons, IH; reflexivity ]. Qed.

Lemma concat_head (sep piece : string) (pieces : list string) :
  exists tail, String.concat sep (piece :: pieces) = String.append piece tail.
Proof.
  destruct pieces as [ | y l ].
  - exists "". cbn [String.concat]. rewrite append_empty. reflexivity.
  - rewrite concat_two. eauto.
Qed.

(** The first two pieces of a split, the separator between them, and the
    rest. *)
Lemma split_two_pieces (s sep first second : string) (more : list string) :
  sep <> "" ->
  str_split s sep = first :: second :: more ->
  exists tail,
    s = String.append first (String.append sep (String.append second tail)) /\
    (more = [] -> tail = "").
Proof.
  intros Hsep Hs. pose proof (concat_split sep s Hsep) as Hc. rewrite Hs in Hc.
  rewrite concat_two in Hc. destruct more as [ | y l ].
  - exists "". rewrite append_empty. split; [ symmetry; exact Hc | reflexivity ].
  - rewrite concat_two in Hc. eexists. split; [ symmetry; exact Hc | discriminate ].
Qed.

(** X15. A token that is parsed is cut, from the left, into its parts
    and a tail that is dropped: the ontology and the second piece have no
    colon; with an operator the token is
    [ontology:term operator value] followed by the tail, and without one
    it is [ontology:second] followed by the tail and no operator occurs in
    the second piece. The tail is what follows a second colon or a second
    occurrence of the operator. *)
Theorem parse_filter_parts (token : string) (parts : list string) :
  parse_filter token = Ok parts ->
  (exists ontology second tail,
     parts = [ontology; second] /\
     token = String.append ontology (String.append ":" (String.append second tail)) /\
     char_in ":" ontology = false /\ char_in ":" second = false /\
     (forall operator, In operator operators -> contains operator second = false)) \/
  (exists ontology term operator val tail,
     parts = [ontology; term; operator; val] /\
     In operator operators /\
     token = String.append ontology
               (String.append ":"
                  (String.append term
                     (String.append operator (String.append val tail)))) /\
     char_in ":" ontology = false /\ char_in ":" term = false /\
     char_in ":" val = false).
Proof.
  intros H. destruct (contains ":" token) eqn:Hc.
  - destruct (split_present ":" token ltac:(discriminate) Hc)
      as (ontology & remainder & more & Hs).
    destruct (split_two_pieces token ":" _ _ _ ltac:(discriminate) Hs)
      as (tail & Htoken & _).
    pose proof (split_pieces_char ":" token) as Hcolon. rewrite Hs in Hcolon.
    apply List.Forall_cons_iff in Hcolon. destruct Hcolon as [Ho Hcolon].
    apply List.Forall_cons_iff in Hcolon. destruct Hcolon as [Hr _].
    pose proof (scan_operators_found operators ontology remainder more operators_nonempty)
      as Hscan.
    unfold parse_filter in H. rewrite Hs in H. cbn [index nth_error bind] in H.
    destruct (List.find (fun op => contains op remainder) operators) as [ op | ] eqn:Hfind.
    + destruct Hscan as (term & val & rest & Hsplit & Hscan). rewrite Hscan in H.
      simpl in H. injection H as <-.
      apply find_some in Hfind. destruct Hfind as [Hin Hcontains].
      assert (op <> "") as Hop.
      { pose proof operators_nonempty as Hne. rewrite List.Forall_forall in Hne. auto. }
      destruct (split_two_pieces _ _ _ _ _ Hop Hsplit) as (tail' & Hrem & _).
      right. exists ontology, term, op, val, (String.append tail' tail).
      split; [ reflexivity | ]. split; [ exact Hin | ].
      rewrite Hrem in Hr. rewrite !char_in_append, !orb_false_iff in Hr.
      split; [ | tauto ].
      rewrite Htoken at 1. rewrite Hrem. rewrite !append_assoc. reflexivity.
    + rewrite Hscan in H. simpl in H. injection H as <-.
      left. exists ontology, remainder, tail.
      repeat split; try assumption.
      intros operator Hin. exact (find_none _ _ Hfind operator Hin).
  - unfold parse_filter in H. rewrite (split_absent _ _ Hc) in H. discriminate.
Qed.

Lemma parse_filter_parts_witness :
  (exists ontology second tail,
     ["a"; "b"; "="; "<3"] = [ontology; second] /\
     "a:b=<3=4:c" = String.append ontology (String.append ":" (String.append second tail)) /\
     char_in ":" ontology = false /\ char_in ":" second = false /\
     (forall operator, In operator operators -> contains operator second = false)) \/
  (exists ontology term operator val tail,
     ["a"; "b"; "="; "<3"] = [ontology; term; operator; val] /\
     In operator operators /\
     "a:b=<3=4:c" = String.append ontology
                      (String.append ":"
                         (String.append term
                            (String.append operator (String.append val tail)))) /\
     char_in ":" ontology = false /\ char_in ":" term = false /\
     char_in ":" val = false).
Proof.
  apply (parse_filter_parts "a:b=<3=4:c" ["a"; "b"; "="; "<3"]).
  vm_compute. reflexivity.
Defined.

(** ** [transform_record] and [get_datasets]: further properties *)

Lemma Forall2_In_r {A B : Type} (R : A -> B -> Prop) (l : list A) (l' : list B) (y : B) :
  Forall2 R l l' -> In y l' -> exists x, In x l /\ R x y.
Proof.
  induction 1 as [ | x y' l l' Hr _ IH ]; intros Hin; [ contradiction | ].
  destruct Hin as [ <- | Hin ].
  - exists x. split; [ left; reflexivity | assumption ].
  - destruct (IH Hin) as (x0 & ? & ?). exists x0. split; [ right | ]; assumption.
Qed.

Lemma Forall2_In_l {A B : Type} (R : A -> B -> Prop) (l : list A) (l' : list B) (x : A) :
  Forall2 R l l' -> In x l -> exists y, In y l' /\ R x y.
Proof.
  induction 1 as [ | x' y l l' Hr _ IH ]; intros Hin; [ contradiction | ].
  destruct Hin as [ <- | Hin ].
  - exists y. split; [ left; reflexivity | assumption ].
  - destruct (IH Hin) as (y0 & ? & ?). exists y0. split; [ right | ]; assumption.
Qed.

(** The variants of [variant_order] are those of the records. *)
Lemma variant_order_from_In (seen : list string) (rows : list hit_row) (v : string) :
  In v (variant_order_from seen rows) <->
  In v seen \/ exists r, In r rows /\ variant_composite_id r = v.
Proof.
  unfold variant_order_from. revert seen.
  induction rows as [ | record rows IH ]; intros seen; cbn [fold_left].
  - split; [ auto | intros [ H | (r & [] & _) ]; exact H ].
  - rewrite IH. clear IH.
    destruct (existsb (String.eqb (variant_composite_id record)) seen) eqn:E.
    + apply existsb_eqb_In in E. split.
      * intros [ H | (r & Hr & Hv) ]; [ auto | right; exists r; simpl; auto ].
      * intros [ H | (r & [ <- | Hr ] & Hv) ]; [ auto | subst v; auto | right; eauto ].
    + rewrite in_app_iff. simpl. split.
      * intros [ [ H | [ <- | [] ] ] | (r & Hr & Hv) ]; [ auto | right .. ]; eauto.
      * intros [ H | (r & [ <- | Hr ] & Hv) ]; [ auto | left; auto | right; eauto ].
Qed.

Lemma variant_order_In (rows : list hit_row) (v : string) :
  In v (variant_order rows) <-> exists r, In r rows /\ variant_composite_id r = v.
Proof.
  unfold variant_order. rewrite variant_order_from_In. simpl.
  split; [ intros [ [] | H ]; exact H | auto ].
Qed.

Lemma variant_order_hits (rows : list hit_row) (v : string) :
  In v (variant_order rows) -> hits_of v rows <> [].
Proof.
  intros H. apply variant_order_In in H. destruct H as (r & Hr & Hv).
  assert (In r (hits_of v rows)) as Hin.
  { unfold hits_of. apply List.filter_In. split; [ assumption | apply String.eqb_eq, Hv ]. }
  intros E. rewrite E in Hin. contradiction.
Qed.

Section ReconciliationFurther.

Variable acquire : result unit.
Variable select_dataset : Z -> result (option dataset_row).
Variable select_missing : list Z -> result (list dataset_row).
Variable round4 : value -> result value.
Variable variantAnnotations : dict -> result (option string * value * value).

Local Abbreviation transform := (transform_record acquire select_dataset round4).
Local Abbreviation misses_of := (fetch_missing_datasets acquire select_missing).
Local Abbreviation group := (group_records acquire select_dataset round4).

(** X16. When the connection is acquired, the row of the dataset is
    found and the frequency is [None] or is rounded, the keys of a
    transformed hit record are the ten keys of the response schema, those
    of a miss record, and also the raw column [num_variants] or
    [matching_sample_cnt] when the database has [NULL] there: the column
    is read with [get] and left in place, with the value [None], beside
    its renamed copy [0]. No other raw column is left. *)
Theorem transform_record_keys (record : hit_row) (extra : dataset_row) :
  acquire = Ok tt ->
  select_dataset (dataset_id record) = Ok (Some extra) ->
  (frequency record = VNone \/ exists f, round4 (frequency record) = Ok f) ->
  exists fields,
    transform record = Ok (VDict fields) /\
    unique_keys (map fst fields) = true /\
    (forall k,
       In k (map fst fields) <->
       In k ["datasetId"; "internalId"; "exists"; "variantCount"; "callCount";
             "sampleCount"; "frequency"; "numVariants"; "info"; "datasetHandover"] \/
       (k = "num_variants" /\ num_variants record = VNone) \/
       (k = "matching_sample_cnt" /\ matching_sample_cnt record = VNone)) /\
    (forall k v, k = "num_variants" \/ k = "matching_sample_cnt" ->
                 dict_get fields k = Some v -> v = VNone).
Proof.
  intros Hacq Hrow Hfreq. unfold transform_record. rewrite Hacq, Hrow. cbn.
  unfold zero_if_none. cbn.
  destruct (is_None (frequency record)) eqn:Ef; cbn;
    [ | destruct Hfreq as [ Hnone | (f & Hf) ];
        [ rewrite Hnone in Ef; discriminate | rewrite Hf; cbn ] ];
    destruct (is_None (num_variants record)) eqn:En; cbn;
    destruct (is_None (matching_sample_cnt record)) eqn:Em; cbn;
    (eexists; split; [ reflexivity | ]; split; [ reflexivity | ]);
    try (apply is_None_iff in En); try (apply is_None_iff in Em);
    (assert (num_variants record = VNone -> is_None (num_variants record) = true) as Hn
       by (apply is_None_iff));
    (assert (matching_sample_cnt record = VNone ->
             is_None (matching_sample_cnt record) = true) as Hm by (apply is_None_iff));
    (split;
     [ intros k; cbn [map fst In]; split;
       [ intros H; repeat (destruct H as [ <- | H ]; [ auto 20 | ]); contradiction
       | intros [ H | [ [-> H] | [-> H] ] ];
         [ repeat (destruct H as [ <- | H ]; [ auto 20 | ]); contradiction
         | first [ solve [ auto 20 ] | rewrite (Hn H) in En; discriminate ]
         | first [ solve [ auto 20 ] | rewrite (Hm H) in Em; discriminate ] ] ]
     | intros k v [ -> | -> ]; cbn; intros H; congruence ]).
Qed.

(** The ways [transform_record] fails: on the connection, on the query,
    on a dataset without row, on the rounding of the frequency. *)
Lemma transform_record_Raise (record : hit_row) (e : exn) :
  transform record = Raise e <->
  acquire = Raise e \/
  (acquire = Ok tt /\ e = BeaconServerError /\
   exists e', select_dataset (dataset_id record) = Raise e') \/
  (acquire = Ok tt /\ e = TypeError /\ select_dataset (dataset_id record) = Ok None) \/
  (acquire = Ok tt /\
   (exists extra, select_dataset (dataset_id record) = Ok (Some extra)) /\
   frequency record <> VNone /\ round4 (frequency record) = Raise e).
Proof.
  assert ((exists ea, acquire = Raise ea) \/ acquire = Ok tt) as [ (ea & Hacq) | Hacq ]
    by (destruct acquire as [ [] | ea ]; eauto).
  { assert (transform record = Raise ea) as ->.
    { unfold transform_record. rewrite Hacq. reflexivity. }
    split.
    - intros [= <-]. left. exact Hacq.
    - intros [ H | [ (H & _) | [ (H & _) | (H & _) ] ] ]; congruence. }
  destruct (select_dataset (dataset_id record)) as [ [ extra | ] | es ] eqn:Hrow.
  - destruct (is_None (frequency record)) eqn:Ef.
    + apply is_None_iff in Ef.
      destruct (transform_record_found acquire select_dataset round4 record extra
                  Hacq Hrow (or_introl Ef)) as (fields & Ht & _).
      rewrite Ht. split; [ discriminate | ].
      intros [ H | [ (_ & _ & e' & H) | [ (_ & _ & H) | (_ & _ & H & _) ] ] ];
        congruence.
    + destruct (round4 (frequency record)) as [ f | ef ] eqn:Hf.
      * destruct (transform_record_found acquire select_dataset round4 record extra
                    Hacq Hrow (or_intror (ex_intro _ f Hf))) as (fields & Ht & _).
        rewrite Ht. split; [ discriminate | ].
        intros [ H | [ (_ & _ & e' & H) | [ (_ & _ & H) | (_ & _ & _ & H) ] ] ];
          congruence.
      * assert (transform record = Raise ef) as ->.
        { unfold transform_record. rewrite Hacq, Hrow. cbn.
          unfold zero_if_none. cbn. rewrite Ef. cbn. rewrite Hf. reflexivity. }
        split.
        -- intros [= <-]. right. right. right.
           split; [ exact Hacq | ]. split; [ eauto | ]. split; [ | reflexivity ].
           intros Hnone. rewrite Hnone in Ef. discriminate.
        -- intros [ H | [ (_ & _ & e' & H) | [ (_ & _ & H) | (_ & _ & _ & H) ] ] ];
             congruence.
  - assert (transform record = Raise TypeError) as ->.
    { unfold transform_record. rewrite Hacq, Hrow. reflexivity. }
    split.
    + intros [= <-]. right. right. left. auto.
    + intros [ H | [ (_ & _ & e' & H) | [ (_ & -> & _) | (_ & (x & H) & _) ] ] ];
        congruence.
  - assert (transform record = Raise BeaconServerError) as ->.
    { unfold transform_record. rewrite Hacq, Hrow. reflexivity. }
    split.
    + intros [= <-]. right. left. eauto.
    + intros [ H | [ (_ & -> & _) | [ (_ & _ & H) | (_ & (x & H) & _) ] ] ];
        congruence.
Qed.

(** The loop over the hit records stops at the first record whose
    transformation fails. *)
Lemma group_records_Raise (before after : list hit_row) (record : hit_row) (e : exn)
  (vd : list (string * variant_entry)) :
  (forall r, In r before -> exists t, transform r = Ok t) ->
  transform record = Raise e ->
  group (before ++ record :: after) vd = Raise e.
Proof.
  revert vd. induction before as [ | r before IH ]; intros vd Hbefore Hrecord.
  - cbn [app group_records]. rewrite Hrecord. reflexivity.
  - cbn [app group_records].
    destruct (Hbefore r) as (t & ->); [ left; reflexivity | ]. cbn [bind].
    apply IH; [ | exact Hrecord ]. intros r' Hr'. apply Hbefore. right. exact Hr'.
Qed.

(** X17. [transform_record] fails in four ways only: the connection is
    not acquired, and what [acquire] raises is raised; the query fails,
    and [BeaconServerError] is raised; the query finds no row for the
    dataset of the record, and [TypeError] is raised (from [dict(None)]);
    the frequency is not [None] and its rounding raises, and that is
    raised. The first hit record whose transformation fails makes
    [get_datasets] raise the same, under every mode and whatever the
    records after it are. *)
Theorem transform_record_failure (before after : list hit_row) (record : hit_row)
  (ids : list Z) (mode : string) (e : exn) :
  (transform record = Raise e <->
   acquire = Raise e \/
   (acquire = Ok tt /\ e = BeaconServerError /\
    exists e', select_dataset (dataset_id record) = Raise e') \/
   (acquire = Ok tt /\ e = TypeError /\ select_dataset (dataset_id record) = Ok None) \/
   (acquire = Ok tt /\
    (exists extra, select_dataset (dataset_id record) = Ok (Some extra)) /\
    frequency record <> VNone /\ round4 (frequency record) = Raise e)) /\
  ((forall r, In r before -> exists t, transform r = Ok t) ->
   transform record = Raise e ->
   get_datasets acquire select_dataset select_missing round4 variantAnnotations
     (before ++ record :: after) ids mode = Raise e).
Proof.
  split; [ apply transform_record_Raise | ].
  intros Hbefore Hrecord. unfold get_datasets.
  rewrite (group_records_Raise before after record e [] Hbefore Hrecord). reflexivity.
Qed.

Lemma flagged_exists (b : bool) (d : value) :
  flagged b d -> subscript d "exists" = Ok (VBool b).
Proof. intros (fields & -> & He). simpl. rewrite He. reflexivity. Qed.

(** X18. When the collaborators answer for every hit record, the look-up
    of the missing datasets answers under ["ALL"] and ["MISS"], and some
    dataset is visible, the [exists] entry of the response is true exactly
    when there is a hit record and the mode is ["ALL"] or ["HIT"]: under
    ["MISS"], as under ["NONE"], it is false even when the variant was
    found. *)
Theorem beacon_exists_by_mode (rows : list hit_row) (ids : list Z) (mode : string) :
  acquire = Ok tt ->
  (forall r, In r rows -> answered select_dataset round4 variantAnnotations r) ->
  (mode = "ALL" \/ mode = "MISS" -> missing_answered select_missing) ->
  ids <> [] ->
  known_mode mode ->
  exists response,
    get_datasets acquire select_dataset select_missing round4 variantAnnotations
      rows ids mode = Ok response /\
    beacon_exists response
    = Ok (nonempty rows && (String.eqb mode "ALL" || String.eqb mode "HIT")).
Proof.
  intros Hacq Hrows Hq Hids Hmode.
  destruct (get_datasets_elements acquire select_dataset select_missing round4
              variantAnnotations rows ids mode Hacq Hrows) as (response & Hget & Hels);
    [ | exact (fun _ => Hids) | exact Hmode | ].
  { intros Hb. apply Hq. apply orb_true_iff in Hb.
    destruct Hb as [ Hb | Hb ]; apply String.eqb_eq in Hb; auto. }
  destruct (all_exists_flags_elements response) as (flags & Hflags & Hiff).
  { clear Hget.
    induction Hels as [ | v element vs response (hits & misses & Hhits & Hmisses & Hel) _ IH ];
      constructor; [ | exact IH ].
    eexists. split; [ exact Hel | ].
    apply mode_select_flagged;
      [ exact (hits_flagged acquire select_dataset round4 _ _ Hhits)
      | exact (element_misses_flagged acquire select_missing _ _ _ _ Hmisses) ]. }
  exists response. split; [ exact Hget | ].
  unfold beacon_exists. rewrite Hflags. cbn [bind]. f_equal.
  apply eq_true_iff_eq. rewrite Hiff. clear Hiff Hflags Hget. split.
  - intros (element & entries & d & Hin & Hsub & Hd & Hex).
    destruct (Forall2_In_r _ _ _ _ Hels Hin) as (v & Hv & hits & misses & Hhits & Hmisses & Hel).
    assert (nonempty rows = true) as ->.
    { destruct rows; [ contradiction | reflexivity ]. }
    destruct Hel as (dt & an & ho & ->). simpl in Hsub. injection Hsub as <-.
    pose proof (element_misses_flagged acquire select_missing _ _ _ _ Hmisses) as Hm.
    unfold mode_select in Hd.
    destruct Hmode as [ -> | [ -> | [ -> | -> ] ] ]; simpl in Hd; try reflexivity.
    + contradiction.
    + rewrite List.Forall_forall in Hm.
      rewrite (flagged_exists _ _ (Hm d Hd)) in Hex. discriminate.
  - rewrite andb_true_iff. intros [Hne Hm].
    destruct rows as [ | r rows' ] eqn:Erows; [ discriminate | ]. rewrite <- Erows in *.
    assert (In (variant_composite_id r) (variant_order rows)) as Hv.
    { apply variant_order_In. exists r. split; [ rewrite Erows; left | ]; reflexivity. }
    destruct (Forall2_In_l _ _ _ _ Hels Hv)
      as (element & Hin & hits & misses & Hhits & Hmisses & Hel).
    pose proof (variant_order_hits _ _ Hv) as Hne'.
    destruct Hhits as [ | h t hs hits Ht Hrest ]; [ contradiction | ].
    assert (flagged true t) as Hflag.
    { destruct (transform_record_Ok acquire select_dataset round4 _ _ Ht)
        as (fields & -> & _ & He).
      exists fields. auto. }
    exists element. eexists. exists t.
    destruct Hel as (dt & an & ho & ->).
    split; [ exact Hin | ]. split; [ reflexivity | ].
    split; [ | apply (flagged_exists _ _ Hflag) ].
    unfold mode_select. apply orb_true_iff in Hm.
    destruct Hm as [ -> | Hm ]; [ left; reflexivity | ].
    rewrite Hm. destruct (String.eqb mode "ALL"); left; reflexivity.
Qed.

Lemma assemble_unknown_mode (mode : string) (vd : list (string * variant_entry))
  (acc : list value) :
  ~ known_mode mode ->
  Forall (fun kv => exists a, variantAnnotations (variantDetails (snd kv)) = Ok a) vd ->
  exists elements,
    assemble_response variantAnnotations mode vd acc = Ok (acc ++ elements) /\
    length elements = length vd /\
    Forall (fun element => subscript element "datasetAlleleResponses" = Ok VNone) elements.
Proof.
  intros Hmode Hann.
  assert (forall l, filter_exists mode l = Ok VNone) as Hf.
  { intros l. unfold filter_exists, known_mode in *.
    destruct (String.eqb mode "ALL") eqn:E1; [ apply String.eqb_eq in E1; tauto | ].
    destruct (String.eqb mode "NONE") eqn:E2; [ apply String.eqb_eq in E2; tauto | ].
    destruct (String.eqb mode "HIT") eqn:E3; [ apply String.eqb_eq in E3; tauto | ].
    destruct (String.eqb mode "MISS") eqn:E4; [ apply String.eqb_eq in E4; tauto | ].
    reflexivity. }
  revert acc.
  induction Hann as [ | [v entry] vd ([[rsID cellBase] dbSNP] & Ha) _ IH ];
    intros acc; cbn [assemble_response].
  - exists []. rewrite app_nil_r. split; [ reflexivity | split; [ reflexivity | constructor ] ].
  - unfold final_variantsFound_element. cbn [snd] in Ha. rewrite Ha. cbn [bind].
    rewrite Hf. cbn [bind].
    destruct (IH (acc ++ [VDict
        [("variantDetails",
          VDict match rsID_given rsID with
                | Some s => dict_set (variantDetails entry) "variantId" (VStr s)
                | None => variantDetails entry
                end);
         ("datasetAlleleResponses", VNone);
         ("variantAnnotations", VDict [("cellBase", cellBase); ("dbSNP", dbSNP)]);
         ("variantHandover",
          match rsID_given rsID with
          | Some s => snp_resultsHandover s
          | None => VStr ""
          end);
         ("info", VDict [])]])) as (elements & -> & Hlen & Hall).
    eexists (_ :: elements). rewrite <- app_assoc. split; [ reflexivity | ].
    split; [ simpl; rewrite Hlen; reflexivity | ].
    constructor; [ reflexivity | exact Hall ].
Qed.

(** X19. A mode that is none of ["ALL"], ["NONE"], ["HIT"], ["MISS"] is
    not refused: when the collaborators answer for every hit record,
    [get_datasets] answers one element per variant, each with
    [datasetAlleleResponses = None], and the [exists] entry of the handler
    then raises [TypeError] as soon as there is one variant. *)
Theorem get_datasets_unknown_mode (rows : list hit_row) (ids : list Z) (mode : string) :
  acquire = Ok tt ->
  (forall r, In r rows -> answered select_dataset round4 variantAnnotations r) ->
  ~ known_mode mode ->
  exists response,
    get_datasets acquire select_dataset select_missing round4 variantAnnotations
      rows ids mode = Ok response /\
    length response = length (variant_order rows) /\
    Forall (fun element => subscript element "datasetAlleleResponses" = Ok VNone) response /\
    beacon_exists response = if nonempty rows then Raise TypeError else Ok false.
Proof.
  intros Hacq Hrows Hmode.
  destruct (group_records_grouped acquire select_dataset round4 rows)
    as (vd & Hvd & Hkeys & _ & Hin & _ & Hdet).
  { intros r Hr.
    exact (answered_transform acquire select_dataset round4 variantAnnotations r Hacq
             (Hrows r Hr)). }
  assert (Forall (fun kv => exists a, variantAnnotations (variantDetails (snd kv)) = Ok a) vd)
    as Hann.
  { eapply List.Forall_impl; [ | exact Hdet ].
    intros kv (r & Hr & ->). apply (Hrows r Hr). }
  destruct (assemble_unknown_mode mode vd [] Hmode Hann) as (response & Hresp & Hlen & Hall).
  exists response. unfold get_datasets. rewrite Hvd. cbn [bind].
  assert (String.eqb mode "ALL" || String.eqb mode "MISS" = false) as ->.
  { apply orb_false_iff. unfold known_mode in Hmode.
    split; apply String.eqb_neq; intros ->; tauto. }
  cbn [bind]. split; [ exact Hresp | ].
  assert (length response = length (variant_order rows)) as Hlen'.
  { rewrite Hlen, <- Hkeys, List.length_map. reflexivity. }
  split; [ exact Hlen' | ]. split; [ exact Hall | ].
  destruct rows as [ | r rows' ] eqn:Erows.
  - destruct response; [ reflexivity | discriminate ].
  - rewrite <- Erows in *. cbn [nonempty].
    assert (In (variant_composite_id r) (variant_order rows)) as Hv.
    { apply variant_order_In. exists r. split; [ rewrite Erows; left | ]; reflexivity. }
    destruct response as [ | element response ];
      [ destruct (variant_order rows); [ contradiction | discriminate Hlen' ] | ].
    apply List.Forall_cons_iff in Hall. destruct Hall as [He _].
    unfold beacon_exists. cbn [all_exists_flags]. rewrite He, Erows. reflexivity.
Qed.

Lemma existsb_filter (x : Z) (p : Z -> bool) (ids : list Z) :
  existsb (Z.eqb x) (List.filter p ids) = existsb (Z.eqb x) ids && p x.
Proof.
  induction ids as [ | y ids IH ]; [ reflexivity | ].
  cbn [List.filter existsb]. destruct (Z.eqb x y) eqn:E.
  - apply Z.eqb_eq in E. subst y. cbn [orb].
    destruct (p x) eqn:Hp.
    + cbn [existsb]. rewrite Z.eqb_refl. reflexivity.
    + rewrite IH. apply andb_false_r.
  - cbn [orb]. destruct (p y); [ | exact IH ].
    cbn [existsb]. rewrite E. exact IH.
Qed.

(** The rows that the look-up of the missing datasets of a variant
    answers, when it answers from a table: those rows of the table whose
    identifier is visible and is not the dataset of a hit record, in an
    order of its own. *)
Lemma misses_of_table (beacon_dataset : list dataset_row) (ids : list Z)
  (hits : list hit_row) (misses : list value) :
  answers_from_table select_missing beacon_dataset ->
  misses_of (missing_ids ids hits) = Ok misses ->
  exists answer,
    misses = map transform_misses answer /\
    Permutation answer
      (List.filter
         (fun d => existsb (Z.eqb (ds_id d)) ids
                   && negb (existsb (Z.eqb (ds_id d)) (map dataset_id hits)))
         beacon_dataset).
Proof.
  intros Hq H.
  assert (List.filter
            (fun d => existsb (Z.eqb (ds_id d)) ids
                      && negb (existsb (Z.eqb (ds_id d)) (map dataset_id hits)))
            beacon_dataset
          = List.filter (fun d => existsb (Z.eqb (ds_id d)) (missing_ids ids hits))
              beacon_dataset) as ->.
  { apply List.filter_ext. intros d. unfold missing_ids. symmetry. apply existsb_filter. }
  apply (misses_of_Ok acquire select_missing) in H.
  destruct H as [ [-> ->] | (Hne & answer & Ha & ->) ].
  - exists []. split; [ reflexivity | ].
    assert (List.filter (fun d => existsb (Z.eqb (ds_id d)) []) beacon_dataset = []) as ->;
      [ | constructor ].
    clear Hq. induction beacon_dataset as [ | d ds IH ]; [ reflexivity | exact IH ].
  - destruct (Hq _ Hne) as (answer' & Ha' & Hperm).
    rewrite Ha in Ha'. injection Ha' as <-. exists answer. auto.
Qed.

(** X20. Under ["ALL"] and ["MISS"], when the collaborators answer and
    the look-up of the missing datasets answers from the table
    [beacon_dataset], the entries that [get_datasets] adds to a variant
    are made, in the order in which the query answers them, from the rows
    of the table whose identifier is visible and is not the dataset of a
    hit record of the variant: one entry per such row. A visible
    identifier that the table does not have adds nothing. Under ["ALL"]
    they follow the transformed hit records. *)
Theorem get_datasets_misses (beacon_dataset : list dataset_row)
  (rows : list hit_row) (ids : list Z) (mode : string) :
  acquire = Ok tt ->
  answers_from_table select_missing beacon_dataset ->
  (forall r, In r rows -> answered select_dataset round4 variantAnnotations r) ->
  ids <> [] ->
  mode = "ALL" \/ mode = "MISS" ->
  exists response,
    get_datasets acquire select_dataset select_missing round4 variantAnnotations
      rows ids mode = Ok response /\
    Forall2
      (fun v element =>
         exists hits answer,
           Forall2 (fun r t => transform r = Ok t) (hits_of v rows) hits /\
           Permutation answer
             (List.filter
                (fun d =>
                   existsb (Z.eqb (ds_id d)) ids
                   && negb (existsb (Z.eqb (ds_id d))
                              (map dataset_id (hits_of v rows))))
                beacon_dataset) /\
           subscript element "datasetAlleleResponses"
           = Ok (VList ((if String.eqb mode "ALL" then hits else [])
                        ++ map transform_misses answer)))
      (variant_order rows) response.
Proof.
  intros Hacq Hq Hrows Hids Hmode.
  assert (known_mode mode) as Hknown by (unfold known_mode; tauto).
  assert (String.eqb mode "ALL" || String.eqb mode "MISS" = true) as Hb.
  { destruct Hmode as [ -> | -> ]; reflexivity. }
  destruct (get_datasets_elements acquire select_dataset select_missing round4
              variantAnnotations rows ids mode Hacq Hrows) as (response & Hget & Hels);
    [ | exact (fun _ => Hids) | exact Hknown | ].
  { intros _. exact (answers_from_table_answered select_missing beacon_dataset Hq). }
  exists response. split; [ exact Hget | ].
  eapply List.Forall2_impl; [ | exact Hels ].
  intros v element (hits & misses & Hhits & Hmisses & (dt & an & ho & ->)).
  rewrite Hb in Hmisses.
  destruct (misses_of_table beacon_dataset ids (hits_of v rows) misses Hq Hmisses)
    as (answer & -> & Hperm).
  exists hits, answer. split; [ exact Hhits | ]. split; [ exact Hperm | ].
  unfold mode_select. destruct Hmode as [ -> | -> ]; reflexivity.
Qed.

End ReconciliationFurther.

Lemma transform_record_keys_witness :
  exists fields,
    transform_record example_acquire example_select_dataset example_round4 example_row
    = Ok (VDict fields) /\
    unique_keys (map fst fields) = true /\
    (forall k,
       In k (map fst fields) <->
       In k ["datasetId"; "internalId"; "exists"; "variantCount"; "callCount";
             "sampleCount"; "frequency"; "numVariants"; "info"; "datasetHandover"] \/
       (k = "num_variants" /\ num_variants example_row = VNone) \/
       (k = "matching_sample_cnt" /\ matching_sample_cnt example_row = VNone)) /\
    (forall k v, k = "num_variants" \/ k = "matching_sample_cnt" ->
                 dict_get fields k = Some v -> v = VNone).
Proof.
  apply (transform_record_keys example_acquire example_select_dataset example_round4
           example_row
           {| ds_id := 1; ds_stable_id := "EGAD00001000740"; ds_access_type := "PUBLIC" |}).
  - reflexivity.
  - reflexivity.
  - left. reflexivity.
Defined.

(** A hit record of a dataset that the table does not have, after one
    that it has: [get_datasets] raises [TypeError]. *)
Lemma transform_record_failure_witness :
  get_datasets example_acquire example_select_dataset example_select_missing
    example_round4 example_annotations
    ([example_row] ++ example_row_unknown_dataset :: [example_row]) [1%Z; 2%Z] "HIT"
  = Raise TypeError.
Proof.
  apply (proj2 (transform_record_failure example_acquire example_select_dataset
                  example_select_missing example_round4 example_annotations
                  [example_row] [example_row] example_row_unknown_dataset
                  [1%Z; 2%Z] "HIT" TypeError)).
  - intros r [ <- | [] ]. eexists. reflexivity.
  - reflexivity.
Defined.

Lemma beacon_exists_by_mode_witness :
  exists response,
    get_datasets example_acquire example_select_dataset example_select_missing
      example_round4 example_annotations [example_row] [1%Z; 2%Z] "MISS" = Ok response /\
    beacon_exists response
    = Ok (nonempty [example_row] && (String.eqb "MISS" "ALL" || String.eqb "MISS" "HIT")).
Proof.
  apply (beacon_exists_by_mode example_acquire example_select_dataset example_select_missing
           example_round4 example_annotations [example_row] [1%Z; 2%Z] "MISS").
  - reflexivity.
  - exact example_answered.
  - intros _. exact (answers_from_table_answered _ _ example_answers_from_table).
  - discriminate.
  - right. right. right. reflexivity.
Defined.

Lemma get_datasets_unknown_mode_witness :
  exists response,
    get_datasets example_acquire example_select_dataset example_select_missing
      example_round4 example_annotations [example_row] [1%Z; 2%Z] "all" = Ok response /\
    length response = length (variant_order [example_row]) /\
    Forall (fun element => subscript element "datasetAlleleResponses" = Ok VNone) response /\
    beacon_exists response = if nonempty [example_row] then Raise TypeError else Ok false.
Proof.
  apply (get_datasets_unknown_mode example_acquire example_select_dataset
           example_select_missing example_round4 example_annotations
           [example_row] [1%Z; 2%Z] "all").
  - reflexivity.
  - exact example_answered.
  - intros [ H | [ H | [ H | H ] ] ]; discriminate.
Defined.

Lemma get_datasets_misses_witness :
  exists response,
    get_datasets example_acquire example_select_dataset example_select_missing
      example_round4 example_annotations [example_row] [2%Z; 5%Z; 1%Z; 2%Z] "MISS"
    = Ok response /\
    Forall2
      (fun v element =>
         exists hits answer,
           Forall2
             (fun r t =>
                transform_record example_acquire example_select_dataset example_round4 r
                = Ok t)
             (hits_of v [example_row]) hits /\
           Permutation answer
             (List.filter
                (fun d =>
                   existsb (Z.eqb (ds_id d)) [2%Z; 5%Z; 1%Z; 2%Z]
                   && negb (existsb (Z.eqb (ds_id d))
                              (map dataset_id (hits_of v [example_row]))))
                example_table) /\
           subscript element "datasetAlleleResponses"
           = Ok (VList ((if String.eqb "MISS" "ALL" then hits else [])
                        ++ map transform_misses answer)))
      (variant_order [example_row]) response.
Proof.
  apply (get_datasets_misses example_acquire example_select_dataset example_select_missing
           example_round4 example_annotations example_table
           [example_row] [2%Z; 5%Z; 1%Z; 2%Z] "MISS").
  - reflexivity.
  - exact example_answers_from_table.
  - exact example_answered.
  - discriminate.
  - right. reflexivity.
Defined.

(** ** [transform_record] of cnv.py *)

Lemma dict_get_del_other (d : dict) (k k' : string) :
  k <> k' -> dict_get (dict_del d k) k' = dict_get d k'.
Proof.
  intros Hne. induction d as [ | [k0 v0] d IH ]; [ reflexivity | ].
  cbn [dict_del dict_get]. destruct (String.eqb k k0) eqn:E.
  - apply String.eqb_eq in E. subst k0.
    assert (String.eqb k' k = false) as -> by (apply String.eqb_neq; congruence).
    reflexivity.
  - cbn [dict_get]. destruct (String.eqb k' k0); [ reflexivity | exact IH ].
Qed.

Lemma py_get_del_other (d : dict) (k k' : string) :
  k <> k' -> py_get (dict_del d k) k' = py_get d k'.
Proof. intros H. unfold py_get. rewrite (dict_get_del_other _ _ _ H). reflexivity. Qed.

Lemma dict_get_set_same (d : dict) (k : string) (v : value) :
  dict_get (dict_set d k v) k = Some v.
Proof.
  induction d as [ | [k0 v0] d IH ]; cbn [dict_set dict_get].
  - rewrite String.eqb_refl. reflexivity.
  - destruct (String.eqb k k0) eqn:E; cbn [dict_get].
    + rewrite String.eqb_refl. reflexivity.
    + rewrite E. exact IH.
Qed.

(** What [pop_unless_none] answers, and what it leaves of the other
    columns. *)
Lemma pop_unless_none_Ok (response : dict) (old : string) (default : value)
  (f : value -> result value) (v : value) :
  column_converted response old default f v ->
  exists rest,
    pop_unless_none response old default f = Ok (v, rest) /\
    forall k, k <> old -> py_get rest k = py_get response k.
Proof.
  unfold pop_unless_none, column_converted, dict_pop.
  destruct (is_None (py_get response old)) eqn:E.
  - intros ->. exists response. split; reflexivity.
  - unfold py_get in *. destruct (dict_get response old) as [ x | ]; [ | discriminate ].
    intros Hf. cbn [bind fst snd]. rewrite Hf. cbn [bind].
    eexists. split; [ reflexivity | ].
    intros k Hk. rewrite dict_get_del_other by congruence. reflexivity.
Qed.

Lemma column_or_converted (record : dict) (k : string) (default : value) :
  column_converted record k default Ok (column_or record k default).
Proof. unfold column_converted, column_or. destruct (is_None (py_get record k)); reflexivity. Qed.

Section CnvRecordProperties.

Variable acquire : result unit.
Variable select_dataset : Z -> result (option dataset_row).
Variable round4 : value -> result value.

Local Abbreviation transform := (cnv_transform_record acquire select_dataset round4).

(** X21. The hit entry of the CNV endpoint. What the acquisition of the
    connection raises is raised; a failure of the query of the dataset is
    raised as [BeaconServerError]; a dataset without row makes
    the call raise [TypeError]; a frequency that is not [None] and whose
    rounding raises makes the call raise the same. When the connection is
    acquired, the row of the dataset is found and the frequency is [None]
    or is rounded, the answer has exactly the ten keys of the response
    schema, in the order of the schema, whatever the other columns of the
    record and whatever is [NULL]; the three counts are the empty string
    when the database has [NULL], and [frequency], [numVariants] and
    [matchingSampleCount] are [0]. *)
Theorem cnv_transform_record_shape (record : cnv_row) :
  (forall e, acquire = Raise e -> transform record = Raise e) /\
  (forall e, acquire = Ok tt -> select_dataset (cnv_dataset_id record) = Raise e ->
             transform record = Raise BeaconServerError) /\
  (acquire = Ok tt -> select_dataset (cnv_dataset_id record) = Ok None ->
   transform record = Raise TypeError) /\
  (forall extra e,
     acquire = Ok tt -> select_dataset (cnv_dataset_id record) = Ok (Some extra) ->
     is_None (py_get (cnv_record_dict record) "frequency") = false ->
     round4 (py_get (cnv_record_dict record) "frequency") = Raise e ->
     transform record = Raise e) /\
  (forall extra frequency,
     acquire = Ok tt -> select_dataset (cnv_dataset_id record) = Ok (Some extra) ->
     column_converted (cnv_record_dict record) "frequency" (VInt 0) round4 frequency ->
     exists fields info,
       transform record = Ok (VDict fields) /\
       map fst fields
       = ["datasetId"; "internalId"; "exists"; "variantCount"; "callCount";
          "sampleCount"; "frequency"; "numVariants"; "info"; "datasetHandover"] /\
       dict_get fields "datasetId" = Some (VStr (ds_stable_id extra)) /\
       dict_get fields "internalId" = Some (VInt (cnv_dataset_id record)) /\
       dict_get fields "exists" = Some (VBool true) /\
       dict_get fields "variantCount"
       = Some (column_or (cnv_record_dict record) "variant_cnt" (VStr "")) /\
       dict_get fields "callCount"
       = Some (column_or (cnv_record_dict record) "call_cnt" (VStr "")) /\
       dict_get fields "sampleCount"
       = Some (column_or (cnv_record_dict record) "sample_cnt" (VStr "")) /\
       dict_get fields "frequency" = Some frequency /\
       dict_get fields "numVariants"
       = Some (column_or (cnv_record_dict record) "num_variants" (VInt 0)) /\
       dict_get fields "info" = Some (VDict info) /\
       dict_get info "matchingSampleCount"
       = Some (column_or (cnv_record_dict record) "matching_sample_cnt" (VInt 0))).
Proof.
  set (columns := cnv_record_dict record).
  assert (forall k, k <> "dataset_id" ->
                    py_get (dict_del columns "dataset_id") k = py_get columns k) as H0.
  { intros k Hk. apply py_get_del_other. congruence. }
  assert (dict_get columns "dataset_id" = Some (VInt (cnv_dataset_id record))) as Hid
    by apply dict_get_set_same.
  split; [ | split; [ | split; [ | split ] ] ].
  - intros e Hacq. unfold cnv_transform_record. rewrite Hacq. reflexivity.
  - intros e Hacq Hrow. unfold cnv_transform_record. rewrite Hacq, Hrow. reflexivity.
  - intros Hacq Hrow. unfold cnv_transform_record. rewrite Hacq, Hrow. reflexivity.
  - intros extra e Hacq Hrow Hsome Hf.
    unfold cnv_transform_record. rewrite Hacq, Hrow. cbn [bind server_error].
    fold columns. unfold dict_pop at 1. rewrite Hid. cbn [bind fst snd].
    destruct (pop_unless_none_Ok (dict_del columns "dataset_id") "variant_cnt" (VStr "")
                Ok _ (column_or_converted _ _ _)) as (r1 & -> & H1). cbn [bind fst snd].
    destruct (pop_unless_none_Ok r1 "call_cnt" (VStr "") Ok _ (column_or_converted _ _ _))
      as (r2 & -> & H2). cbn [bind fst snd].
    destruct (pop_unless_none_Ok r2 "sample_cnt" (VStr "") Ok _ (column_or_converted _ _ _))
      as (r3 & -> & H3). cbn [bind fst snd].
    assert (py_get r3 "frequency" = py_get columns "frequency") as Hsame.
    { rewrite H3, H2, H1, H0 by discriminate. reflexivity. }
    unfold pop_unless_none at 1. rewrite Hsame, Hsome.
    unfold dict_pop, py_get in *.
    destruct (dict_get r3 "frequency") as [ x | ] eqn:Ex.
    + cbn [bind fst snd]. rewrite Hsame, Hf. reflexivity.
    + rewrite <- Hsame in Hsome. discriminate.
  - intros extra frequency Hacq Hrow Hfreq.
    unfold cnv_transform_record. rewrite Hacq, Hrow. cbn [bind server_error].
    fold columns. unfold dict_pop at 1. rewrite Hid. cbn [bind fst snd].
    destruct (pop_unless_none_Ok (dict_del columns "dataset_id") "variant_cnt" (VStr "")
                Ok _ (column_or_converted _ _ _)) as (r1 & -> & H1). cbn [bind fst snd].
    destruct (pop_unless_none_Ok r1 "call_cnt" (VStr "") Ok _ (column_or_converted _ _ _))
      as (r2 & -> & H2). cbn [bind fst snd].
    destruct (pop_unless_none_Ok r2 "sample_cnt" (VStr "") Ok _ (column_or_converted _ _ _))
      as (r3 & -> & H3). cbn [bind fst snd].
    assert (column_converted r3 "frequency" (VInt 0) round4 frequency) as Hfreq'.
    { unfold column_converted in *.
      rewrite H3, H2, H1, H0 by discriminate. exact Hfreq. }
    destruct (pop_unless_none_Ok r3 "frequency" (VInt 0) round4 _ Hfreq')
      as (r4 & -> & H4). cbn [bind fst snd].
    destruct (pop_unless_none_Ok r4 "num_variants" (VInt 0) Ok _ (column_or_converted _ _ _))
      as (r5 & -> & H5). cbn [bind fst snd].
    destruct (pop_unless_none_Ok r5 "matching_sample_cnt" (VInt 0) Ok _
                (column_or_converted _ _ _)) as (r6 & -> & H6).
    cbn [bind fst snd].
    eexists. eexists. split; [ reflexivity | ]. split; [ reflexivity | ].
    unfold column_or.
    rewrite H5, H4, H3, H2, H1, H0 by discriminate.
    rewrite H4, H3, H2, H1, H0 by discriminate.
    rewrite H2, H1, H0 by discriminate.
    rewrite H1, H0 by discriminate.
    rewrite H0 by discriminate.
    repeat split; reflexivity.
Qed.

End CnvRecordProperties.

Lemma cnv_transform_record_shape_witness :
  exists fields info,
    cnv_transform_record example_acquire example_select_dataset example_round4
      example_cnv_row = Ok (VDict fields) /\
    map fst fields
    = ["datasetId"; "internalId"; "exists"; "variantCount"; "callCount";
       "sampleCount"; "frequency"; "numVariants"; "info"; "datasetHandover"] /\
    dict_get fields "datasetId" = Some (VStr "EGAD00001000740") /\
    dict_get fields "internalId" = Some (VInt 1) /\
    dict_get fields "exists" = Some (VBool true) /\
    dict_get fields "variantCount" = Some (VStr "") /\
    dict_get fields "callCount" = Some (VInt 10) /\
    dict_get fields "sampleCount" = Some (VStr "") /\
    dict_get fields "frequency" = Some (VInt 0) /\
    dict_get fields "numVariants" = Some (VInt 0) /\
    dict_get fields "info" = Some (VDict info) /\
    dict_get info "matchingSampleCount" = Some (VInt 0).
Proof.
  apply (proj2 (proj2 (proj2 (proj2
           (cnv_transform_record_shape example_acquire example_select_dataset
              example_round4 example_cnv_row))))
           {| ds_id := 1; ds_stable_id := "EGAD00001000740"; ds_access_type := "PUBLIC" |}
           (VInt 0)).
  - reflexivity.
  - reflexivity.
  - reflexivity.
Defined.

(** ** [prepare_filter_parameter] *)

(** X22. Of a filter only the ontology and the term reach the query
    that looks the filter up: the operator and the value are parsed and
    then dropped, so [ontology:term operator value] gives the same
    selection as [ontology:term] alone, whatever the operator and the
    value. *)
Theorem filter_combinations_drop_value (ontology term operator val : string) :
  char_in ":" ontology = false ->
  plain_text term = true ->
  plain_text val = true ->
  In operator operators ->
  filter_combinations
    [String.append ontology
       (String.append ":" (String.append term (String.append operator val)))]
  = Ok (String.append "'"
          (String.append (String.append ontology (String.append ":" term)) "'")) /\
  filter_combinations [String.append ontology (String.append ":" term)]
  = Ok (String.append "'"
          (String.append (String.append ontology (String.append ":" term)) "'")).
Proof.
  intros Ho Ht Hv Hop.
  unfold filter_combinations, parse_filters_request. cbn [parse_filters_from].
  rewrite (parse_filter_plain _ _ Ho Ht), (parse_filter_operator _ _ _ _ Ho Ht Hv Hop).
  split; reflexivity.
Qed.

Lemma filter_combinations_drop_value_witness :
  filter_combinations ["Insilico:coverage>=30"] = Ok "'Insilico:coverage'" /\
  filter_combinations ["Insilico:coverage"] = Ok "'Insilico:coverage'".
Proof.
  apply (filter_combinations_drop_value "Insilico" "coverage" ">=" "30").
  - reflexivity.
  - reflexivity.
  - reflexivity.
  - simpl. auto.
Defined.

Lemma group_columns_snoc (recs : list (string * string)) (r : string * string) :
  group_columns (recs ++ [r]) = add_column_value (group_columns recs) (fst r) (snd r).
Proof. unfold group_columns. rewrite List.fold_left_app. reflexivity. Qed.

Lemma add_column_value_keys (g : list (string * list string)) (c v : string) :
  map fst (add_column_value g c v)
  = if existsb (String.eqb c) (map fst g) then map fst g else map fst g ++ [c].
Proof.
  induction g as [ | [k vals] g IH ]; [ reflexivity | ].
  cbn [add_column_value map fst existsb].
  destruct (String.eqb c k); [ reflexivity | ].
  cbn [map fst orb]. rewrite IH. destruct (existsb (String.eqb c) (map fst g)); reflexivity.
Qed.

Lemma values_of_snoc (k : string) (recs : list (string * string)) (r : string * string) :
  map snd (List.filter (fun x => String.eqb (fst x) k) (recs ++ [r]))
  = map snd (List.filter (fun x => String.eqb (fst x) k) recs)
    ++ (if String.eqb (fst r) k then [snd r] else []).
Proof.
  rewrite List.filter_app, map_app. cbn [List.filter].
  destruct (String.eqb (fst r) k); reflexivity.
Qed.

Lemma add_column_value_entries (recs : list (string * string))
  (g : list (string * list string)) (c v : string) :
  Forall (fun kv => snd kv
                    = map snd (List.filter (fun x => String.eqb (fst x) (fst kv)) recs)) g ->
  List.NoDup (map fst g) ->
  (~ In c (map fst g) -> List.filter (fun x => String.eqb (fst x) c) recs = []) ->
  Forall (fun kv => snd kv
                    = map snd (List.filter (fun x => String.eqb (fst x) (fst kv))
                                 (recs ++ [(c, v)])))
    (add_column_value g c v).
Proof.
  induction 1 as [ | [k vals] g Hk Hg IH ]; intros Hnd Hnew; cbn [add_column_value].
  - constructor; [ | constructor ]. cbn [fst snd].
    rewrite values_of_snoc, (Hnew (fun H => H)). cbn [fst snd map app].
    rewrite String.eqb_refl. reflexivity.
  - cbn [map fst] in Hnd. inversion Hnd as [ | ? ? Hfresh Hnd' ]; subst.
    cbn [fst snd] in Hk.
    destruct (String.eqb c k) eqn:E.
    + apply String.eqb_eq in E. subst k. constructor.
      * cbn [fst snd]. rewrite values_of_snoc. cbn [fst snd].
        rewrite String.eqb_refl, Hk. reflexivity.
      * rewrite List.Forall_forall in Hg. apply List.Forall_forall.
        intros [k' vals'] Hin. cbn [fst snd]. rewrite values_of_snoc. cbn [fst snd].
        assert (String.eqb c k' = false) as ->.
        { apply String.eqb_neq. intros ->. apply Hfresh.
          apply (in_map fst) in Hin. exact Hin. }
        rewrite app_nil_r. exact (Hg _ Hin).
    + constructor.
      * cbn [fst snd]. rewrite values_of_snoc. cbn [fst snd]. rewrite E, app_nil_r. exact Hk.
      * apply IH; [ exact Hnd' | ]. intros Hc. apply Hnew.
        cbn [map fst]. intros [ Heq | Hin ]; [ | contradiction ].
        subst k. rewrite String.eqb_refl in E. discriminate.
Qed.

(** X23. The look-up answers are grouped by column: the columns of the
    string passed to the SQL function are the columns of the answers, each
    once, in the order of their first answer; each column has the values
    of its answers, in order, and never an empty array. Without answers
    the string is empty. *)
Theorem group_columns_spec (db_response : list (string * string)) :
  List.NoDup (map fst (group_columns db_response)) /\
  (forall c, In c (map fst (group_columns db_response)) <-> In c (map fst db_response)) /\
  Forall (fun kv =>
            snd kv
            = map snd (List.filter (fun x => String.eqb (fst x) (fst kv)) db_response) /\
            snd kv <> [])
    (group_columns db_response) /\
  length (map column_clause (group_columns db_response)) <= length db_response /\
  filter_string [] = "".
Proof.
  assert (List.NoDup (map fst (group_columns db_response)) /\
          (forall c, In c (map fst (group_columns db_response)) <->
                     In c (map fst db_response)) /\
          Forall (fun kv =>
                    snd kv
                    = map snd (List.filter (fun x => String.eqb (fst x) (fst kv))
                                 db_response))
            (group_columns db_response) /\
          length (group_columns db_response) <= length db_response) as H.
  { induction db_response as [ | [c v] recs IH ] using rev_ind.
    - repeat split; try constructor; intros H; exact H.
    - destruct IH as (Hnd & Hkeys & Hall & Hlen).
      rewrite group_columns_snoc. cbn [fst snd].
      assert (map fst (add_column_value (group_columns recs) c v)
              = if existsb (String.eqb c) (map fst (group_columns recs))
                then map fst (group_columns recs)
                else map fst (group_columns recs) ++ [c]) as Hk
        by apply add_column_value_keys.
      split; [ | split; [ | split ] ].
      + rewrite Hk. destruct (existsb _ _) eqn:E; [ exact Hnd | ].
        apply List.NoDup_app; [ exact Hnd | repeat constructor; intros [] | ].
        intros x Hx [ <- | [] ]. apply existsb_eqb_In in Hx. congruence.
      + intros x. rewrite Hk, map_app, in_app_iff, <- Hkeys. cbn [map fst In].
        destruct (existsb _ _) eqn:E.
        * apply existsb_eqb_In in E. split; [ auto | ].
          intros [ H | [ <- | [] ] ]; assumption.
        * rewrite in_app_iff. cbn [In]. reflexivity.
      + apply add_column_value_entries; [ exact Hall | exact Hnd | ].
        intros Hc. destruct (List.filter _ recs) as [ | r rs ] eqn:Ef; [ reflexivity | ].
        exfalso. apply Hc, Hkeys.
        assert (In r (List.filter (fun x => String.eqb (fst x) c) recs)) as Hin
          by (rewrite Ef; left; reflexivity).
        apply List.filter_In in Hin. destruct Hin as [Hin Heq].
        apply String.eqb_eq in Heq. subst c. apply in_map, Hin.
      + apply (f_equal (@length string)) in Hk. rewrite !List.length_map in Hk.
        rewrite Hk, List.length_app. cbn [length].
        destruct (existsb _ _); rewrite ?List.length_app, !List.length_map; cbn [length]; lia. }
  destruct H as (Hnd & Hkeys & Hall & Hlen).
  split; [ exact Hnd | ]. split; [ exact Hkeys | ]. split; [ | split ].
  - rewrite List.Forall_forall in Hall. apply List.Forall_forall.
    intros [k vals] Hin. split; [ exact (Hall _ Hin) | ].
    rewrite (Hall _ Hin). cbn [fst snd].
    assert (In k (map fst db_response)) as Hk by (apply Hkeys, (in_map fst _ _ Hin)).
    apply in_map_iff in Hk. destruct Hk as ([c v] & Hc & Hr). cbn [fst] in Hc. subst c.
    assert (In (k, v) (List.filter (fun x => String.eqb (fst x) k) db_response)) as Hf.
    { apply List.filter_In. split; [ exact Hr | apply String.eqb_refl ]. }
    intros E. apply (f_equal (@length string)) in E. rewrite List.length_map in E.
    destruct (List.filter _ db_response); [ contradiction | discriminate ].
  - rewrite List.length_map. exact Hlen.
  - reflexivity.
Qed.

(** ** The answer of the handlers *)

(** X24. What the handlers return after the filter, by the policy entry
    of the wrapping key (after translation): without an entry the whole
    response is returned unfiltered; with a scope whose
    [accessLevelSummary] is ["PUBLIC"] the response is filtered in that
    scope; with a scope of any other tier the wrapping key is withheld and
    the unwrapping raises [KeyError]. *)
Theorem handler_response_cases (ACCESS_LEVELS_DICT : dict)
  (region2access : list (string * string)) (accessible_datasets : list string)
  (beacon_response : dict) :
  let scope_name := translate region2access "beconGenomicRegionRequest" in
  (dict_has ACCESS_LEVELS_DICT scope_name = false ->
   handler_response ACCESS_LEVELS_DICT region2access accessible_datasets beacon_response
   = Ok (VDict beacon_response)) /\
  (forall scope tier,
     dict_get ACCESS_LEVELS_DICT scope_name = Some (VDict scope) ->
     dict_get scope "accessLevelSummary" = Some tier ->
     handler_response ACCESS_LEVELS_DICT region2access accessible_datasets beacon_response
     = if str_in tier ["PUBLIC"]
       then filter_response ACCESS_LEVELS_DICT accessible_datasets ["PUBLIC"] region2access
              (VDict beacon_response) (Some scope_name)
       else Raise KeyError).
Proof.
  intros scope_name. split.
  - intros Hh. unfold handler_response. cbn [filter_response filter_fields].
    rewrite (unmodelled_Pass ACCESS_LEVELS_DICT ["PUBLIC"] region2access None
               "beconGenomicRegionRequest" (VDict beacon_response)).
    + reflexivity.
    + unfold unmodelled. fold scope_name. rewrite Hh. reflexivity.
  - intros scope tier Hscope Htier.
    assert (dict_has ACCESS_LEVELS_DICT scope_name = true) as Hh.
    { apply dict_has_get. rewrite Hscope. discriminate. }
    unfold handler_response. cbn [filter_response filter_fields].
    unfold field_action. fold scope_name. cbn [parent_scope bind is_container andb].
    rewrite Hh. cbn [bind subscript]. rewrite Hscope. cbn [bind subscript].
    rewrite Htier. cbn [bind andb].
    rewrite andb_true_r.
    destruct (str_in tier ["PUBLIC"]).
    + destruct (filter_response ACCESS_LEVELS_DICT accessible_datasets ["PUBLIC"]
                  region2access (VDict beacon_response) (Some scope_name))
        as [ sub | e ] eqn:E.
      * cbn [filter_response] in E. cbn [bind]. rewrite E. reflexivity.
      * cbn [filter_response] in E. cbn [bind]. rewrite E. reflexivity.
    + reflexivity.
Qed.

Lemma handler_response_cases_witness :
  handler_response example_policy [("beconGenomicRegionRequest", "beaconDataset")] []
    [("id", VStr "b"); ("name", VStr "n")]
  = Ok (VDict [("id", VStr "b")]).
Proof.
  apply (proj2 (handler_response_cases example_policy
                  [("beconGenomicRegionRequest", "beaconDataset")] []
                  [("id", VStr "b"); ("name", VStr "n")])
           [("accessLevelSummary", VStr "PUBLIC"); ("id", VStr "PUBLIC");
            ("name", VStr "REGISTERED")] (VStr "PUBLIC")).
  - reflexivity.
  - reflexivity.
Defined.
